(** * Corroboration and grounding engine of the knowledge-extraction pipeline

    A shallow embedding of [pipeline.py] and [ontology.py]: the grounder
    ([_ground_model_recursive]), the property projections
    ([get_node_props], [get_rel_props]), the corroborator
    ([_tx_corroborate_and_ingest]) and the package ingestors, over a model
    of the Neo4j property graph they write to. *)

From Stdlib Require Import ZArith QArith.
From stdpp Require Import base strings gmap list fin_maps pretty.
Close Scope Q_scope.

Set Default Proof Using "Type".

(* ===================================================================== *)
(** ** Python values *)
(* ===================================================================== *)

(** Values that end up in a property dictionary: [None], [str], [int],
    [float], [bool] and [datetime].  A float is modelled by the rational
    it denotes (no NaN), a naive datetime by its microseconds. *)
Inductive pval :=
  | PNull
  | PStr (s : string)
  | PInt (z : Z)
  | PFloat (q : Q)
  | PBool (b : bool)
  | PTime (t : Z).

(** A Python [dict] with string keys. *)
Abbreviation Props := (gmap string pval).

(** [ontology.ProvableFact].  Pydantic declares both halves [str]; the
    pipeline nevertheless tests them against [None], so either half may be
    missing here. *)
Record ProvableFact := {
  value : option string;
  evidence : option string
}.

(** [ontology.ProvenanceModel] *)
Record ProvenanceModel := {
  url : string;
  retrieved_at : Z;
  trust_score : Q
}.

(** An attribute value of a Pydantic model, as the reflective code of the
    pipeline tells them apart with [isinstance]: a plain scalar or [None],
    an [enum.Enum] member (all enums of the ontology mix in [str]; the
    payload is the member's [.value]), a [ProvableFact], a nested
    [BaseModel] with its [model_fields] in declaration order, or a list. *)
#[local] Unset Elimination Schemes.
Inductive pyobj :=
  | OAtom (a : pval)
  | OEnum (tag : string)
  | OFact (f : ProvableFact)
  | OModel (fields : list (string * pyobj))
  | OList (items : list pyobj).
#[local] Set Elimination Schemes.

Abbreviation ONone := (OAtom PNull).

(** [ontology.ExtractionPackage] *)
Record ExtractionPackage := {
  metadata : ProvenanceModel;
  data : pyobj
}.

(** The models of [ontology.py], each with its fields in declaration
    order.  The arguments are the attribute values. *)
Definition EmployeeModel (name email phone role_type : pyobj) : pyobj :=
  OModel [("name", name); ("email", email); ("phone", phone);
          ("role_type", role_type)].

Definition BranchModel (name address employees : pyobj) : pyobj :=
  OModel [("name", name); ("address", address); ("employees", employees)].

Definition BranchData (branch : pyobj) : pyobj :=
  OModel [("branch", branch)].

Definition ConditionModel (type min_amount max_amount term_years
    interest_rate : pyobj) : pyobj :=
  OModel [("type", type); ("min_amount", min_amount);
          ("max_amount", max_amount); ("term_years", term_years);
          ("interest_rate", interest_rate)].

Definition FAQModel (question answer : pyobj) : pyobj :=
  OModel [("question", question); ("answer", answer)].

Definition ProductModel (name description : pyobj) : pyobj :=
  OModel [("name", name); ("description", description)].

Definition ProductTypeModel (name : pyobj) : pyobj :=
  OModel [("name", name)].

Definition RiskClassModel (risk_class : pyobj) : pyobj :=
  OModel [("risk_class", risk_class)].

Definition KnowledgeGraphData (product product_type risk_class conditions
    faqs : pyobj) : pyobj :=
  OModel [("product", product); ("product_type", product_type);
          ("risk_class", risk_class); ("conditions", conditions);
          ("faqs", faqs)].

Definition opt_str (o : option string) : pval :=
  match o with Some s => PStr s | None => PNull end.

(** Python truthiness of a [str] that may be [None]: [not x]. *)
Definition falsy_str (o : option string) : bool :=
  match o with
  | None => true
  | Some s => bool_decide (s = "")
  end.

(** [bool(x)] for the objects of the tree.  Pydantic models define neither
    [__bool__] nor [__len__], so an instance is always truthy. *)
Definition truthy (v : pyobj) : bool :=
  match v with
  | OAtom PNull => false
  | OAtom (PStr s) => negb (bool_decide (s = ""))
  | OAtom (PInt z) => negb (z =? 0)%Z
  | OAtom (PFloat q) => negb (Qeq_bool q 0)
  | OAtom (PBool b) => b
  | OAtom (PTime _) => true
  | OEnum tag => negb (bool_decide (tag = ""))
  | OFact _ => true
  | OModel _ => true
  | OList items => match items with [] => false | _ => true end
  end.

(* ===================================================================== *)
(** ** Exceptions *)
(* ===================================================================== *)

Inductive exn :=
  | TypeError              (* comparison with a value of the wrong type *)
  | AttributeError         (* attribute access on an object without it *)
  | ResultNotSingleError   (* neo4j: [single(strict=True)] on != 1 records *)
  | CypherError.           (* neo4j: MERGE on a null property value *)

Inductive result (A : Type) :=
  | Ok (a : A)
  | Raise (e : exn).
Arguments Ok {A} a.
Arguments Raise {A} e.

(** [result] with stdpp's monad notation: [x ← m; k] runs [k] on the
    value of [m] and propagates an exception. *)
#[export] Instance result_ret : MRet result := λ A a, Ok a.
#[export] Instance result_bind : MBind result := λ A B k m,
  match m with
  | Ok a => k a
  | Raise e => Raise e
  end.

(* ===================================================================== *)
(** ** 4.3 Grounder *)
(* ===================================================================== *)

(** A loop that threads a state through a list, left to right. *)
Definition map_st {A B S} (f : A → S → B * S) : list A → S → list B * S :=
  fix go l s :=
    match l with
    | [] => ([], s)
    | x :: rest =>
        let '(y, s1) := f x s in
        let '(ys, s2) := go rest s1 in
        (y :: ys, s2)
    end.

Section Grounder.
(** The verification oracle is an external service.  [is_fact_grounded]
    catches every exception and answers [False] then, so from the
    pipeline's side it is a total question to a world that may change
    with every call. *)
Context {World : Type}.
Variable ask : World → string → string → bool * World.

(** The world together with the log of the questions put to it. *)
Record GState := {
  world : World;
  asked : list (string * string)
}.

Definition is_fact_grounded (fact evid : string) (g : GState)
    : bool * GState :=
  let '(b, w) := ask (world g) fact evid in
  (b, {| world := w; asked := asked g ++ [(fact, evid)] |}).

(** The body of the loop over [model_fields] in
    [_ground_model_recursive], for one attribute value; the result is
    the value the attribute holds afterwards. *)
Fixpoint ground_field (field_value : pyobj) (g : GState) {struct field_value}
    : pyobj * GState :=
  match field_value with
  | OAtom _ | OEnum _ => (field_value, g)
  | OFact f =>
      if falsy_str (value f) || falsy_str (evidence f) then (ONone, g)
      else
        let '(is_grounded, g') :=
          is_fact_grounded (default "" (value f))
                           (default "" (evidence f)) g in
        if is_grounded then (field_value, g') else (ONone, g')
  | OModel fields =>
      let '(fields', g') :=
        map_st (λ kv g, let '(v', g') := ground_field kv.2 g in
                        ((kv.1, v'), g')) fields g in
      (OModel fields', g')
  | OList items =>
      let '(items', g') :=
        map_st (λ item g,
                  match item with
                  | OModel _ => ground_field item g
                  | _ => (item, g)
                  end) items g in
      (OList items', g')
  end.

(** [_ground_model_recursive]: a model instance has its fields walked;
    [None] returns at once.  A [ProvableFact] handed in as the instance
    itself (a list item) has only [str] fields and is left as it is. *)
Definition _ground_model_recursive (model_instance : pyobj) (g : GState)
    : pyobj * GState :=
  match model_instance with
  | OModel _ => ground_field model_instance g
  | _ => (model_instance, g)
  end.

Definition ground_package (package : ExtractionPackage) (g : GState)
    : ExtractionPackage * GState :=
  let '(d, g') := _ground_model_recursive (data package) g in
  ({| metadata := metadata package; data := d |}, g').
End Grounder.

Arguments GState : clear implicits.

(* ===================================================================== *)
(** ** 4.4 Property projections *)
(* ===================================================================== *)

(** [model.model_fields.items()] with [getattr]: a [ProvableFact] is a
    [BaseModel] too, with the two [str] fields [value] and [evidence]. *)
Definition model_fields (model : pyobj) : result (list (string * pyobj)) :=
  match model with
  | OModel fields => Ok fields
  | OFact f => Ok [("value", OAtom (opt_str (value f)));
                   ("evidence", OAtom (opt_str (evidence f)))]
  | _ => Raise AttributeError
  end.

(** One turn of the loop of [get_node_props]. *)
Definition node_prop_step (props : Props) (kv : string * pyobj) : Props :=
  let '(field_name, field_value) := kv in
  match field_value with
  | OFact f =>
      match value f with
      | Some v => <[field_name := PStr v]> props
      | None => props
      end
  | OEnum tag => <[field_name := PStr tag]> props
  | OAtom (PTime _) => props
  | OAtom a => <[field_name := a]> props
  | OModel _ | OList _ => props
  end.

Definition get_node_props (model : pyobj) : result Props :=
  match model with
  | ONone => Ok ∅
  | _ => fields ← model_fields model; Ok (foldl node_prop_step ∅ fields)
  end.

(** One turn of the loop of [get_rel_props]. *)
Definition rel_prop_step (props : Props) (kv : string * pyobj) : Props :=
  let '(field_name, field_value) := kv in
  match field_value with
  | OFact f =>
      match evidence f with
      | Some e => <[field_name +:+ "_evidence" := PStr e]> props
      | None => props
      end
  | _ => props
  end.

Definition get_rel_props (model : pyobj) : result Props :=
  match model with
  | ONone => Ok ∅
  | _ => fields ← model_fields model; Ok (foldl rel_prop_step ∅ fields)
  end.

(* ===================================================================== *)
(** ** The property graph *)
(* ===================================================================== *)

(** Node labels the pipeline writes under.  [Source] nodes are kept apart
    (below), so no entity pattern can match one. *)
Inductive Label :=
  | Product | Condition | FAQ | Branch | Employee
  | ProductType | RiskClass | RoleType.

#[export] Instance Label_eq_dec : EqDecision Label.
Proof. solve_decision. Defined.

Record Node := {
  n_label : Label;
  n_props : Props
}.

(** The database.  A node is known by its position in [nodes]; the
    pipeline never deletes one while ingesting.  A [Source] node carries
    nothing but its [url] and is only ever made by [MERGE (q:Source {url})],
    so the set of urls stands for them.  A [FROM_SOURCE] relationship is
    only ever made by [MERGE (n)-[r:FROM_SOURCE]->(q)], so there is at most
    one per pair of entity node and source: [from_source] maps the pair to
    the relationship's properties.  [links] holds the property-less
    relationships ([HAS_CONDITION], [WORKS_IN], ...) by type name. *)
Record Graph := {
  nodes : list Node;
  sources : gset string;
  from_source : gmap (nat * string) Props;
  links : gset (nat * string * nat)
}.

Definition empty_graph : Graph :=
  {| nodes := []; sources := ∅; from_source := ∅; links := ∅ |}.

Definition is_null (v : pval) : bool :=
  match v with PNull => true | _ => false end.

(** Neo4j keeps no null property: [SET x = $map] drops the keys of the map
    whose value is null. *)
Definition stored (props : Props) : Props :=
  filter (λ kv, is_null kv.2 = false) props.

(** The pattern [(n:label {key: $key_value})]. *)
Definition node_matches (label : Label) (key key_value : string) (n : Node)
    : bool :=
  bool_decide (n_label n = label) &&
  match n_props n !! key with
  | Some (PStr s) => bool_decide (s = key_value)
  | _ => false
  end.

Definition is_matched (tx : Graph) (label : Label) (key key_value : string)
    (i : nat) : bool :=
  match nodes tx !! i with
  | Some n => node_matches label key key_value n
  | None => false
  end.

Definition match_ids (tx : Graph) (label : Label) (key key_value : string)
    : list nat :=
  filter (λ i, is_matched tx label key key_value i) (seq 0 (length (nodes tx))).

(** The pattern [{is_active: true}] on a relationship. *)
Definition is_active (r : Props) : bool :=
  match r !! "is_active" with
  | Some (PBool true) => true
  | _ => false
  end.

Definition deactivate (r : Props) : Props := <["is_active" := PBool false]> r.

(** [MATCH (n:label {key: $key_value})
           -[r_alt:FROM_SOURCE {is_active: true}]->(q_alt:Source)
     WHERE q_alt.url <> $url
     RETURN r_alt.retrieved_at AS old_ts, r_alt.trust_score AS old_trust]
    A property the relationship lacks comes back as null ([None]).  Neo4j
    promises no order of the rows; the model lists them in key order. *)
Definition competes (tx : Graph) (label : Label) (key key_value url : string)
    (kr : nat * string * Props) : bool :=
  is_matched tx label key key_value kr.1.1 && is_active kr.2 &&
  negb (bool_decide (kr.1.2 = url)).

Definition query_find_old (tx : Graph) (label : Label)
    (key key_value url : string) : list (option pval * option pval) :=
  (λ kr : nat * string * Props,
     (kr.2 !! "retrieved_at", kr.2 !! "trust_score")) <$>
  filter (λ kr, competes tx label key key_value url kr)
         (map_to_list (from_source tx)).

(** [neo4j.Result.single(strict)]: the only record, or [None] when there
    is none.  On more than one record the driver raises only when
    [strict]; otherwise it warns and hands out the first. *)
Definition single {A} (strict : bool) (records : list A)
    : result (option A) :=
  match records with
  | [] => if strict then Raise ResultNotSingleError else Ok None
  | [r] => Ok (Some r)
  | r :: _ => if strict then Raise ResultNotSingleError else Ok (Some r)
  end.

(** [MERGE (q:Source {url: $url}) MERGE (n:label {key: $key_value})] *)
Definition merge_node (label : Label) (key key_value : string) (tx : Graph)
    : Graph :=
  match match_ids tx label key key_value with
  | [] =>
      {| nodes := nodes tx ++
                  [{| n_label := label; n_props := {[key := PStr key_value]} |}];
         sources := sources tx;
         from_source := from_source tx;
         links := links tx |}
  | _ => tx
  end.

Definition merge_source (url : string) (tx : Graph) : Graph :=
  {| nodes := nodes tx;
     sources := {[url]} ∪ sources tx;
     from_source := from_source tx;
     links := links tx |}.

(** [MATCH (n:label {key: $key_value})
     OPTIONAL MATCH (n)-[r_alt:FROM_SOURCE {is_active: true}]->()
     SET n = $node_props, r_alt.is_active = false] *)
Definition set_node_and_deactivate (label : Label) (key key_value : string)
    (node_props : Props) (tx : Graph) : Graph :=
  {| nodes :=
       (λ n, if node_matches label key key_value n
             then {| n_label := n_label n; n_props := stored node_props |}
             else n) <$> nodes tx;
     sources := sources tx;
     from_source :=
       map_imap (λ (k : nat * string) r,
                   Some (if is_matched tx label key key_value k.1 && is_active r
                         then deactivate r else r))
                (from_source tx);
     links := links tx |}.

(** [MATCH (n:label {key: $key_value}) MATCH (q:Source {url: $url})
     MERGE (n)-[r_new:FROM_SOURCE]->(q) SET r_new = $rel_props] *)
Definition merge_from_source (label : Label) (key key_value url : string)
    (rel_props : Props) (tx : Graph) : Graph :=
  if bool_decide (url ∈ sources tx) then
    {| nodes := nodes tx;
       sources := sources tx;
       from_source :=
         foldr (λ i m, <[(i, url) := stored rel_props]> m) (from_source tx)
               (match_ids tx label key key_value);
       links := links tx |}
  else tx.

(** The staleness check:
    [MATCH (n:l1|l2|...)-[r:FROM_SOURCE {is_active: true}]->(q:Source {url: $url})
     SET r.is_active = false] *)
Definition has_label (tx : Graph) (labels : list Label) (i : nat) : bool :=
  match nodes tx !! i with
  | Some n => bool_decide (n_label n ∈ labels)
  | None => false
  end.

Definition mark_stale (labels : list Label) (url : string) (tx : Graph)
    : Graph :=
  {| nodes := nodes tx;
     sources := sources tx;
     from_source :=
       map_imap (λ (k : nat * string) r,
                   Some (if has_label tx labels k.1 && is_active r &&
                            bool_decide (k.2 = url)
                         then deactivate r else r))
                (from_source tx);
     links := links tx |}.

(* ===================================================================== *)
(** ** 4.4 Corroborator *)
(* ===================================================================== *)

(** [meta.retrieved_at > old_ts]: a datetime is ordered against a datetime
    only. *)
Definition py_gt_time (new : Z) (old : option pval) : result bool :=
  match old with
  | Some (PTime t) => Ok (t <? new)%Z
  | _ => Raise TypeError
  end.

(** [meta.retrieved_at == old_ts] never raises. *)
Definition py_eq_time (new : Z) (old : option pval) : bool :=
  match old with
  | Some (PTime t) => (new =? t)%Z
  | _ => false
  end.

(** [meta.trust_score >= old_trust]: a float is ordered against a number. *)
Definition py_ge_float (new : Q) (old : option pval) : result bool :=
  match old with
  | Some (PFloat q) => Ok (Qle_bool q new)
  | Some (PInt z) => Ok (Qle_bool (inject_Z z) new)
  | Some (PBool b) => Ok (Qle_bool (inject_Z (if b then 1 else 0)) new)
  | _ => Raise TypeError
  end.

(** The function returns nothing in Python and reports the outcome with a
    print; here the outcome [is_candidate_winner] is returned next to the
    database. *)
Definition _tx_corroborate_and_ingest (tx : Graph) (node_label : Label)
    (node_key node_key_value : string) (new_node_props new_rel_props : Props)
    (meta : ProvenanceModel) : result (bool * Graph) :=
  let new_rel_props := <["retrieved_at" := PTime (retrieved_at meta)]> new_rel_props in
  let new_rel_props := <["trust_score" := PFloat (trust_score meta)]> new_rel_props in
  old_fact ← single false
    (query_find_old tx node_label node_key node_key_value (url meta));
  is_candidate_winner ←
    match old_fact with
    | None => Ok true
    | Some (old_ts, old_trust) =>
        newer ← py_gt_time (retrieved_at meta) old_ts;
        if newer : bool then Ok true
        else if py_eq_time (retrieved_at meta) old_ts
             then py_ge_float (trust_score meta) old_trust
             else Ok false
    end;
  let tx := merge_node node_label node_key node_key_value
              (merge_source (url meta) tx) in
  if is_candidate_winner : bool then
    let tx := set_node_and_deactivate node_label node_key node_key_value
                new_node_props tx in
    let new_rel_props := <["is_active" := PBool true]> new_rel_props in
    Ok (true, merge_from_source node_label node_key node_key_value (url meta)
                new_rel_props tx)
  else
    let new_rel_props := <["is_active" := PBool false]> new_rel_props in
    Ok (false, merge_from_source node_label node_key node_key_value (url meta)
                 new_rel_props tx).

(* ===================================================================== *)
(** ** 4.4 Package ingestors *)
(* ===================================================================== *)

Definition assoc (name : string) : list (string * pyobj) → option pyobj :=
  fix go fields :=
    match fields with
    | [] => None
    | (k, v) :: rest => if bool_decide (k = name) then Some v else go rest
    end.

(** Attribute access [o.name]. *)
Definition getattr (o : pyobj) (name : string) : result pyobj :=
  match o with
  | OModel fields =>
      match assoc name fields with
      | Some v => Ok v
      | None => Raise AttributeError
      end
  | OFact f =>
      if bool_decide (name = "value") then Ok (OAtom (opt_str (value f)))
      else if bool_decide (name = "evidence") then Ok (OAtom (opt_str (evidence f)))
      else Raise AttributeError
  | OEnum tag =>
      if bool_decide (name = "value") then Ok (OAtom (PStr tag))
      else Raise AttributeError
  | _ => Raise AttributeError
  end.

(** [x is None] *)
Definition is_none (v : pyobj) : bool :=
  match v with ONone => true | _ => false end.

(** A value handed to Cypher as the key of a MERGE pattern.  The pipeline
    types it [str]; with [None] the statement fails, since Neo4j refuses
    to merge on a null property. *)
Definition as_key (v : pyobj) : result string :=
  match v with
  | OAtom (PStr s) => Ok s
  | _ => Raise CypherError
  end.

(** [for item in xs]: the lists of the ontology. *)
Definition iter (xs : pyobj) : result (list pyobj) :=
  match xs with
  | OList items => Ok items
  | _ => Raise TypeError
  end.

(** A [for] loop whose body updates the transaction or raises. *)
Definition for_each {A S} (body : S → A → result S) : S → list A → result S :=
  fix go s l :=
    match l with
    | [] => Ok s
    | x :: rest => s' ← body s x; go s' rest
    end.

Definition add_links (rel : string) (froms tos : list nat) (tx : Graph)
    : Graph :=
  {| nodes := nodes tx;
     sources := sources tx;
     from_source := from_source tx;
     links := links tx ∪
              list_to_set ((λ ft : nat * nat, (ft.1, rel, ft.2)) <$>
                           list_prod froms tos) |}.

(** [MATCH (a:la {ka: $va}) MERGE (b:lb {kb: $vb}) MERGE (a)-[:rel]->(b)]:
    without a row for [a] nothing is merged. *)
Definition match_merge_link (la : Label) (ka va : string)
    (lb : Label) (kb vb : string) (rel : string) (tx : Graph) : Graph :=
  match match_ids tx la ka va with
  | [] => tx
  | froms =>
      let tx := merge_node lb kb vb tx in
      add_links rel froms (match_ids tx lb kb vb) tx
  end.

(** [MATCH (a:la {ka: $va}), (b:lb {kb: $vb}) MERGE (a)-[:rel]->(b)] *)
Definition match_link (la : Label) (ka va : string)
    (lb : Label) (kb vb : string) (rel : string) (tx : Graph) : Graph :=
  add_links rel (match_ids tx la ka va) (match_ids tx lb kb vb) tx.

Section Ingestor.
(** [str(x)] inside an f-string.  The composite condition key formats
    [Optional[int]] fields; what Python prints for any other object is
    left open. *)
Variable str_other : pyobj → string.

Definition py_str (v : pyobj) : string :=
  match v with
  | ONone => "None"
  | OAtom (PStr s) => s
  | OAtom (PInt z) => pretty z
  | OAtom (PBool b) => if b then "True" else "False"
  | _ => str_other v
  end.

(** The body of the loop over [data.conditions]. *)
Definition ingest_condition (meta : ProvenanceModel) (product_name : string)
    (tx : Graph) (condition : pyobj) : result Graph :=
  if is_none condition then Ok tx else
  interest_rate ← getattr condition "interest_rate";
  if is_none interest_rate then Ok tx else
  min_amount ← getattr condition "min_amount";
  term_years ← getattr condition "term_years";
  let key := product_name +:+ "_" +:+ py_str min_amount +:+ "_" +:+
             py_str term_years in
  condition_node_props ← get_node_props condition;
  let condition_node_props := <["key" := PStr key]> condition_node_props in
  rel_props ← get_rel_props condition;
  '(_, tx) ← _tx_corroborate_and_ingest tx Condition "key" key
               condition_node_props rel_props meta;
  Ok (match_link Product "name" product_name Condition "key" key
        "HAS_CONDITION" tx).

(** The body of the loop over [data.faqs]. *)
Definition ingest_faq (meta : ProvenanceModel) (product_name : string)
    (tx : Graph) (faq : pyobj) : result Graph :=
  if is_none faq then Ok tx else
  question ← getattr faq "question";
  if is_none question then Ok tx else
  question_value ← getattr question "value";
  faq_node_props ← get_node_props faq;
  let faq_node_props :=
    <["question" := match question_value with OAtom a => a | _ => PNull end]>
      faq_node_props in
  rel_props ← get_rel_props faq;
  question_value ← as_key question_value;
  '(_, tx) ← _tx_corroborate_and_ingest tx FAQ "question" question_value
               faq_node_props rel_props meta;
  Ok (match_link Product "name" product_name FAQ "question" question_value
        "HAS_FAQ" tx).

(** [if xs: for x in xs: body] *)
Definition loop_if_any (body : Graph → pyobj → result Graph)
    (tx : Graph) (xs : pyobj) : result Graph :=
  if truthy xs then items ← iter xs; for_each body tx items else Ok tx.

Definition _tx_ingest_product_package (tx : Graph)
    (package : ExtractionPackage) : result Graph :=
  let data := data package in
  let meta := metadata package in
  let tx := mark_stale [Product; Condition; FAQ] (url meta) tx in
  product ← getattr data "product";
  if negb (truthy product) then Ok tx else
  name ← getattr product "name";
  if negb (truthy name) then Ok tx else
  product_name ← getattr name "value";
  product_node_props ← get_node_props product;
  let product_node_props :=
    <["name" := match product_name with OAtom a => a | _ => PNull end]>
      product_node_props in
  rel_props ← get_rel_props product;
  product_name ← as_key product_name;
  '(_, tx) ← _tx_corroborate_and_ingest tx Product "name" product_name
               product_node_props rel_props meta;
  product_type ← getattr data "product_type";
  tx ← (if truthy product_type then
          name ← getattr product_type "name";
          if truthy name then
            type_name ← getattr name "value" ≫= as_key;
            Ok (match_merge_link Product "name" product_name
                  ProductType "name" type_name "HAS_PRODUCT_TYPE" tx)
          else Ok tx
        else Ok tx);
  risk_class ← getattr data "risk_class";
  tx ← (if truthy risk_class then
          cls ← getattr risk_class "risk_class";
          if truthy cls then
            class_value ← getattr cls "value" ≫= as_key;
            Ok (match_merge_link Product "name" product_name
                  RiskClass "risk_class" class_value "HAS_RISK_CLASS" tx)
          else Ok tx
        else Ok tx);
  conditions ← getattr data "conditions";
  tx ← loop_if_any (ingest_condition meta product_name) tx conditions;
  faqs ← getattr data "faqs";
  loop_if_any (ingest_faq meta product_name) tx faqs.

(** The body of the loop over [data.branch.employees]. *)
Definition ingest_employee (meta : ProvenanceModel) (branch_name : string)
    (tx : Graph) (employee : pyobj) : result Graph :=
  if is_none employee then Ok tx else
  name ← getattr employee "name";
  if is_none name then Ok tx else
  employee_name ← getattr name "value";
  employee_node_props ← get_node_props employee;
  let employee_node_props :=
    <["name" := match employee_name with OAtom a => a | _ => PNull end]>
      employee_node_props in
  rel_props ← get_rel_props employee;
  employee_name ← as_key employee_name;
  '(_, tx) ← _tx_corroborate_and_ingest tx Employee "name" employee_name
               employee_node_props rel_props meta;
  let tx := match_link Employee "name" employee_name Branch "name" branch_name
              "WORKS_IN" tx in
  role_type ← getattr employee "role_type";
  if truthy role_type then
    role_type_name ← getattr role_type "value" ≫= as_key;
    Ok (match_merge_link Employee "name" employee_name
          RoleType "name" role_type_name "HAS_ROLE_TYPE" tx)
  else Ok tx.

Definition _tx_ingest_branch_package (tx : Graph)
    (package : ExtractionPackage) : result Graph :=
  let data := data package in
  let meta := metadata package in
  let tx := mark_stale [Branch; Employee] (url meta) tx in
  branch ← getattr data "branch";
  if negb (truthy branch) then Ok tx else
  name ← getattr branch "name";
  if negb (truthy name) then Ok tx else
  branch_name ← getattr name "value";
  branch_node_props ← get_node_props branch;
  let branch_node_props :=
    <["name" := match branch_name with OAtom a => a | _ => PNull end]>
      branch_node_props in
  rel_props ← get_rel_props branch;
  branch_name ← as_key branch_name;
  '(_, tx) ← _tx_corroborate_and_ingest tx Branch "name" branch_name
               branch_node_props rel_props meta;
  employees ← getattr branch "employees";
  loop_if_any (ingest_employee meta branch_name) tx employees.

(** [session.execute_write(work, package)]: the work of the function is
    committed when it returns and rolled back when it raises. *)
Definition execute_write (work : Graph → ExtractionPackage → result Graph)
    (db : Graph) (package : ExtractionPackage) : Graph * option exn :=
  match work db package with
  | Ok db' => (db', None)
  | Raise e => (db, Some e)
  end.

Definition ingest_product_package (db : Graph) (package : ExtractionPackage)
    : Graph * option exn :=
  execute_write _tx_ingest_product_package db package.

Definition ingest_branch_package (db : Graph) (package : ExtractionPackage)
    : Graph * option exn :=
  execute_write _tx_ingest_branch_package db package.
End Ingestor.

(* ===================================================================== *)
(** ** What grounding may do to a tree *)
(* ===================================================================== *)

Definition is_model (v : pyobj) : bool :=
  match v with OModel _ => true | _ => false end.

(** A claim the oracle can be asked about: both halves present and
    non-empty. *)
Definition usable (f : ProvableFact) : Prop :=
  falsy_str (value f) = false ∧ falsy_str (evidence f) = false.

(** [pruned v v']: [v'] is the attribute value [v] after a grounding pass.
    Names, nesting and list lengths are kept; a claim is either kept as it
    is, which takes a usable claim, or has become [None]; nothing else
    changes.  List items that are not models are not walked. *)
#[local] Unset Elimination Schemes.
Inductive pruned : pyobj → pyobj → Prop :=
  | pruned_atom a : pruned (OAtom a) (OAtom a)
  | pruned_enum tag : pruned (OEnum tag) (OEnum tag)
  | pruned_kept f : usable f → pruned (OFact f) (OFact f)
  | pruned_removed f : pruned (OFact f) ONone
  | pruned_model fields fields' :
      Forall2 (λ kv kv', kv.1 = kv'.1 ∧ pruned kv.2 kv'.2) fields fields' →
      pruned (OModel fields) (OModel fields')
  | pruned_list items items' :
      Forall2 (λ item item',
                 (is_model item = true ∧ pruned item item') ∨
                 (is_model item = false ∧ item' = item)) items items' →
      pruned (OList items) (OList items').
#[local] Set Elimination Schemes.

(** Every question of the log asks about a non-empty value with a
    non-empty evidence. *)
Definition well_asked (questions : list (string * string)) : Prop :=
  Forall (λ q, q.1 ≠ "" ∧ q.2 ≠ "") questions.

(* ===================================================================== *)
(** ** Sequential use of the store *)
(* ===================================================================== *)

(** The relationship properties the corroborator writes: the caller's
    dictionary after the three assignments
    [new_rel_props['retrieved_at']], [['trust_score']] and [['is_active']]. *)
Definition stamped (new_rel_props : Props) (meta : ProvenanceModel)
    (active : bool) : Props :=
  <["is_active" := PBool active]>
    (<["trust_score" := PFloat (trust_score meta)]>
       (<["retrieved_at" := PTime (retrieved_at meta)]> new_rel_props)).

(** A relationship that competes with an assertion by [source_url] about
    the entity [(label {key: key_value})]: it leaves a node of the entity,
    is active, and goes to another source. *)
Definition competing (tx : Graph) (label : Label) (key key_value : string)
    (source_url : string) (i : nat) (u : string) (r : Props) : Prop :=
  from_source tx !! (i, u) = Some r ∧
  is_matched tx label key key_value i = true ∧
  is_active r = true ∧
  u ≠ source_url.

(** The [FROM_SOURCE] relationships of node [i] that are active. *)
Definition active_edges (tx : Graph) (i : nat) : list (nat * string * Props) :=
  filter (λ kr, bool_decide (kr.1.1 = i) && is_active kr.2)
         (map_to_list (from_source tx)).

Definition at_most_one_active (tx : Graph) (i : nat) : Prop :=
  length (active_edges tx i) ≤ 1.

(** The two operations on the store, each run as a transaction of its own
    (as [ingest_fake_data] runs them): when the corroborator raises, its
    transaction is rolled back and the store stays as it was. *)
Inductive op :=
  | Corroborate (node_label : Label) (node_key node_key_value : string)
                (new_node_props new_rel_props : Props) (meta : ProvenanceModel)
  | MarkStale (labels : list Label) (source_url : string).

Definition step (tx : Graph) (o : op) : Graph :=
  match o with
  | Corroborate node_label node_key node_key_value new_node_props
                new_rel_props meta =>
      match _tx_corroborate_and_ingest tx node_label node_key node_key_value
              new_node_props new_rel_props meta with
      | Ok (_, tx') => tx'
      | Raise _ => tx
      end
  | MarkStale labels source_url => mark_stale labels source_url tx
  end.

(** The store at every quiescent point of a sequential run: before the
    first operation and after each one. *)
Fixpoint trace (tx : Graph) (ops : list op) : list Graph :=
  match ops with
  | [] => [tx]
  | o :: rest => tx :: trace (step tx o) rest
  end.

(** The store after the two MERGE statements that open every
    corroboration. *)
Definition merged (label : Label) (key key_value : string)
    (meta : ProvenanceModel) (tx : Graph) : Graph :=
  merge_node label key key_value (merge_source (url meta) tx).

(** [g'] is [g] after some more questions, all well asked. *)
Definition extends {World} (g g' : GState World) : Prop :=
  ∃ questions, asked g' = asked g ++ questions ∧ well_asked questions.

(* ===================================================================== *)
(** ** Sample stores and packages *)
(* ===================================================================== *)

(** A store in which source [A] holds the active assertion of product [X],
    and a run on it: source [B] asserts [X] with a newer timestamp, then
    sweeps its own assertions, then [A] asserts [X] again. *)
Definition sample_meta (u : string) (t : Z) (trust : Q) : ProvenanceModel :=
  {| url := u; retrieved_at := t; trust_score := trust |}.

Definition sample_store : Graph :=
  step empty_graph
    (Corroborate Product "name" "X" {["name" := PStr "X"]} ∅
       (sample_meta "A" 10 (9 # 10))).

Definition sample_run : list op :=
  [ Corroborate Product "name" "X" {["name" := PStr "X"]} ∅
      (sample_meta "B" 20 (1 # 10));
    MarkStale [Product; Condition; FAQ] "B";
    Corroborate Product "name" "X" {["name" := PStr "X"]} ∅
      (sample_meta "A" 30 (9 # 10)) ].

(** Source [A] holds active assertions of the products [X] and [Y], source
    [B] an inactive one of [X]; [A]'s sweep over the product labels flips
    [A]'s two relationships and leaves [B]'s alone. *)
Definition stale_store : Graph :=
  foldl step empty_graph
    [ Corroborate Product "name" "X" {["name" := PStr "X"]} ∅
        (sample_meta "A" 10 (9 # 10));
      Corroborate Product "name" "Y" {["name" := PStr "Y"]} ∅
        (sample_meta "A" 10 (9 # 10));
      Corroborate Product "name" "X" {["name" := PStr "X"]} ∅
        (sample_meta "B" 5 (1 # 10)) ].

(** A corrupted store: product [X] with active assertions from both [A]
    and [B]. *)
Definition corrupted_store : Graph :=
  {| nodes := [{| n_label := Product; n_props := {["name" := PStr "X"]} |}];
     sources := {["A"; "B"]};
     from_source :=
       {[ (0, "A") := stored (stamped ∅ (sample_meta "A" 10 (9 # 10)) true);
          (0, "B") := stored (stamped ∅ (sample_meta "B" 10 (5 # 10)) true) ]};
     links := ∅ |}.

(** The claim [{value: "2.5%", evidence: ""}] is removed, here under an
    oracle that would say yes to everything. *)
Definition yes_oracle (w : unit) (fact evid : string) : bool * unit := (true, w).

Definition unsupported_rate : ProvableFact :=
  {| value := Some "2.5%"; evidence := Some "" |}.

(** A condition whose [interest_rate] claim did not survive grounding. *)
Definition nulled_condition : pyobj :=
  ConditionModel (OFact {| value := Some "Savings Bond"; evidence := Some "x" |})
    (OAtom (PInt 5000)) (OAtom (PInt 49999)) (OAtom (PInt 6)) ONone.

(** A package from source [A] whose product name claim cites no evidence,
    after grounding: the name is gone. *)
Definition nameless_package : ExtractionPackage :=
  (ground_package yes_oracle
     {| metadata := sample_meta "A" 20 (9 # 10);
        data := KnowledgeGraphData
                  (ProductModel (OFact {| value := Some "X"; evidence := Some "" |})
                                ONone)
                  (ProductTypeModel (OEnum "InterestProduct"))
                  (RiskClassModel (OEnum "1"))
                  ONone ONone |}
     {| world := (); asked := [] |}).1.

(** The sample stores after source [B] asserted product [X] with a newer
    timestamp, and won. *)
Definition sample_won : Graph :=
  step sample_store
    (Corroborate Product "name" "X"
       {["name" := PStr "X"; "description" := PStr "new"]} ∅
       (sample_meta "B" 20 (1 # 10))).

Definition stale_won : Graph :=
  step stale_store
    (Corroborate Product "name" "X" {["name" := PStr "X"]} ∅
       (sample_meta "B" 20 (1 # 10))).

(** Two batches of a branch page from source [A]: the first names the
    employees [X] and [Y], the second only [X]. *)
Definition sample_fact (v : string) : pyobj :=
  OFact {| value := Some v; evidence := Some ("... " +:+ v +:+ " ...") |}.

Definition sample_employee (name : string) : pyobj :=
  EmployeeModel (sample_fact name) ONone ONone (OEnum "Advisor").

Definition branch_batch (t : Z) (employees : list pyobj) : ExtractionPackage :=
  {| metadata := sample_meta "A" t (9 # 10);
     data := BranchData (BranchModel (sample_fact "Soltau") ONone
                           (OList employees)) |}.

Definition after_batch_1 : Graph :=
  (ingest_branch_package empty_graph
     (branch_batch 10 [sample_employee "X"; sample_employee "Y"])).1.

Definition after_batch_2 : Graph :=
  (ingest_branch_package after_batch_1
     (branch_batch 20 [sample_employee "X"])).1.

(** A product page with one usable condition and one without a rate. *)
Definition product_page : ExtractionPackage :=
  {| metadata := sample_meta "A" 10 (9 # 10);
     data := KnowledgeGraphData
               (ProductModel (sample_fact "Sparbrief") ONone)
               (ProductTypeModel (OEnum "InterestProduct"))
               (RiskClassModel (OEnum "1"))
               (OList [ConditionModel ONone (OAtom (PInt 5000)) ONone
                         (OAtom (PInt 6)) (sample_fact "2.5%");
                       nulled_condition])
               ONone |}.

(* ===================================================================== *)
(** ** config.py: trust scores *)
(* ===================================================================== *)

(** [SOURCE_TRUST_SCORES], in the order the dictionary literal lists its
    items (the order [.items()] yields them). *)
Definition SOURCE_TRUST_SCORES : list (string * Q) :=
  [("https://www.vblh.de/", 9 # 10)%Q; ("https://intern.vblh.de/", 95 # 100)%Q].

Definition TARGET_URLS : list string :=
  ["https://www.vblh.de/privatkunden/geldanlage/sparbrief.html";
   "https://www.vblh.de/privatkunden/geldanlage/tagesgeld.html"].

Definition FILIAL_URLS : list string :=
  ["https://www.vblh.de/ueber-uns/filialen/bispingen.html";
   "https://www.vblh.de/ueber-uns/filialen/soltau.html"].

(** The loop of [get_trust_score] over a table: the score of the first
    domain the url starts with, [0.5] when there is none. *)
Fixpoint get_trust_score_from (table : list (string * Q)) (url : string) : Q :=
  match table with
  | [] => (5 # 10)%Q
  | (domain, score) :: rest =>
      if String.prefix domain url then score
      else get_trust_score_from rest url
  end.

Definition get_trust_score (url : string) : Q :=
  get_trust_score_from SOURCE_TRUST_SCORES url.

(* ===================================================================== *)
(** ** 4.5 Inference *)
(* ===================================================================== *)

(** [(i:label)] *)
Definition node_has_label (db : Graph) (label : Label) (i : nat) : bool :=
  match nodes db !! i with
  | Some n => bool_decide (n_label n = label)
  | None => false
  end.

(** [(i)-[r:FROM_SOURCE]->() WHERE r.is_active = true] has a row. *)
Definition has_active_assertion (db : Graph) (i : nat) : bool :=
  bool_decide (Exists (λ kr : nat * string * Props,
                         kr.1.1 = i ∧ is_active kr.2 = true)
                      (map_to_list (from_source db))).

(** [(i)-[:rel]->(:label {key: key_value})] has a row. *)
Definition linked_to (db : Graph) (i : nat) (rel : string) (label : Label)
    (key key_value : string) : bool :=
  bool_decide (Exists (λ l : nat * string * nat,
                         l.1.1 = i ∧ l.1.2 = rel ∧
                         is_matched db label key key_value l.2 = true)
                      (elements (links db))).

(** [MATCH ()-[r:rel]->() DETACH DELETE r] *)
Definition delete_links (rel : string) (db : Graph) : Graph :=
  {| nodes := nodes db;
     sources := sources db;
     from_source := from_source db;
     links := filter (λ l : nat * string * nat, l.1.2 ≠ rel) (links db) |}.

(** The rows of
    [MATCH (m:label)-[r:FROM_SOURCE]->() WHERE r.is_active = true
     MATCH (m)-[:rel]->(:kind {name: kind_name})], as node ids. *)
Definition active_of_kind (db : Graph) (label : Label) (rel : string)
    (kind : Label) (kind_name : string) : list nat :=
  filter (λ i, node_has_label db label i && has_active_assertion db i &&
               linked_to db i rel kind "name" kind_name)
         (seq 0 (length (nodes db))).

(** [create_inferred_relationships]: all [ADVISES_ON] relationships are
    deleted, then one is merged from every active advisor to every active
    interest product.  The count the query returns is only printed. *)
Definition create_inferred_relationships (db : Graph) : Graph :=
  let db := delete_links "ADVISES_ON" db in
  add_links "ADVISES_ON"
    (active_of_kind db Employee "HAS_ROLE_TYPE" RoleType "Advisor")
    (active_of_kind db Product "HAS_PRODUCT_TYPE" ProductType "InterestProduct")
    db.

(* ===================================================================== *)
(** ** Helpers: clearing the database and the fake condition *)
(* ===================================================================== *)

(** [MATCH (n) DETACH DELETE n] *)
Definition clear_database (db : Graph) : Graph := empty_graph.

Definition fake_url : string := "https://intern.vblh.de/sparbrief".
(** [datetime.fromisoformat("2025-10-02T15:24:42.019052")], in
    microseconds since 1970-01-01T00:00:00. *)
Definition fake_time : Z := 1759418682019052.
Definition fake_key : string := "Volksbank Sparbrief_5000_6".
Definition fake_product_name : string := "Volksbank Sparbrief".

Definition fake_meta : ProvenanceModel :=
  {| url := fake_url; retrieved_at := fake_time;
     trust_score := get_trust_score fake_url |}.

Definition fake_condition : pyobj :=
  ConditionModel
    (OFact {| value := Some "Savings Bond"; evidence := Some "Fake Entry" |})
    (OAtom (PInt 5000)) (OAtom (PInt 49999)) (OAtom (PInt 6))
    (OFact {| value := Some "2.50%";
              evidence := Some "Fake Entry: 2.50% (internal)" |}).

(** [ingest_fake_data].  The three statements run in transactions of their
    own: the staleness check is committed at once; when the corroborator
    raises, its transaction is rolled back, the [except] clause prints the
    error and the link is not merged. *)
Definition ingest_fake_data (db : Graph) : Graph :=
  match
    node_props ← get_node_props fake_condition;
    rel_props ← get_rel_props fake_condition;
    Ok (<["key" := PStr fake_key]> node_props, rel_props)
  with
  | Raise _ => db
  | Ok (node_props, rel_props) =>
      let db := mark_stale [Condition] fake_url db in
      match _tx_corroborate_and_ingest db Condition "key" fake_key
              node_props rel_props fake_meta with
      | Raise _ => db
      | Ok (_, db) =>
          match_link Product "name" fake_product_name Condition "key" fake_key
            "HAS_CONDITION" db
      end
  end.

(* ===================================================================== *)
(** ** main.py: the whole run *)
(* ===================================================================== *)

(** The schema class handed to the extractor. *)
Inductive Schema := KnowledgeGraphDataSchema | BranchDataSchema.

Section Run.
(** The crawler, the extractor, the clock and the verification oracle are
    outside the program: questions to a world that each call may change.
    [get_webpage_content] gives [None] when the request fails,
    [extract_structured_data] gives [None] when the model's answer cannot
    be used. *)
Context {World : Type}.
Variable ask : World → string → string → bool * World.
Variable get_webpage_content : World → string → option string * World.
Variable extract_structured_data : World → string → Schema → option pyobj * World.
Variable now : World → Z * World.
Variable str_other : pyobj → string.

Definition in_world {A} (call : World → A * World) (g : GState World)
    : A * GState World :=
  let '(a, w) := call (world g) in
  (a, {| world := w; asked := asked g |}).

(** The body of both loops of [run_ingestion]: fetch, extract, stamp the
    provenance, ground, ingest.  An exception of the ingestor is not
    caught. *)
Definition process_url (schema : Schema)
    (ingest : Graph → ExtractionPackage → Graph * option exn)
    (page_url : string) (db : Graph) (g : GState World)
    : Graph * option exn * GState World :=
  let '(webpage_text, g) := in_world (λ w, get_webpage_content w page_url) g in
  match webpage_text with
  | None => (db, None, g)
  | Some text =>
      if bool_decide (text = "") then (db, None, g) else
      let '(llm_data, g) :=
        in_world (λ w, extract_structured_data w text schema) g in
      match llm_data with
      | None => (db, None, g)
      | Some llm_data =>
          if truthy llm_data then
            let '(retrieved, g) := in_world now g in
            let provenance :=
              {| url := page_url; retrieved_at := retrieved;
                 trust_score := get_trust_score page_url |} in
            let package := {| metadata := provenance; data := llm_data |} in
            let '(grounded_package, g) := ground_package ask package g in
            (ingest db grounded_package, g)
          else (db, None, g)
      end
  end.

(** [for url in urls: ...], left as soon as a turn raises. *)
Definition for_urls
    (turn : string → Graph → GState World → Graph * option exn * GState World)
    : list string → Graph → GState World → Graph * option exn * GState World :=
  fix go urls db g :=
    match urls with
    | [] => (db, None, g)
    | page_url :: rest =>
        let '(db, e, g) := turn page_url db g in
        match e with
        | Some _ => (db, e, g)
        | None => go rest db g
        end
    end.

Definition run_ingestion (db : Graph) (g : GState World)
    : Graph * option exn * GState World :=
  let db := clear_database db in
  let '(db, e, g) :=
    for_urls (process_url KnowledgeGraphDataSchema
                (ingest_product_package str_other)) TARGET_URLS db g in
  match e with
  | Some _ => (db, e, g)
  | None =>
      let db := ingest_fake_data db in
      let '(db, e, g) :=
        for_urls (process_url BranchDataSchema ingest_branch_package)
                 FILIAL_URLS db g in
      match e with
      | Some _ => (db, e, g)
      | None => (create_inferred_relationships db, None, g)
      end
  end.
End Run.

(* ===================================================================== *)
(** ** Vocabulary of the further properties *)
(* ===================================================================== *)

(** Every relationship carries a timestamp and a trust score of the types
    the corroborator writes. *)
Definition has_stamps (r : Props) : bool :=
  match r !! "retrieved_at", r !! "trust_score" with
  | Some (PTime _), Some (PFloat _) => true
  | _, _ => false
  end.

Definition well_stamped (tx : Graph) : Prop :=
  map_Forall (λ _ r, has_stamps r = true) (from_source tx).

(** A store with a relationship that was not written by the corroborator:
    active, and without timestamp and trust score. *)
Definition unstamped_store : Graph :=
  {| nodes := [{| n_label := Product; n_props := {["name" := PStr "X"]} |}];
     sources := {["A"]};
     from_source := {[ (0, "A") := {["is_active" := PBool true]} ]};
     links := ∅ |}.

(** Nothing was deleted on the way from [tx] to [tx']: every node is still
    there under its label, and so is every source, every [FROM_SOURCE]
    relationship and every other relationship. *)
Definition grows (tx tx' : Graph) : Prop :=
  (∀ i n, nodes tx !! i = Some n →
          ∃ n', nodes tx' !! i = Some n' ∧ n_label n' = n_label n) ∧
  sources tx ⊆ sources tx' ∧
  (∀ k, is_Some (from_source tx !! k) → is_Some (from_source tx' !! k)) ∧
  links tx ⊆ links tx'.

#[export] Instance usable_dec (f : ProvableFact) : Decision (usable f).
Proof. unfold usable. apply _. Defined.

(** The claims a grounding pass comes by, in the order it does. *)
Fixpoint walked_facts (v : pyobj) : list ProvableFact :=
  match v with
  | OAtom _ | OEnum _ => []
  | OFact f => [f]
  | OModel fields => flat_map (λ kv, walked_facts kv.2) fields
  | OList items =>
      flat_map (λ item, match item with
                        | OModel _ => walked_facts item
                        | _ => []
                        end) items
  end.

Definition question_of (f : ProvableFact) : string * string :=
  (default "" (value f), default "" (evidence f)).

Definition questions_of (v : pyobj) : list (string * string) :=
  question_of <$> filter usable (walked_facts v).

(** An oracle whose answer depends on the question only. *)
Definition pure_oracle {World} (verify : string → string → bool)
    (w : World) (fact evid : string) : bool * World :=
  (verify fact evid, w).

(** A claim a pure oracle approves of. *)
Definition approved (verify : string → string → bool) (f : ProvableFact)
    : Prop :=
  usable f ∧ verify (question_of f).1 (question_of f).2 = true.

(** A claim field as the extractor fills it: absent or a [ProvableFact];
    and as grounding leaves it: absent, or a claim with a value. *)
Definition fact_or_none (v : pyobj) : Prop :=
  v = ONone ∨ ∃ f, v = OFact f.

Definition claim_or_none (v : pyobj) : Prop :=
  v = ONone ∨ ∃ s e, v = OFact {| value := Some s; evidence := e |}.

(** [Optional[List[T]]] *)
Definition optional_list (P : pyobj → Prop) (v : pyobj) : Prop :=
  v = ONone ∨ ∃ items, v = OList items ∧ Forall P items.

(** The trees of the two schemas, as far as the ingestors depend on their
    shape; [C] says what the key claim of an entity may be. *)
Definition typed_condition (c : pyobj) : Prop :=
  c = ONone ∨ ∃ type min_amount max_amount term_years interest_rate,
    c = ConditionModel type min_amount max_amount term_years interest_rate.

Definition typed_faq (C : pyobj → Prop) (faq : pyobj) : Prop :=
  faq = ONone ∨ ∃ question answer,
    faq = FAQModel question answer ∧ C question.

Definition typed_employee (C : pyobj → Prop) (employee : pyobj) : Prop :=
  employee = ONone ∨ ∃ name email phone role,
    employee = EmployeeModel name email phone (OEnum role) ∧ C name.

Definition typed_product_data (C : pyobj → Prop) (d : pyobj) : Prop :=
  ∃ name description type_tag risk_tag conditions faqs,
    d = KnowledgeGraphData (ProductModel name description)
          (ProductTypeModel (OEnum type_tag)) (RiskClassModel (OEnum risk_tag))
          conditions faqs ∧
    C name ∧
    optional_list typed_condition conditions ∧
    optional_list (typed_faq C) faqs.

Definition typed_branch_data (C : pyobj → Prop) (d : pyobj) : Prop :=
  ∃ name address employees,
    d = BranchData (BranchModel name address employees) ∧
    C name ∧
    optional_list (typed_employee C) employees.





(** Node [i] has an active assertion: the rows of
    [(i)-[r:FROM_SOURCE]->() WHERE r.is_active = true]. *)
Definition actively_asserted (db : Graph) (i : nat) : Prop :=
  ∃ u r, from_source db !! (i, u) = Some r ∧ is_active r = true.

(** Node [i] is an actively asserted [label] classified as [kind_name]. *)
Definition of_kind (db : Graph) (label : Label) (rel : string) (kind : Label)
    (kind_name : string) (i : nat) : Prop :=
  node_has_label db label i = true ∧
  actively_asserted db i ∧
  ∃ k, (i, rel, k) ∈ links db ∧ is_matched db kind "name" kind_name k = true.

(** The assertions of the source of [meta] that are active on nodes of
    [labels] all carry the stamp of [meta]. *)
Definition renewed (labels : list Label) (meta : ProvenanceModel)
    (tx : Graph) : Prop :=
  ∀ i r, from_source tx !! (i, url meta) = Some r → is_active r = true →
         has_label tx labels i = true →
         r !! "retrieved_at" = Some (PTime (retrieved_at meta)) ∧
         r !! "trust_score" = Some (PFloat (trust_score meta)).

(** Node [i] is the node [n] and has no active assertion. *)
Definition silent (tx : Graph) (i : nat) (n : Node) : Prop :=
  nodes tx !! i = Some n ∧
  ∀ u r, from_source tx !! (i, u) = Some r → is_active r = false.

(** The entity [e] is named [v]: [e.name.value == v]. *)
Definition names (e : pyobj) (v : string) : Prop :=
  ∃ name, getattr e "name" = Ok name ∧
          getattr name "value" = Ok (OAtom (PStr v)).

(* ===================================================================== *)
(** * Properties *)
(* ===================================================================== *)

(** Structural induction on the attribute tree, through both lists. *)
Lemma pyobj_tree_ind (P : pyobj → Prop) :
  (∀ a, P (OAtom a)) →
  (∀ tag, P (OEnum tag)) →
  (∀ f, P (OFact f)) →
  (∀ fields, Forall (λ kv, P kv.2) fields → P (OModel fields)) →
  (∀ items, Forall P items → P (OList items)) →
  ∀ v, P v.
Proof.
  intros Hatom Henum Hfact Hmodel Hlist.
  fix IH 1. intros [a|tag|f|fields|items].
  - apply Hatom.
  - apply Henum.
  - apply Hfact.
  - apply Hmodel. induction fields as [|[k v] fields IHf]; constructor.
    + apply IH.
    + exact IHf.
  - apply Hlist. induction items as [|v items IHi]; constructor.
    + apply IH.
    + exact IHi.
Qed.


(** ** Property dictionaries and statements of the graph *)

Lemma Is_true_true (b : bool) : Is_true b ↔ b = true.
Proof. destruct b; simpl; intuition congruence. Qed.

Lemma stored_lookup (props : Props) (k : string) :
  stored props !! k =
    match props !! k with
    | Some PNull => None
    | o => o
    end.
Proof.
  unfold stored. destruct (props !! k) as [v|] eqn:Hk.
  - destruct (is_null v) eqn:Hv.
    + destruct v; try discriminate. apply map_lookup_filter_None. right.
      intros x Hx. simpl. rewrite Hk in Hx. by injection Hx as <-.
    + transitivity (Some v); [|by destruct v].
      apply map_lookup_filter_Some. by split.
  - apply map_lookup_filter_None. by left.
Qed.

Lemma is_active_deactivate (r : Props) : is_active (deactivate r) = false.
Proof. unfold is_active, deactivate. by rewrite lookup_insert_eq. Qed.

Lemma is_active_stored_insert (p : Props) (b : bool) :
  is_active (stored (<["is_active" := PBool b]> p)) = b.
Proof.
  unfold is_active. rewrite stored_lookup, lookup_insert_eq. by destruct b.
Qed.

Lemma deactivate_lookup_ne (r : Props) (k : string) :
  k ≠ "is_active" → deactivate r !! k = r !! k.
Proof. intros Hk. unfold deactivate. by rewrite lookup_insert_ne. Qed.

Lemma elem_of_match_ids tx label key key_value i :
  i ∈ match_ids tx label key key_value ↔
  is_matched tx label key key_value i = true.
Proof.
  unfold match_ids. rewrite list_elem_of_filter, Is_true_true, elem_of_seq.
  split; [tauto|]. intros Hm. split; [done|].
  unfold is_matched in Hm. destruct (nodes tx !! i) eqn:Hi; [|done].
  apply lookup_lt_Some in Hi. lia.
Qed.

Lemma match_ids_nil tx label key key_value :
  match_ids tx label key key_value = [] ↔
  ∀ i, is_matched tx label key key_value i = false.
Proof.
  split.
  - intros Hnil i. destruct (is_matched tx label key key_value i) eqn:Hm; [|done].
    apply elem_of_match_ids in Hm. rewrite Hnil in Hm. by apply elem_of_nil in Hm.
  - intros Hno. destruct (match_ids tx label key key_value) as [|i l] eqn:Hl; [done|].
    assert (i ∈ match_ids tx label key key_value) as Hi by (rewrite Hl; left).
    apply elem_of_match_ids in Hi. by rewrite Hno in Hi.
Qed.

Lemma from_source_set_node_and_deactivate label key key_value node_props tx k :
  from_source (set_node_and_deactivate label key key_value node_props tx) !! k =
    (λ r, if is_matched tx label key key_value k.1 && is_active r
          then deactivate r else r) <$> from_source tx !! k.
Proof.
  unfold set_node_and_deactivate. simpl. rewrite map_lookup_imap.
  by destruct (from_source tx !! k).
Qed.

Lemma from_source_mark_stale labels u tx k :
  from_source (mark_stale labels u tx) !! k =
    (λ r, if has_label tx labels k.1 && is_active r && bool_decide (k.2 = u)
          then deactivate r else r) <$> from_source tx !! k.
Proof.
  unfold mark_stale. simpl. rewrite map_lookup_imap.
  by destruct (from_source tx !! k).
Qed.

Lemma foldr_insert_lookup (ids : list nat) (u : string) (p : Props)
    (m : gmap (nat * string) Props) (k : nat * string) :
  foldr (λ i m, <[(i, u) := p]> m) m ids !! k =
    if bool_decide (k.1 ∈ ids) && bool_decide (k.2 = u)
    then Some p else m !! k.
Proof.
  induction ids as [|i ids IH].
  - rewrite (bool_decide_eq_false_2 (k.1 ∈ [])); [done|]. apply not_elem_of_nil.
  - change (foldr _ m (i :: ids)) with
      (<[(i, u) := p]> (foldr (λ i m, <[(i, u) := p]> m) m ids)).
    destruct (decide (k = (i, u))) as [->|Hne].
    + rewrite lookup_insert_eq.
      rewrite (bool_decide_eq_true_2 ((i, u).1 ∈ i :: ids)) by left.
      by rewrite (bool_decide_eq_true_2 ((i, u).2 = u)).
    + rewrite lookup_insert_ne by done. rewrite IH.
      destruct (bool_decide (k.2 = u)) eqn:Hu.
      * rewrite !andb_true_r. apply bool_decide_eq_true in Hu.
        assert (k.1 ≠ i) by (intros Hk; apply Hne; destruct k; simpl in *; congruence).
        destruct (decide (k.1 ∈ ids)).
        -- rewrite (bool_decide_eq_true_2 (k.1 ∈ ids)) by done.
           by rewrite (bool_decide_eq_true_2 (k.1 ∈ i :: ids)) by by right.
        -- rewrite (bool_decide_eq_false_2 (k.1 ∈ ids)) by done.
           rewrite (bool_decide_eq_false_2 (k.1 ∈ i :: ids)); [done|].
           rewrite elem_of_cons. tauto.
      * by rewrite !andb_false_r.
Qed.

Lemma from_source_merge_from_source label key key_value u rel_props tx k :
  from_source (merge_from_source label key key_value u rel_props tx) !! k =
    if bool_decide (u ∈ sources tx) && is_matched tx label key key_value k.1 &&
       bool_decide (k.2 = u)
    then Some (stored rel_props) else from_source tx !! k.
Proof.
  unfold merge_from_source. destruct (bool_decide (u ∈ sources tx)); [|done].
  simpl. rewrite foldr_insert_lookup.
  destruct (is_matched tx label key key_value k.1) eqn:Hm.
  - rewrite bool_decide_eq_true_2; [done|]. by apply elem_of_match_ids.
  - rewrite bool_decide_eq_false_2; [done|].
    rewrite elem_of_match_ids. congruence.
Qed.

Lemma nodes_merge_from_source label key key_value u rel_props tx :
  nodes (merge_from_source label key key_value u rel_props tx) = nodes tx.
Proof. unfold merge_from_source. by destruct (bool_decide _). Qed.

Lemma sources_merge_from_source label key key_value u rel_props tx :
  sources (merge_from_source label key key_value u rel_props tx) = sources tx.
Proof. unfold merge_from_source. by destruct (bool_decide _). Qed.

Lemma links_merge_from_source label key key_value u rel_props tx :
  links (merge_from_source label key key_value u rel_props tx) = links tx.
Proof. unfold merge_from_source. by destruct (bool_decide _). Qed.

Lemma from_source_merge_node label key key_value tx :
  from_source (merge_node label key key_value tx) = from_source tx.
Proof. unfold merge_node. by destruct (match_ids _ _ _ _). Qed.

Lemma sources_merge_node label key key_value tx :
  sources (merge_node label key key_value tx) = sources tx.
Proof. unfold merge_node. by destruct (match_ids _ _ _ _). Qed.

Lemma links_merge_node label key key_value tx :
  links (merge_node label key key_value tx) = links tx.
Proof. unfold merge_node. by destruct (match_ids _ _ _ _). Qed.

(** ** The corroborator, step by step *)

(** Whatever the outcome, the database a returning corroborator leaves is
    the one its statements build in order. *)
Lemma corroborate_inv tx label key key_value node_props rel_props meta w tx' :
  _tx_corroborate_and_ingest tx label key key_value node_props rel_props meta
    = Ok (w, tx') →
  let txm := merge_node label key key_value (merge_source (url meta) tx) in
  tx' = merge_from_source label key key_value (url meta)
          (stamped rel_props meta w)
          (if w then set_node_and_deactivate label key key_value node_props txm
           else txm).
Proof.
  unfold _tx_corroborate_and_ingest.
  destruct (single false _) as [old_fact|e]; [|done]. simpl.
  set (decision := match old_fact with None => _ | Some _ => _ end).
  destruct decision as [[]|e]; simpl; intros [= <- <-]; done.
Qed.

(** At most one active relationship, said with lookups. *)
Lemma at_most_one_active_lookup tx i :
  at_most_one_active tx i ↔
  ∀ u1 u2 r1 r2,
    from_source tx !! (i, u1) = Some r1 → from_source tx !! (i, u2) = Some r2 →
    is_active r1 = true → is_active r2 = true → u1 = u2.
Proof.
  unfold at_most_one_active, active_edges.
  set (P := λ kr : nat * string * Props, Is_true (bool_decide (kr.1.1 = i) && is_active kr.2)).
  assert (Hin : ∀ u r, (i, u, r) ∈ filter P (map_to_list (from_source tx)) ↔
                       from_source tx !! (i, u) = Some r ∧ is_active r = true).
  { intros u r. rewrite list_elem_of_filter, elem_of_map_to_list. unfold P.
    simpl. rewrite bool_decide_eq_true_2 by done. simpl.
    rewrite Is_true_true. tauto. }
  assert (Hkey : ∀ kr, kr ∈ filter P (map_to_list (from_source tx)) → kr.1.1 = i).
  { intros [[j u] r]. rewrite list_elem_of_filter. unfold P. simpl.
    intros [Hp _]. apply andb_prop_elim in Hp as [Hp _].
    by apply bool_decide_unpack in Hp. }
  split.
  - intros Hlen u1 u2 r1 r2 H1 H2 Ha1 Ha2.
    assert (E1 : (i, u1, r1) ∈ filter P (map_to_list (from_source tx))) by by apply Hin.
    assert (E2 : (i, u2, r2) ∈ filter P (map_to_list (from_source tx))) by by apply Hin.
    destruct (filter P (map_to_list (from_source tx))) as [|x [|y l]].
    + by apply elem_of_nil in E1.
    + apply list_elem_of_singleton in E1, E2. congruence.
    + simpl in Hlen. lia.
  - intros Huniq.
    assert (Hnd : NoDup (filter P (map_to_list (from_source tx))))
      by apply NoDup_filter, NoDup_map_to_list.
    destruct (filter P (map_to_list (from_source tx))) as [|x [|y l]] eqn:Hl;
      [simpl; lia..|].
    exfalso. apply NoDup_cons in Hnd as [Hx _]. apply Hx.
    destruct x as [[j1 u1] r1], y as [[j2 u2] r2].
    assert (j1 = i) as -> by (apply (Hkey (j1, u1, r1)); left).
    assert (j2 = i) as -> by (apply (Hkey (j2, u2, r2)); right; left).
    assert (E1 : (i, u1, r1) ∈ (i, u1, r1) :: (i, u2, r2) :: l) by left.
    assert (E2 : (i, u2, r2) ∈ (i, u1, r1) :: (i, u2, r2) :: l) by (right; left).
    apply Hin in E1 as [H1 Ha1]. apply Hin in E2 as [H2 Ha2].
    assert (u1 = u2) as -> by eauto.
    assert (r1 = r2) as -> by congruence. left.
Qed.

Lemma is_matched_set_node label key key_value node_props tx i :
  is_matched (set_node_and_deactivate label key key_value node_props tx)
             label key key_value i = true →
  is_matched tx label key key_value i = true.
Proof.
  unfold is_matched, set_node_and_deactivate. simpl.
  rewrite list_lookup_fmap. destruct (nodes tx !! i) as [n|]; simpl; [|done].
  destruct (node_matches label key key_value n) eqn:Hn; [done|].
  intros Hn'. congruence.
Qed.

(** When the new properties carry the key, the matched nodes stay matched
    after [SET n = $node_props]. *)
Lemma is_matched_set_node_keyed label key key_value node_props tx i :
  node_props !! key = Some (PStr key_value) →
  is_matched (set_node_and_deactivate label key key_value node_props tx)
             label key key_value i
  = is_matched tx label key key_value i.
Proof.
  intros Hkey. unfold is_matched, set_node_and_deactivate. simpl.
  rewrite list_lookup_fmap. destruct (nodes tx !! i) as [n|]; simpl; [|done].
  destruct (node_matches label key key_value n) eqn:Hn; [|done].
  unfold node_matches in *. simpl. rewrite stored_lookup, Hkey.
  apply andb_true_iff in Hn as [-> _]. simpl. by apply bool_decide_eq_true_2.
Qed.

(** The dictionary lookups the invariant is about, after each operation. *)
Lemma corroborate_won_lookup tx label key key_value node_props rel_props meta tx' i u r :
  _tx_corroborate_and_ingest tx label key key_value node_props rel_props meta
    = Ok (true, tx') →
  from_source tx' !! (i, u) = Some r → is_active r = true →
  (u = url meta ∧
   is_matched (merge_node label key key_value (merge_source (url meta) tx))
              label key key_value i = true) ∨
  (from_source tx !! (i, u) = Some r ∧
   is_matched (merge_node label key key_value (merge_source (url meta) tx))
              label key key_value i = false).
Proof.
  intros Hrun%corroborate_inv. simpl in Hrun. subst tx'.
  set (txm := merge_node label key key_value (merge_source (url meta) tx)).
  rewrite from_source_merge_from_source. cbn [fst snd].
  destruct (_ && _ && bool_decide (u = url meta)) eqn:Hnew.
  - intros _ _. left. apply andb_true_iff in Hnew as [Hnew Hu].
    apply andb_true_iff in Hnew as [_ Hm].
    split; [by apply bool_decide_eq_true in Hu|].
    by apply is_matched_set_node in Hm.
  - rewrite from_source_set_node_and_deactivate. cbn [fst snd].
    unfold txm at 2. rewrite from_source_merge_node. cbn [merge_source from_source].
    destruct (from_source tx !! (i, u)) as [r0|]; simpl; [|done].
    destruct (is_matched txm label key key_value i) eqn:Hm; simpl.
    + destruct (is_active r0) eqn:Ha0; intros [= <-]; [|congruence].
      by rewrite is_active_deactivate.
    + intros [= <-] _. by right.
Qed.

Lemma corroborate_lost_lookup tx label key key_value node_props rel_props meta tx' k r :
  _tx_corroborate_and_ingest tx label key key_value node_props rel_props meta
    = Ok (false, tx') →
  from_source tx' !! k = Some r → is_active r = true →
  from_source tx !! k = Some r.
Proof.
  intros Hrun%corroborate_inv. simpl in Hrun. subst tx'.
  rewrite from_source_merge_from_source.
  destruct (_ && _ && bool_decide (k.2 = url meta)).
  - intros [= <-]. unfold stamped. by rewrite is_active_stored_insert.
  - by rewrite from_source_merge_node.
Qed.

Lemma mark_stale_lookup labels u tx k r :
  from_source (mark_stale labels u tx) !! k = Some r → is_active r = true →
  from_source tx !! k = Some r.
Proof.
  rewrite from_source_mark_stale.
  destruct (from_source tx !! k) as [r0|]; simpl; [|done].
  destruct (_ && _ && _); intros [= <-]; [|done].
  by rewrite is_active_deactivate.
Qed.

Lemma step_at_most_one_active tx o i :
  at_most_one_active tx i → at_most_one_active (step tx o) i.
Proof.
  rewrite !at_most_one_active_lookup. intros Hinv u1 u2 r1 r2 H1 H2 Ha1 Ha2.
  destruct o as [label key key_value node_props rel_props meta|labels u];
    cbn [step] in *.
  - destruct (_tx_corroborate_and_ingest _ _ _ _ _ _ _) as [[[] tx']|e] eqn:Hrun;
      [| |by eauto].
    + destruct (corroborate_won_lookup _ _ _ _ _ _ _ _ _ _ _ Hrun H1 Ha1)
        as [[-> Hm1]|[Ho1 Hm1]];
      destruct (corroborate_won_lookup _ _ _ _ _ _ _ _ _ _ _ Hrun H2 Ha2)
        as [[-> Hm2]|[Ho2 Hm2]]; [done|congruence..|by eauto].
    + apply (Hinv u1 u2 r1 r2); [eapply corroborate_lost_lookup..|done|done]; eauto.
  - apply (Hinv u1 u2 r1 r2); [eapply mark_stale_lookup..|done|done]; eauto.
Qed.

(* ===================================================================== *)
(** ** C2: at most one active assertion per entity *)
(* ===================================================================== *)

(** C2. For every entity (node [i]) and every sequence of corroborate and
    markStale operations run one after the other from a store in which at
    most one [FROM_SOURCE] relationship of the entity is active, at most one
    is active at every quiescent point of the run. *)
Theorem at_most_one_active_invariant (tx : Graph) (i : nat) (ops : list op) :
  at_most_one_active tx i →
  Forall (λ tx', at_most_one_active tx' i) (trace tx ops).
Proof.
  revert tx. induction ops as [|o ops IH]; intros tx Hinv.
  - cbn [trace]. constructor; [done|constructor].
  - cbn [trace]. constructor; [done|].
    apply IH. by apply step_at_most_one_active.
Qed.

Lemma at_most_one_active_invariant_witness :
  at_most_one_active sample_store 0 ∧
  Forall (λ tx', at_most_one_active tx' 0) (trace sample_store sample_run).
Proof.
  split.
  - vm_compute. lia.
  - apply (at_most_one_active_invariant sample_store 0 sample_run).
    vm_compute. lia.
Defined.

(* ===================================================================== *)
(** ** C7: the staleness check touches one source's active assertions *)
(* ===================================================================== *)

(** C7. The staleness check for [source_url] over [labels] flips exactly
    the relationships that are active, belong to [source_url] and leave a
    node with one of the labels: each of those keeps its other properties
    and becomes inactive; every other relationship (another source, a node
    outside the labels, or already inactive) is as it was, none is made or
    removed, and nodes, sources and links are untouched. *)
Theorem mark_stale_exact (labels : list Label) (source_url : string) (tx : Graph) :
  let tx' := mark_stale labels source_url tx in
  (∀ i r, from_source tx !! (i, source_url) = Some r →
          has_label tx labels i = true → is_active r = true →
          ∃ r', from_source tx' !! (i, source_url) = Some r' ∧
                is_active r' = false ∧
                ∀ k, k ≠ "is_active" → r' !! k = r !! k) ∧
  (∀ i u, u ≠ source_url → from_source tx' !! (i, u) = from_source tx !! (i, u)) ∧
  (∀ i u, has_label tx labels i = false →
          from_source tx' !! (i, u) = from_source tx !! (i, u)) ∧
  (∀ i u r, from_source tx !! (i, u) = Some r → is_active r = false →
            from_source tx' !! (i, u) = Some r) ∧
  (∀ k, from_source tx !! k = None → from_source tx' !! k = None) ∧
  nodes tx' = nodes tx ∧ sources tx' = sources tx ∧ links tx' = links tx.
Proof.
  intros tx'. subst tx'. repeat split.
  - intros i r Hr Hl Ha. exists (deactivate r).
    rewrite from_source_mark_stale, Hr. cbn [fst snd fmap option_fmap option_map].
    rewrite Hl, Ha, bool_decide_eq_true_2 by done. simpl.
    split; [done|]. split; [apply is_active_deactivate|].
    intros k Hk. by apply deactivate_lookup_ne.
  - intros i u Hu. rewrite from_source_mark_stale. cbn [fst snd].
    rewrite (bool_decide_eq_false_2 (u = source_url)) by done.
    destruct (from_source tx !! (i, u)) as [r|]; [|done].
    cbn [fmap option_fmap option_map]. by rewrite andb_false_r.
  - intros i u Hl. rewrite from_source_mark_stale. cbn [fst snd].
    rewrite Hl. by destruct (from_source tx !! (i, u)).
  - intros i u r Hr Ha. rewrite from_source_mark_stale, Hr.
    cbn [fst snd fmap option_fmap option_map]. by rewrite Ha, andb_false_r.
  - intros k Hk. by rewrite from_source_mark_stale, Hk.
Qed.

Lemma mark_stale_exact_witness :
  ∃ r', from_source (mark_stale [Product; Condition; FAQ] "A" stale_store)
          !! (1, "A") = Some r' ∧ is_active r' = false.
Proof.
  destruct (mark_stale_exact [Product; Condition; FAQ] "A" stale_store)
    as [Hflip _].
  destruct (Hflip 1 (stored (stamped ∅ (sample_meta "A" 10 (9 # 10)) true)))
    as (r' & Hr' & Ha' & _); [reflexivity..|].
  exists r'. by split.
Defined.

(* ===================================================================== *)
(** ** Competing assertions *)
(* ===================================================================== *)

Lemma url_in_merged label key key_value u tx :
  u ∈ sources (merge_node label key key_value (merge_source u tx)).
Proof. rewrite sources_merge_node. simpl. set_solver. Qed.

Lemma url_in_merged_sources label key key_value u tx :
  bool_decide (u ∈ sources (merge_node label key key_value (merge_source u tx)))
  = true.
Proof. apply bool_decide_eq_true_2, url_in_merged. Qed.

Lemma merge_node_matched label key key_value tx i :
  is_matched tx label key key_value i = true →
  merge_node label key key_value tx = tx.
Proof.
  intros Hm%elem_of_match_ids. unfold merge_node.
  destruct (match_ids tx label key key_value); [|done].
  by apply elem_of_nil in Hm.
Qed.

Lemma competes_spec tx label key key_value u i u' r :
  competes tx label key key_value u (i, u', r) ↔
  is_matched tx label key key_value i = true ∧ is_active r = true ∧ u' ≠ u.
Proof.
  unfold competes. cbn [fst snd].
  rewrite !andb_True, negb_True, bool_decide_spec, !Is_true_true. tauto.
Qed.

Lemma elem_of_competitors tx label key key_value u i u' r :
  (i, u', r) ∈ filter (λ kr, competes tx label key key_value u kr)
                      (map_to_list (from_source tx)) ↔
  competing tx label key key_value u i u' r.
Proof.
  rewrite list_elem_of_filter, elem_of_map_to_list, competes_spec.
  unfold competing. tauto.
Qed.

Lemma elem_of_query_find_old tx label key key_value u rec :
  rec ∈ query_find_old tx label key key_value u ↔
  ∃ i u' r, competing tx label key key_value u i u' r ∧
            rec = (r !! "retrieved_at", r !! "trust_score").
Proof.
  unfold query_find_old. rewrite list_elem_of_fmap. split.
  - intros ([[i u'] r] & -> & Hin%elem_of_competitors). by exists i, u', r.
  - intros (i & u' & r & Hc%elem_of_competitors & ->). by exists (i, u', r).
Qed.

(** No relationship competes: the query has no row. *)
Lemma query_find_old_nil tx label key key_value u :
  (∀ i u' r, ¬ competing tx label key key_value u i u' r) →
  query_find_old tx label key key_value u = [].
Proof.
  intros Hno. destruct (query_find_old tx label key key_value u) as [|rec l] eqn:Hq;
    [done|].
  assert (Hin : rec ∈ query_find_old tx label key key_value u) by (rewrite Hq; left).
  apply elem_of_query_find_old in Hin as (i & u' & r & Hc & _). by destruct (Hno i u' r).
Qed.

(** One relationship competes and no other: the query has its row only. *)
Lemma query_find_old_unique tx label key key_value u i u0 r0 :
  competing tx label key key_value u i u0 r0 →
  (∀ i' u' r', competing tx label key key_value u i' u' r' → i' = i ∧ u' = u0) →
  query_find_old tx label key key_value u
  = [(r0 !! "retrieved_at", r0 !! "trust_score")].
Proof.
  intros Hc Honly. unfold query_find_old.
  pose proof (elem_of_competitors tx label key key_value u) as Hel.
  set (rows := filter _ (map_to_list (from_source tx))) in *.
  assert (Hnd : NoDup rows) by apply NoDup_filter, NoDup_map_to_list.
  assert (Hall : ∀ kr, kr ∈ rows → kr = (i, u0, r0)).
  { intros [[i' u'] r'] Hc'%Hel. destruct (Honly _ _ _ Hc') as [-> ->].
    destruct Hc as [Hr0 _], Hc' as [Hr' _]. congruence. }
  assert (Hin0 : (i, u0, r0) ∈ rows) by by apply Hel.
  destruct rows as [|a [|b l]].
  - by apply elem_of_nil in Hin0.
  - rewrite (Hall a) by left. done.
  - exfalso. apply NoDup_cons in Hnd as [Hab _]. apply Hab.
    rewrite (Hall a) by left. rewrite (Hall b) by (right; left). left.
Qed.

(** The decision of the corroborator against the record [single()] hands
    out, when that record carries a timestamp and a trust score. *)
Lemma corroborate_against tx label key key_value node_props rel_props meta t0 q0 rest :
  query_find_old tx label key key_value (url meta)
    = (Some (PTime t0), Some (PFloat q0)) :: rest →
  ∃ tx',
    _tx_corroborate_and_ingest tx label key key_value node_props rel_props meta
    = Ok ((t0 <? retrieved_at meta)%Z ||
          ((retrieved_at meta =? t0)%Z && Qle_bool q0 (trust_score meta)), tx').
Proof.
  intros Hq. unfold _tx_corroborate_and_ingest. rewrite Hq.
  assert (single false ((Some (PTime t0), Some (PFloat q0)) :: rest)
          = Ok (Some (Some (PTime t0), Some (PFloat q0)))) as ->
    by by destruct rest.
  simpl. destruct (t0 <? retrieved_at meta)%Z; simpl; [by eexists|].
  destruct (retrieved_at meta =? t0)%Z; simpl; [|by eexists].
  destruct (Qle_bool q0 (trust_score meta)); simpl; by eexists.
Qed.

Lemma corroborate_unopposed tx label key key_value node_props rel_props meta :
  query_find_old tx label key key_value (url meta) = [] →
  ∃ tx',
    _tx_corroborate_and_ingest tx label key key_value node_props rel_props meta
    = Ok (true, tx').
Proof.
  intros Hq. unfold _tx_corroborate_and_ingest. rewrite Hq. simpl. by eexists.
Qed.

(** A corroborator that reports a loss has met a competing relationship. *)
Lemma corroborate_lost_competitor tx label key key_value node_props rel_props meta tx' :
  _tx_corroborate_and_ingest tx label key key_value node_props rel_props meta
    = Ok (false, tx') →
  ∃ i u r, competing tx label key key_value (url meta) i u r.
Proof.
  intros Hrun.
  destruct (query_find_old tx label key key_value (url meta)) as [|rec l] eqn:Hq.
  - destruct (corroborate_unopposed tx label key key_value node_props rel_props meta Hq)
      as [tx'' Hwon]. congruence.
  - assert (Hin : rec ∈ query_find_old tx label key key_value (url meta))
      by (rewrite Hq; left).
    apply elem_of_query_find_old in Hin as (i & u & r & Hc & _). eauto.
Qed.

(* ===================================================================== *)
(** ** C1: who wins *)
(* ===================================================================== *)

(** C1. When no active relationship from another source competes (first
    assertion of the entity, or re-assertion by the source that holds the
    active one), the new assertion wins.  When exactly one competes, the
    new assertion wins if and only if it was retrieved strictly later, or
    at the same time with a trust score at least the competitor's. *)
Theorem corroborate_winner tx label key key_value node_props rel_props meta :
  ((∀ i u r, ¬ competing tx label key key_value (url meta) i u r) →
   ∃ tx',
     _tx_corroborate_and_ingest tx label key key_value node_props rel_props meta
     = Ok (true, tx')) ∧
  (∀ i u r t0 q0,
     competing tx label key key_value (url meta) i u r →
     (∀ i' u' r', competing tx label key key_value (url meta) i' u' r' →
                  i' = i ∧ u' = u) →
     r !! "retrieved_at" = Some (PTime t0) →
     r !! "trust_score" = Some (PFloat q0) →
     ∃ won tx',
       _tx_corroborate_and_ingest tx label key key_value node_props rel_props meta
       = Ok (won, tx') ∧
       (won = true ↔
        (t0 < retrieved_at meta)%Z ∨
        (retrieved_at meta = t0 ∧ (q0 <= trust_score meta)%Q))).
Proof.
  split.
  - intros Hno. apply corroborate_unopposed. by apply query_find_old_nil.
  - intros i u r t0 q0 Hc Honly Hts Htrust.
    pose proof (query_find_old_unique _ _ _ _ _ _ _ _ Hc Honly) as Hq.
    rewrite Hts, Htrust in Hq.
    destruct (corroborate_against tx label key key_value node_props rel_props
                meta t0 q0 [] Hq) as [tx' Hrun].
    eexists _, tx'. split; [exact Hrun|].
    rewrite orb_true_iff, andb_true_iff, Z.ltb_lt, Z.eqb_eq, Qle_bool_iff.
    tauto.
Qed.

(** The competitor [(t0 = 10, trust = 0.9)] is active; the new assertion
    [(t1 = 20, trust = 0.1)] from another source wins. *)
Lemma corroborate_winner_witness :
  ∃ won tx',
    _tx_corroborate_and_ingest sample_store Product "name" "X"
      {["name" := PStr "X"]} ∅ (sample_meta "B" 20 (1 # 10)) = Ok (won, tx') ∧
    (won = true ↔ (10 < 20)%Z ∨ (20%Z = 10%Z ∧ (9 # 10 <= 1 # 10)%Q)).
Proof.
  destruct (corroborate_winner sample_store Product "name" "X"
              {["name" := PStr "X"]} ∅ (sample_meta "B" 20 (1 # 10)))
    as [_ Hone].
  apply (Hone 0 "A" (stored (stamped ∅ (sample_meta "A" 10 (9 # 10)) true))).
  - repeat split; [reflexivity..|discriminate].
  - intros i' u' r' [Hr' _].
    change (from_source sample_store) with
      ({[ (0, "A") := stored (stamped ∅ (sample_meta "A" 10 (9 # 10)) true) ]}
         : gmap (nat * string) Props) in Hr'.
    apply lookup_singleton_Some in Hr' as [[= <- <-] _]. done.
  - reflexivity.
  - reflexivity.
Defined.

(* ===================================================================== *)
(** ** C3: more than one competitor *)
(* ===================================================================== *)

(** On the corrupted store two relationships compete with an assertion by
    [C], and the corroborator returns instead of raising. *)
Lemma corroborate_many_competitors_returns :
  length (query_find_old corrupted_store Product "name" "X" "C") = 2 ∧
  ∃ tx',
    _tx_corroborate_and_ingest corrupted_store Product "name" "X"
      {["name" := PStr "X"]} ∅ (sample_meta "C" 20 (1 # 10)) = Ok (true, tx').
Proof.
  split; [reflexivity|].
  eexists. vm_compute. reflexivity.
Qed.

(** C3, as the code has it.  With more than one competing relationship the
    corroborator raises no error on that account: [single()] is called
    without [strict], so the first record is taken as the competitor, the
    decision is made against it alone and the writes go ahead.  The only
    exception left is the [TypeError] of comparing against a record without
    a timestamp or a trust score. *)
Theorem corroborate_many_competitors tx label key key_value node_props
    rel_props meta old_ts old_trust rest :
  query_find_old tx label key key_value (url meta) = (old_ts, old_trust) :: rest →
  rest ≠ [] →
  (∀ e, _tx_corroborate_and_ingest tx label key key_value node_props rel_props meta
        = Raise e → e = TypeError) ∧
  (∀ t0 q0, old_ts = Some (PTime t0) → old_trust = Some (PFloat q0) →
     ∃ tx',
       _tx_corroborate_and_ingest tx label key key_value node_props rel_props meta
       = Ok ((t0 <? retrieved_at meta)%Z ||
             ((retrieved_at meta =? t0)%Z && Qle_bool q0 (trust_score meta)), tx')).
Proof.
  intros Hq Hrest. split.
  - unfold _tx_corroborate_and_ingest. rewrite Hq.
    assert (single false ((old_ts, old_trust) :: rest) = Ok (Some (old_ts, old_trust)))
      as -> by by destruct rest.
    simpl. intros e.
    destruct old_ts as [[| | | | |t0]|]; simpl; try by intros [= <-].
    destruct (t0 <? retrieved_at meta)%Z; simpl; [done|].
    destruct (retrieved_at meta =? t0)%Z; simpl; [|done].
    destruct old_trust as [[| | | | |]|]; simpl; try by intros [= <-].
    + by destruct (Qle_bool _ _).
    + by destruct (Qle_bool _ _).
    + by destruct (Qle_bool _ _).
  - intros t0 q0 -> ->. by eapply corroborate_against.
Qed.

Lemma corroborate_many_competitors_witness :
  ∃ tx',
    _tx_corroborate_and_ingest corrupted_store Product "name" "X"
      {["name" := PStr "X"]} ∅ (sample_meta "C" 20 (1 # 10))
    = Ok ((10 <? 20)%Z || ((20 =? 10)%Z && Qle_bool (9 # 10) (1 # 10)), tx').
Proof.
  destruct (corroborate_many_competitors corrupted_store Product "name" "X"
              {["name" := PStr "X"]} ∅ (sample_meta "C" 20 (1 # 10))
              (Some (PTime 10)) (Some (PFloat (9 # 10)))
              [(Some (PTime 10), Some (PFloat (5 # 10)))])
    as [_ Hdec]; [reflexivity|discriminate|].
  apply (Hdec 10%Z (9 # 10)%Q); reflexivity.
Defined.

(* ===================================================================== *)
(** ** C9: a lost corroboration *)
(* ===================================================================== *)

(** What a losing corroborator writes: the nodes stay, and one dictionary
    is put on the relationship from each node of the entity to the
    incoming source. *)
Lemma corroborate_lost_effect tx label key key_value node_props rel_props meta tx' :
  _tx_corroborate_and_ingest tx label key key_value node_props rel_props meta
    = Ok (false, tx') →
  nodes tx' = nodes tx ∧
  links tx' = links tx ∧
  ∀ k, from_source tx' !! k =
       if is_matched tx label key key_value k.1 && bool_decide (k.2 = url meta)
       then Some (stored (stamped rel_props meta false))
       else from_source tx !! k.
Proof.
  intros Hrun.
  destruct (corroborate_lost_competitor _ _ _ _ _ _ _ _ Hrun)
    as (i0 & u0 & r0 & Hr0 & Hm0 & Ha0 & Hu0).
  apply corroborate_inv in Hrun. cbn zeta in Hrun.
  rewrite (merge_node_matched label key key_value (merge_source (url meta) tx) i0)
    in Hrun by done.
  subst tx'. rewrite nodes_merge_from_source, links_merge_from_source.
  split; [done|]. split; [done|].
  intros k. rewrite from_source_merge_from_source.
  rewrite (bool_decide_eq_true_2 (url meta ∈ _)); [done|].
  simpl. set_solver.
Qed.

(** C9. When the corroborator reports a loss, no node changes (the entity
    keeps its property snapshot), every relationship to another source is
    as it was (among them the active competitor), and the relationship from
    each node of the entity to the incoming source holds exactly the new
    assertion properties, with [is_active = false]. *)
Theorem corroborate_lost_frame tx label key key_value node_props rel_props meta tx' :
  _tx_corroborate_and_ingest tx label key key_value node_props rel_props meta
    = Ok (false, tx') →
  nodes tx' = nodes tx ∧
  links tx' = links tx ∧
  (∀ i u, u ≠ url meta → from_source tx' !! (i, u) = from_source tx !! (i, u)) ∧
  (∀ i u, is_matched tx label key key_value i = false →
          from_source tx' !! (i, u) = from_source tx !! (i, u)) ∧
  (∃ i u r, competing tx label key key_value (url meta) i u r ∧
            from_source tx' !! (i, u) = Some r) ∧
  (∀ i, is_matched tx label key key_value i = true →
        from_source tx' !! (i, url meta)
        = Some (stored (stamped rel_props meta false))) ∧
  is_active (stored (stamped rel_props meta false)) = false ∧
  (∀ k, k ≠ "is_active" → k ≠ "trust_score" → k ≠ "retrieved_at" →
        stored (stamped rel_props meta false) !! k = stored rel_props !! k).
Proof.
  intros Hrun.
  destruct (corroborate_lost_competitor _ _ _ _ _ _ _ _ Hrun)
    as (i0 & u0 & r0 & Hc).
  pose proof Hc as (Hr0 & Hm0 & Ha0 & Hu0).
  destruct (corroborate_lost_effect _ _ _ _ _ _ _ _ Hrun) as (Hn & Hl & Hlook).
  split; [done|]. split; [done|].
  split; [|split; [|split; [|split; [|split]]]].
  - intros i u Hu. rewrite Hlook. cbn [fst snd].
    by rewrite (bool_decide_eq_false_2 (u = url meta)), andb_false_r.
  - intros i u Hm. rewrite Hlook. cbn [fst snd]. by rewrite Hm.
  - exists i0, u0, r0. split; [done|]. rewrite Hlook. cbn [fst snd].
    by rewrite (bool_decide_eq_false_2 (u0 = url meta)), andb_false_r.
  - intros i Hm. rewrite Hlook. cbn [fst snd].
    by rewrite Hm, bool_decide_eq_true_2.
  - unfold stamped. apply is_active_stored_insert.
  - intros k H1 H2 H3. rewrite !stored_lookup. unfold stamped.
    by rewrite !lookup_insert_ne.
Qed.

(** The store after source [B] asserted product [X] with an older
    timestamp than [A]'s active assertion and lost. *)
Lemma corroborate_lost_frame_witness :
  ∃ tx',
    _tx_corroborate_and_ingest sample_store Product "name" "X"
      {["name" := PStr "X"; "description" := PStr "old"]} ∅
      (sample_meta "B" 5 (1 # 10)) = Ok (false, tx') ∧
    nodes tx' = nodes sample_store ∧
    from_source tx' !! (0, "A") = from_source sample_store !! (0, "A").
Proof.
  eexists. split; [vm_compute; reflexivity|].
  match goal with
  | |- nodes ?t = _ ∧ _ =>
      destruct (corroborate_lost_frame sample_store Product "name" "X"
                  {["name" := PStr "X"; "description" := PStr "old"]} ∅
                  (sample_meta "B" 5 (1 # 10)) t)
        as (Hn & _ & Hother & _); [vm_compute; reflexivity|]
  end.
  split; [exact Hn|]. apply Hother. discriminate.
Defined.

(* ===================================================================== *)
(** ** C6: corroborating twice *)
(* ===================================================================== *)

Lemma graph_eq (a b : Graph) :
  nodes a = nodes b → sources a = sources b →
  from_source a = from_source b → links a = links b → a = b.
Proof. destruct a, b; simpl; by intros -> -> -> ->. Qed.

Lemma merge_source_known u tx : u ∈ sources tx → merge_source u tx = tx.
Proof.
  intros Hu. apply graph_eq; try done. simpl.
  apply subseteq_union_1_L. set_solver.
Qed.

Lemma merge_node_has_match label key key_value tx :
  ∃ i, is_matched (merge_node label key key_value tx) label key key_value i = true.
Proof.
  unfold merge_node.
  destruct (match_ids tx label key key_value) as [|i l] eqn:Hids.
  - exists (length (nodes tx)). unfold is_matched. simpl.
    rewrite lookup_app_r, Nat.sub_diag by done. simpl.
    unfold node_matches. simpl. rewrite lookup_singleton_eq.
    by rewrite !bool_decide_eq_true_2.
  - exists i. apply elem_of_match_ids. rewrite Hids. left.
Qed.

Lemma deactivate_twice (b1 b2 : bool) (r : Props) :
  (let r' := if b1 && is_active r then deactivate r else r in
   if b2 && is_active r' then deactivate r' else r')
  = if (b1 || b2) && is_active r then deactivate r else r.
Proof.
  simpl. destruct (is_active r) eqn:Ha, b1, b2; simpl;
    rewrite ?is_active_deactivate, ?Ha; done.
Qed.

(** The outcome is a function of the rows the query returns. *)
Lemma corroborate_same_rows tx txb label key key_value node_props rel_props meta w tx' :
  _tx_corroborate_and_ingest tx label key key_value node_props rel_props meta
    = Ok (w, tx') →
  query_find_old txb label key key_value (url meta)
    = query_find_old tx label key key_value (url meta) →
  ∃ tx'',
    _tx_corroborate_and_ingest txb label key key_value node_props rel_props meta
    = Ok (w, tx'').
Proof.
  unfold _tx_corroborate_and_ingest. intros Hrun ->.
  destruct (single false _) as [old_fact|e]; [|done]. simpl in *.
  set (decision := match old_fact with None => _ | Some _ => _ end) in *.
  destruct decision as [[]|e]; simpl in *; [| |done].
  - injection Hrun as <- _. by eexists.
  - injection Hrun as <- _. by eexists.
Qed.

Lemma competitors_at_most_one tx label key key_value u i1 u1 r1 i2 u2 r2 :
  length (query_find_old tx label key key_value u) ≤ 1 →
  competing tx label key key_value u i1 u1 r1 →
  competing tx label key key_value u i2 u2 r2 →
  i1 = i2 ∧ u1 = u2.
Proof.
  unfold query_find_old. rewrite length_fmap.
  intros Hlen H1%elem_of_competitors H2%elem_of_competitors.
  destruct (filter _ (map_to_list (from_source tx))) as [|a [|b l]].
  - by apply elem_of_nil in H1.
  - apply list_elem_of_singleton in H1, H2. split; congruence.
  - simpl in Hlen. lia.
Qed.

Section Idempotence.
Variables (label : Label) (key key_value : string).
Variables (node_props rel_props : Props) (meta : ProvenanceModel).

Lemma merged_known tx i :
  url meta ∈ sources tx → is_matched tx label key key_value i = true →
  merged label key key_value meta tx = tx.
Proof.
  intros Hu Hm. unfold merged. rewrite merge_source_known by done.
  by eapply merge_node_matched.
Qed.

Lemma lost_lookup tx k :
  from_source (merge_from_source label key key_value (url meta)
                 (stamped rel_props meta false) (merged label key key_value meta tx)) !! k
  = if is_matched (merged label key key_value meta tx) label key key_value k.1 &&
       bool_decide (k.2 = url meta)
    then Some (stored (stamped rel_props meta false))
    else from_source tx !! k.
Proof.
  rewrite from_source_merge_from_source. unfold merged.
  by rewrite url_in_merged_sources, from_source_merge_node.
Qed.

Lemma won_lookup tx k :
  node_props !! key = Some (PStr key_value) →
  from_source (merge_from_source label key key_value (url meta)
                 (stamped rel_props meta true)
                 (set_node_and_deactivate label key key_value node_props
                    (merged label key key_value meta tx))) !! k
  = if is_matched (merged label key key_value meta tx) label key key_value k.1 &&
       bool_decide (k.2 = url meta)
    then Some (stored (stamped rel_props meta true))
    else (λ r, if is_matched (merged label key key_value meta tx) label key key_value k.1 && is_active r
               then deactivate r else r) <$> from_source tx !! k.
Proof.
  intros Hkey. rewrite from_source_merge_from_source.
  rewrite is_matched_set_node_keyed by done.
  rewrite from_source_set_node_and_deactivate.
  change (sources (set_node_and_deactivate _ _ _ _ ?t)) with (sources t).
  unfold merged. by rewrite url_in_merged_sources, from_source_merge_node.
Qed.

(** The store a winning corroborator leaves is one it would rebuild as
    it is. *)
Lemma won_fixpoint tx :
  node_props !! key = Some (PStr key_value) →
  let tx1 := merge_from_source label key key_value (url meta)
               (stamped rel_props meta true)
               (set_node_and_deactivate label key key_value node_props
                  (merged label key key_value meta tx)) in
  merge_from_source label key key_value (url meta)
    (stamped rel_props meta true)
    (set_node_and_deactivate label key key_value node_props (merged label key key_value meta tx1))
  = tx1.
Proof.
  intros Hkey tx1.
  assert (Hmatch : ∀ i, is_matched tx1 label key key_value i
                        = is_matched (merged label key key_value meta tx) label key key_value i).
  { intros i. unfold tx1, is_matched. rewrite nodes_merge_from_source.
    apply (is_matched_set_node_keyed label key key_value node_props (merged label key key_value meta tx) i Hkey). }
  destruct (merge_node_has_match label key key_value (merge_source (url meta) tx))
    as [i0 Hi0].
  assert (Hm1 : merged label key key_value meta tx1 = tx1).
  { apply (merged_known tx1 i0).
    - unfold tx1. rewrite sources_merge_from_source.
      exact (url_in_merged label key key_value (url meta) tx).
    - by rewrite Hmatch. }
  rewrite Hm1. apply graph_eq.
  - rewrite nodes_merge_from_source. unfold tx1 at 2.
    rewrite nodes_merge_from_source. cbn [nodes set_node_and_deactivate].
    unfold tx1. rewrite nodes_merge_from_source.
    cbn [nodes set_node_and_deactivate]. rewrite <- list_fmap_compose.
    apply list_fmap_ext. intros _ n _. simpl.
    destruct (node_matches label key key_value n) eqn:Hn; simpl.
    + assert (node_matches label key key_value
                {| n_label := n_label n; n_props := stored node_props |} = true)
        as ->; [|done].
      unfold node_matches in *. simpl. rewrite stored_lookup, Hkey.
      apply andb_true_iff in Hn as [-> _]. simpl. by apply bool_decide_eq_true_2.
    + by rewrite Hn.
  - by rewrite sources_merge_from_source.
  - apply map_eq. intros k.
    pose proof (won_lookup tx k Hkey) as Hl1. fold tx1 in Hl1.
    pose proof (won_lookup tx1 k Hkey) as Hl2. rewrite Hm1 in Hl2.
    rewrite Hl2, Hl1, !Hmatch.
    destruct (is_matched (merged label key key_value meta tx) label key key_value k.1 &&
              bool_decide (k.2 = url meta)) eqn:Hnew; [done|].
    destruct (from_source tx !! k) as [r|]; [|done].
    cbn [fmap option_fmap option_map]. f_equal.
    rewrite (deactivate_twice _ _ r). by rewrite orb_diag.
  - by rewrite links_merge_from_source.
Qed.

(** The same for a losing corroborator, on a store where the entity has
    a node. *)
Lemma lost_fixpoint tx i :
  is_matched tx label key key_value i = true →
  let tx1 := merge_from_source label key key_value (url meta)
               (stamped rel_props meta false) (merged label key key_value meta tx) in
  merge_from_source label key key_value (url meta)
    (stamped rel_props meta false) (merged label key key_value meta tx1)
  = tx1.
Proof.
  intros Hm tx1.
  assert (Hmg : merge_node label key key_value (merge_source (url meta) tx)
                = merge_source (url meta) tx)
    by by apply (merge_node_matched _ _ _ _ i).
  assert (Hm1 : merged label key key_value meta tx1 = tx1).
  { apply (merged_known tx1 i).
    - unfold tx1. rewrite sources_merge_from_source.
      exact (url_in_merged label key key_value (url meta) tx).
    - unfold tx1, is_matched. rewrite nodes_merge_from_source.
      unfold merged. rewrite Hmg. done. }
  rewrite Hm1. apply graph_eq.
  - by rewrite nodes_merge_from_source.
  - by rewrite sources_merge_from_source.
  - apply map_eq. intros k.
    pose proof (lost_lookup tx k) as Hl1. fold tx1 in Hl1.
    pose proof (lost_lookup tx1 k) as Hl2. rewrite Hm1 in Hl2.
    rewrite Hl2, Hl1.
    assert (is_matched tx1 label key key_value k.1
            = is_matched (merged label key key_value meta tx) label key key_value k.1) as ->.
    { unfold tx1, is_matched. by rewrite nodes_merge_from_source. }
    by destruct (_ && _).
  - by rewrite links_merge_from_source.
Qed.
End Idempotence.

(** With node properties that lack the key, [SET n = $node_props] takes the
    key off the node: the relationship is not written, and a second run
    merges a second node. *)
Lemma corroborate_twice_differs :
  ∃ tx1 tx2,
    _tx_corroborate_and_ingest empty_graph Product "name" "X" ∅ ∅
      (sample_meta "A" 10 (9 # 10)) = Ok (true, tx1) ∧
    _tx_corroborate_and_ingest tx1 Product "name" "X" ∅ ∅
      (sample_meta "A" 10 (9 # 10)) = Ok (true, tx2) ∧
    length (nodes tx1) = 1 ∧ length (nodes tx2) = 2 ∧ tx2 ≠ tx1.
Proof.
  eexists _, _. split; [vm_compute; reflexivity|].
  split; [vm_compute; reflexivity|].
  split; [reflexivity|]. split; [reflexivity|].
  intros Heq. apply (f_equal (λ g, length (nodes g))) in Heq. discriminate.
Qed.

(** C6, as the code has it.  When the node properties carry the key of the
    entity and at most one relationship competes, a corroborator that
    returns has left a store on which the same call returns the same
    outcome and changes nothing. *)
Theorem corroborate_idempotent tx label key key_value node_props rel_props meta
    won tx1 :
  node_props !! key = Some (PStr key_value) →
  length (query_find_old tx label key key_value (url meta)) ≤ 1 →
  _tx_corroborate_and_ingest tx label key key_value node_props rel_props meta
    = Ok (won, tx1) →
  _tx_corroborate_and_ingest tx1 label key key_value node_props rel_props meta
    = Ok (won, tx1).
Proof.
  intros Hkey Hlen Hrun. destruct won.
  - assert (Hq : query_find_old tx1 label key key_value (url meta) = []).
    { apply query_find_old_nil. intros i u r (Hr & Hm & Ha & Hu).
      destruct (corroborate_won_lookup _ _ _ _ _ _ _ _ _ _ _ Hrun Hr Ha)
        as [[-> _]|[_ Hno]]; [done|].
      apply corroborate_inv in Hrun. cbn zeta in Hrun. subst tx1.
      unfold is_matched in Hm. rewrite nodes_merge_from_source in Hm.
      pose proof (is_matched_set_node_keyed label key key_value node_props
                    (merge_node label key key_value (merge_source (url meta) tx))
                    i Hkey) as Hsame.
      unfold is_matched in Hsame, Hno. congruence. }
    destruct (corroborate_unopposed tx1 label key key_value node_props rel_props
                meta Hq) as [tx2 Hrun2].
    rewrite Hrun2. f_equal. f_equal.
    apply corroborate_inv in Hrun2, Hrun. cbn zeta in Hrun2, Hrun.
    subst tx2 tx1. by apply won_fixpoint.
  - destruct (corroborate_lost_competitor _ _ _ _ _ _ _ _ Hrun)
      as (i0 & u0 & r0 & Hc).
    pose proof Hc as (Hr0 & Hm0 & Ha0 & Hu0).
    destruct (corroborate_lost_effect _ _ _ _ _ _ _ _ Hrun) as (Hn & _ & Hlook).
    assert (Hsame : ∀ i u r, competing tx1 label key key_value (url meta) i u r ↔
                             competing tx label key key_value (url meta) i u r).
    { intros i u r. unfold competing, is_matched. rewrite Hn, Hlook. cbn [fst snd].
      split; intros (Hr & Hm & Ha & Hu);
        rewrite (bool_decide_eq_false_2 (u = url meta)), andb_false_r in * by done;
        done. }
    assert (Hq : query_find_old tx1 label key key_value (url meta)
                 = query_find_old tx label key key_value (url meta)).
    { rewrite (query_find_old_unique tx label key key_value (url meta) i0 u0 r0);
        [|done|].
      - apply (query_find_old_unique tx1 label key key_value (url meta) i0 u0 r0);
          [by apply Hsame|].
        intros i u r Hc'%Hsame.
        by apply (competitors_at_most_one tx label key key_value (url meta)
                    i u r i0 u0 r0).
      - intros i u r Hc'.
        by apply (competitors_at_most_one tx label key key_value (url meta)
                    i u r i0 u0 r0). }
    destruct (corroborate_same_rows _ _ _ _ _ _ _ _ _ _ Hrun Hq) as [tx2 Hrun2].
    rewrite Hrun2. f_equal. f_equal.
    apply corroborate_inv in Hrun2, Hrun. cbn zeta in Hrun2, Hrun.
    subst tx2 tx1.
    by apply (lost_fixpoint label key key_value rel_props meta tx i0).
Qed.

Lemma corroborate_idempotent_witness :
  ∃ tx1,
    _tx_corroborate_and_ingest sample_store Product "name" "X"
      {["name" := PStr "X"]} ∅ (sample_meta "B" 20 (1 # 10)) = Ok (true, tx1) ∧
    _tx_corroborate_and_ingest tx1 Product "name" "X"
      {["name" := PStr "X"]} ∅ (sample_meta "B" 20 (1 # 10)) = Ok (true, tx1).
Proof.
  eexists. split; [vm_compute; reflexivity|].
  apply (corroborate_idempotent sample_store).
  - reflexivity.
  - vm_compute. lia.
  - vm_compute. reflexivity.
Defined.

(* ===================================================================== *)
(** ** C8: unusable claims are removed without a question *)
(* ===================================================================== *)

Section GrounderFacts.
Context {World : Type}.
Variable ask : World → string → string → bool * World.

Lemma extends_refl (g : GState World) : extends g g.
Proof. exists []. split; [by rewrite app_nil_r|constructor]. Qed.

Lemma extends_trans (g1 g2 g3 : GState World) :
  extends g1 g2 → extends g2 g3 → extends g1 g3.
Proof.
  intros (q1 & H1 & W1) (q2 & H2 & W2). exists (q1 ++ q2). split.
  - by rewrite H2, H1, app_assoc.
  - by apply Forall_app.
Qed.

(** A loop whose every turn relates input to output and only extends
    the state does so as a whole. *)
Lemma map_st_extends {A B} (R : A → B → Prop)
    (f : A → GState World → B * GState World) (l : list A) :
  Forall (λ x, ∀ g, R x (f x g).1 ∧ extends g (f x g).2) l →
  ∀ g, Forall2 R l (map_st f l g).1 ∧ extends g (map_st f l g).2.
Proof.
  induction 1 as [|x l Hx _ IH]; intros g; simpl.
  - split; [constructor|apply extends_refl].
  - destruct (Hx g) as [HR He]. destruct (f x g) as [y g1]. simpl in *.
    destruct (IH g1) as [HRs Hes]. destruct (map_st f l g1) as [ys g2].
    simpl in *. split; [by constructor|by eapply extends_trans].
Qed.

Lemma falsy_str_false o : falsy_str o = false → ∃ s, o = Some s ∧ s ≠ "".
Proof.
  destruct o as [s|]; simpl; [|done]. intros Hs%bool_decide_eq_false. eauto.
Qed.

(** An unusable claim becomes [None], and the state with its log is the
    one before. *)
Lemma ground_field_unusable f g :
  ¬ usable f → ground_field ask (OFact f) g = (ONone, g).
Proof.
  intros Hf. simpl.
  destruct (falsy_str (value f)) eqn:Hv; [done|].
  destruct (falsy_str (evidence f)) eqn:He; [done|].
  by destruct Hf.
Qed.

Lemma ground_field_sound v :
  ∀ g, pruned v (ground_field ask v g).1 ∧ extends g (ground_field ask v g).2.
Proof.
  induction v as [a|tag|f|fields IH|items IH] using pyobj_tree_ind; intros g.
  - split; [constructor|apply extends_refl].
  - split; [constructor|apply extends_refl].
  - simpl. destruct (falsy_str (value f)) eqn:Hv; simpl;
      [split; [constructor|apply extends_refl]|].
    destruct (falsy_str (evidence f)) eqn:He; simpl;
      [split; [constructor|apply extends_refl]|].
    destruct (falsy_str_false _ Hv) as (v & Hv' & Hvne).
    destruct (falsy_str_false _ He) as (e & He' & Hene).
    rewrite Hv', He'. simpl. unfold is_fact_grounded.
    destruct (ask (world g) v e) as [b w].
    assert (extends g {| world := w; asked := asked g ++ [(v, e)] |}).
    { exists [(v, e)]. split; [done|]. by repeat constructor. }
    destruct b; simpl; (split; [|done]).
    + constructor. by split.
    + constructor.
  - simpl.
    pose proof (map_st_extends
      (λ kv kv' : string * pyobj, kv.1 = kv'.1 ∧ pruned kv.2 kv'.2)
      (λ kv g, let '(v', g') := ground_field ask kv.2 g in ((kv.1, v'), g'))
      fields) as Hloop.
    destruct (Hloop) with (g := g) as [HR He].
    { eapply Forall_impl; [exact IH|]. intros [k v] Hv g0. simpl in *.
      destruct (Hv g0) as [Hp Hx]. destruct (ground_field ask v g0); simpl in *.
      done. }
    destruct (map_st _ fields g) as [fields' g']. simpl in *.
    split; [by constructor|done].
  - simpl.
    pose proof (map_st_extends
      (λ item item' : pyobj,
         (is_model item = true ∧ pruned item item') ∨
         (is_model item = false ∧ item' = item))
      (λ item g, match item with
                 | OModel _ => ground_field ask item g
                 | _ => (item, g)
                 end)
      items) as Hloop.
    destruct (Hloop) with (g := g) as [HR He].
    { eapply Forall_impl; [exact IH|]. intros item Hitem g0.
      destruct item; simpl;
        try (split; [by right|apply extends_refl]).
      destruct (Hitem g0) as [Hp Hx]. split; [by left|done]. }
    destruct (map_st _ items g) as [items' g']. simpl in *.
    split; [by constructor|done].
Qed.

(** C8. Whatever the oracle answers: the tree a grounding pass returns
    is the given one with claims removed, and no claim with a missing or
    empty half is kept, on any level the pass walks; an unusable claim
    as a field value becomes [None] with the oracle and its log
    untouched; and every question the pass did put to the oracle had a
    non-empty value and a non-empty evidence. *)
Theorem grounding_removes_unusable (fields : list (string * pyobj))
    (g : GState World) :
  let r := _ground_model_recursive ask (OModel fields) g in
  pruned (OModel fields) r.1 ∧
  extends g r.2 ∧
  ∀ f g0, ¬ usable f → ground_field ask (OFact f) g0 = (ONone, g0).
Proof.
  intros r. subst r. unfold _ground_model_recursive.
  destruct (ground_field_sound (OModel fields) g) as [Hp He].
  split; [done|]. split; [done|].
  intros f g0. apply ground_field_unusable.
Qed.
End GrounderFacts.

Lemma grounding_removes_unusable_witness :
  ground_field yes_oracle (OFact unsupported_rate) {| world := (); asked := [] |}
  = (ONone, {| world := (); asked := [] |}).
Proof.
  destruct (grounding_removes_unusable yes_oracle
              [("interest_rate", OFact unsupported_rate)]
              {| world := (); asked := [] |}) as (_ & _ & Hleaf).
  apply Hleaf. intros [_ He]. discriminate He.
Defined.

(* ===================================================================== *)
(** ** C4: node properties *)
(* ===================================================================== *)

#[local] Arguments node_prop_step : simpl never.

Lemma node_prop_step_ne (props : Props) (k k' : string) (v : pyobj) :
  k ≠ k' → node_prop_step props (k', v) !! k = props !! k.
Proof.
  intros Hk. unfold node_prop_step.
  destruct v as [[]| |f| |]; try destruct (value f);
    by rewrite ?lookup_insert_ne.
Qed.

Lemma node_props_fold_notin (fields : list (string * pyobj)) (props : Props) k :
  k ∉ fields.*1 → foldl node_prop_step props fields !! k = props !! k.
Proof.
  revert props. induction fields as [|[k' v] fields IH]; intros props Hk; [done|].
  simpl in *. apply not_elem_of_cons in Hk as [Hne Hk].
  rewrite IH by done. by apply node_prop_step_ne.
Qed.

Lemma node_props_fold_in (fields : list (string * pyobj)) (props : Props) k v :
  NoDup fields.*1 → (k, v) ∈ fields →
  foldl node_prop_step props fields !! k = node_prop_step props (k, v) !! k.
Proof.
  revert props. induction fields as [|[k' v'] fields IH]; intros props Hnd Hin.
  - by apply elem_of_nil in Hin.
  - simpl in *. apply NoDup_cons in Hnd as [Hk' Hnd].
    apply elem_of_cons in Hin as [[= <- <-]|Hin].
    + by apply node_props_fold_notin.
    + assert (k ≠ k').
      { intros ->. apply Hk'. apply list_elem_of_fmap. by exists (k', v). }
      rewrite IH by done. unfold node_prop_step at 1 3.
      destruct v as [[]| |f| |]; try destruct (value f);
        rewrite ?lookup_insert_eq; try done; by apply node_prop_step_ne.
Qed.

(** The absent claim does contribute a key: [interest_rate] is in the
    dictionary, with the value [None]. *)
Lemma get_node_props_keeps_absent_key :
  ∃ props, get_node_props nulled_condition = Ok props ∧
           props !! "interest_rate" = Some PNull.
Proof. eexists. split; reflexivity. Qed.

(** C4, as the code has it.  The node properties of a model map the name
    of each surviving claim to its value, of each enum field to its tag
    and of each plain scalar field to the scalar; nested models and lists
    give no key.  A field that is [None], an absent claim among them, is
    kept as a key with the value [None]; it is Neo4j that drops it when the
    dictionary is written with [SET]. *)
Theorem get_node_props_projection (fields : list (string * pyobj)) :
  NoDup fields.*1 →
  ∃ props,
    get_node_props (OModel fields) = Ok props ∧
    (∀ k f s, (k, OFact f) ∈ fields → value f = Some s →
              props !! k = Some (PStr s)) ∧
    (∀ k tag, (k, OEnum tag) ∈ fields → props !! k = Some (PStr tag)) ∧
    (∀ k a, (k, OAtom a) ∈ fields → (∀ t, a ≠ PTime t) → props !! k = Some a) ∧
    (∀ k, (k, ONone) ∈ fields →
          props !! k = Some PNull ∧ stored props !! k = None) ∧
    (∀ k v, (k, v) ∈ fields → (∃ fs, v = OModel fs) ∨ (∃ l, v = OList l) →
            props !! k = None) ∧
    (∀ k, k ∉ fields.*1 → props !! k = None).
Proof.
  intros Hnd. eexists. split; [reflexivity|].
  split; [|split; [|split; [|split; [|split]]]].
  - intros k f s Hin Hv. rewrite (node_props_fold_in _ _ _ _ Hnd Hin).
    unfold node_prop_step. rewrite Hv. apply lookup_insert_eq.
  - intros k tag Hin. rewrite (node_props_fold_in _ _ _ _ Hnd Hin).
    apply lookup_insert_eq.
  - intros k a Hin Ha. rewrite (node_props_fold_in _ _ _ _ Hnd Hin).
    unfold node_prop_step. destruct a; try apply lookup_insert_eq.
    by destruct (Ha t).
  - intros k Hin. assert (Hk : foldl node_prop_step ∅ fields !! k = Some PNull).
    { rewrite (node_props_fold_in _ _ _ _ Hnd Hin). apply lookup_insert_eq. }
    split; [done|]. by rewrite stored_lookup, Hk.
  - intros k v Hin Hv. rewrite (node_props_fold_in _ _ _ _ Hnd Hin).
    by destruct Hv as [[fs ->]|[l ->]].
  - intros k Hk. by rewrite node_props_fold_notin.
Qed.

Lemma get_node_props_projection_witness :
  ∃ props,
    get_node_props nulled_condition = Ok props ∧
    props !! "type" = Some (PStr "Savings Bond") ∧
    props !! "interest_rate" = Some PNull ∧
    stored props !! "interest_rate" = None.
Proof.
  destruct (get_node_props_projection
              [("type", OFact {| value := Some "Savings Bond"; evidence := Some "x" |});
               ("min_amount", OAtom (PInt 5000));
               ("max_amount", OAtom (PInt 49999));
               ("term_years", OAtom (PInt 6));
               ("interest_rate", ONone)])
    as (props & Hp & Hfact & _ & _ & Hnone & _).
  - compute_done.
  - exists props. split; [exact Hp|]. split.
    + apply (Hfact "type" {| value := Some "Savings Bond"; evidence := Some "x" |});
        [|reflexivity].
      apply list_elem_of_In. simpl. auto.
    + apply Hnone. apply list_elem_of_In. simpl. auto 10.
Defined.

(* ===================================================================== *)
(** ** C5 and C10: what the product ingestor skips *)
(* ===================================================================== *)

Lemma for_each_skip {A S} (body : S → A → result S) (x : A) (l1 l2 : list A) :
  (∀ s, body s x = Ok s) →
  ∀ s, for_each body s (l1 ++ x :: l2) = for_each body s (l1 ++ l2).
Proof.
  intros Hskip. induction l1 as [|y l1 IH]; intros s; simpl.
  - by rewrite Hskip.
  - destruct (body s y) as [s'|e]; simpl; [apply IH|done].
Qed.

Lemma bind_ext {A B} (m : result A) (k1 k2 : A → result B) :
  (∀ a, k1 a = k2 a) → m ≫= k1 = m ≫= k2.
Proof. intros Hk. destruct m; simpl; [apply Hk|done]. Qed.

Section KnowledgeGraphDataFields.
Variables product product_type risk_class conditions faqs : pyobj.

Lemma getattr_KnowledgeGraphData_product :
  getattr (KnowledgeGraphData product product_type risk_class conditions faqs)
          "product" = Ok product.
Proof. reflexivity. Qed.

Lemma getattr_KnowledgeGraphData_product_type :
  getattr (KnowledgeGraphData product product_type risk_class conditions faqs)
          "product_type" = Ok product_type.
Proof. reflexivity. Qed.

Lemma getattr_KnowledgeGraphData_risk_class :
  getattr (KnowledgeGraphData product product_type risk_class conditions faqs)
          "risk_class" = Ok risk_class.
Proof. reflexivity. Qed.

Lemma getattr_KnowledgeGraphData_conditions :
  getattr (KnowledgeGraphData product product_type risk_class conditions faqs)
          "conditions" = Ok conditions.
Proof. reflexivity. Qed.

Lemma getattr_KnowledgeGraphData_faqs :
  getattr (KnowledgeGraphData product product_type risk_class conditions faqs)
          "faqs" = Ok faqs.
Proof. reflexivity. Qed.
End KnowledgeGraphDataFields.

Section IngestorFacts.
Variable str_other : pyobj → string.

Lemma loop_if_any_skip (body : Graph → pyobj → result Graph) (x : pyobj)
    (l1 l2 : list pyobj) :
  (∀ tx, body tx x = Ok tx) →
  ∀ tx, loop_if_any body tx (OList (l1 ++ x :: l2))
        = loop_if_any body tx (OList (l1 ++ l2)).
Proof.
  intros Hskip tx. unfold loop_if_any.
  assert (truthy (OList (l1 ++ x :: l2)) = true) as -> by by destruct l1.
  simpl. rewrite for_each_skip by done.
  by destruct (l1 ++ l2).
Qed.

Lemma ingest_condition_skips meta product_name tx condition :
  condition = ONone ∨ getattr condition "interest_rate" = Ok ONone →
  ingest_condition str_other meta product_name tx condition = Ok tx.
Proof.
  unfold ingest_condition. intros [->|Hrate]; [done|].
  rewrite Hrate. simpl. by destruct (is_none condition).
Qed.

(** C10. A condition that is [None], or whose [interest_rate] is [None]
    (as grounding leaves it when the claim is removed), is passed over by
    the loop: the transaction is as before the turn, and the whole
    package is ingested as if the condition were not in the list.  No
    node and no relationship is made or changed for it. *)
Theorem skipped_condition_not_ingested (meta : ProvenanceModel)
    (product_name : string) (condition : pyobj) :
  condition = ONone ∨ getattr condition "interest_rate" = Ok ONone →
  (∀ tx, ingest_condition str_other meta product_name tx condition = Ok tx) ∧
  (∀ tx product product_type risk_class before after faqs,
     _tx_ingest_product_package str_other tx
       {| metadata := meta;
          data := KnowledgeGraphData product product_type risk_class
                    (OList (before ++ condition :: after)) faqs |}
     = _tx_ingest_product_package str_other tx
         {| metadata := meta;
            data := KnowledgeGraphData product product_type risk_class
                      (OList (before ++ after)) faqs |}).
Proof.
  intros Hskip. split; [intros tx; by apply ingest_condition_skips|].
  intros tx product product_type risk_class before after faqs.
  unfold _tx_ingest_product_package. cbn [data metadata].
  rewrite !getattr_KnowledgeGraphData_product,
          !getattr_KnowledgeGraphData_product_type,
          !getattr_KnowledgeGraphData_risk_class,
          !getattr_KnowledgeGraphData_conditions,
          !getattr_KnowledgeGraphData_faqs.
  cbn [mbind result_bind].
  destruct (negb (truthy product)); [done|].
  apply bind_ext; intros name.
  destruct (negb (truthy name)); [done|].
  do 4 (apply bind_ext; intros ?).
  apply bind_ext; intros [? tx0].
  do 2 (apply bind_ext; intros ?).
  rewrite loop_if_any_skip; [done|].
  intros tx'. by apply ingest_condition_skips.
Qed.
End IngestorFacts.

(** Grounding a condition whose [interest_rate] claim is unusable leaves
    [interest_rate = None], whatever the oracle says about the rest. *)
Lemma grounded_condition_has_no_rate {World} (ask : World → string → string → bool * World)
    (type min_amount max_amount term_years : pyobj) (f : ProvableFact)
    (g : GState World) :
  ¬ usable f →
  getattr (ground_field ask
             (ConditionModel type min_amount max_amount term_years (OFact f)) g).1
          "interest_rate" = Ok ONone.
Proof.
  intros Hf. unfold ConditionModel. cbn [ground_field map_st fst snd].
  destruct (ground_field ask type g) as [v1 g1].
  destruct (ground_field ask min_amount g1) as [v2 g2].
  destruct (ground_field ask max_amount g2) as [v3 g3].
  destruct (ground_field ask term_years g3) as [v4 g4].
  pose proof (ground_field_unusable ask f g4 Hf) as Hrate.
  cbn [ground_field] in Hrate. rewrite Hrate. reflexivity.
Qed.

Lemma skipped_condition_not_ingested_witness :
  ingest_condition (λ _, "") (sample_meta "A" 20 (9 # 10)) "X" sample_store
    (ground_field yes_oracle
       (ConditionModel ONone (OAtom (PInt 5000)) ONone (OAtom (PInt 6))
          (OFact unsupported_rate))
       {| world := (); asked := [] |}).1
  = Ok sample_store.
Proof.
  destruct (skipped_condition_not_ingested (λ _, "")
              (sample_meta "A" 20 (9 # 10)) "X"
              (ground_field yes_oracle
                 (ConditionModel ONone (OAtom (PInt 5000)) ONone (OAtom (PInt 6))
                    (OFact unsupported_rate))
                 {| world := (); asked := [] |}).1) as [Hturn _].
  - right. reflexivity.
  - apply Hturn.
Defined.

(** Ingesting it commits a transaction that has written to the store: the
    staleness check has run and switched off [A]'s active assertion. *)
Lemma ingest_nameless_package_sweeps :
  (getattr (data nameless_package) "product" ≫= λ p, getattr p "name") = Ok ONone ∧
  is_active <$> from_source sample_store !! (0, "A") = Some true ∧
  ∃ db', ingest_product_package (λ _, "") sample_store nameless_package
         = (db', None) ∧
         is_active <$> from_source db' !! (0, "A") = Some false ∧
         db' ≠ sample_store.
Proof.
  split; [reflexivity|]. split; [reflexivity|].
  eexists. split; [vm_compute; reflexivity|]. split; [reflexivity|].
  intros Heq.
  apply (f_equal (λ db, is_active <$> from_source db !! (0, "A"))) in Heq.
  vm_compute in Heq. discriminate.
Qed.

(** C5, as the code has it.  When the product is missing or its name claim
    is absent, the ingestor still opens its transaction and runs the
    staleness check of the package's source, and then stops: the committed
    store is the swept one, with no node, source or relationship made or
    updated for the package. *)
Theorem ingest_without_product_name (str_other : pyobj → string) (db : Graph)
    (package : ExtractionPackage) (product : pyobj) :
  getattr (data package) "product" = Ok product →
  truthy product = false ∨
  (∃ name, getattr product "name" = Ok name ∧ truthy name = false) →
  ingest_product_package str_other db package
  = (mark_stale [Product; Condition; FAQ] (url (metadata package)) db, None).
Proof.
  intros Hp Hname. unfold ingest_product_package, execute_write,
    _tx_ingest_product_package.
  rewrite Hp. cbn [mbind result_bind].
  destruct Hname as [Ht|(name & Hn & Ht)]; [by rewrite Ht|].
  destruct (truthy product); [|done]. cbn [negb].
  rewrite Hn. cbn [mbind result_bind]. by rewrite Ht.
Qed.

Lemma ingest_without_product_name_witness :
  ingest_product_package (λ _, "") sample_store nameless_package
  = (mark_stale [Product; Condition; FAQ] "A" sample_store, None).
Proof.
  apply (ingest_without_product_name (λ _, "") sample_store nameless_package
           (ProductModel ONone ONone)).
  - reflexivity.
  - right. exists ONone. split; reflexivity.
Defined.

(* ===================================================================== *)
(** ** The invariant across a whole package *)
(* ===================================================================== *)

Lemma at_most_one_active_from_source tx tx' i :
  from_source tx' = from_source tx →
  at_most_one_active tx i → at_most_one_active tx' i.
Proof. unfold at_most_one_active, active_edges. by intros ->. Qed.

Lemma corroborate_at_most_one_active tx label key key_value node_props
    rel_props meta w tx' i :
  _tx_corroborate_and_ingest tx label key key_value node_props rel_props meta
    = Ok (w, tx') →
  at_most_one_active tx i → at_most_one_active tx' i.
Proof.
  intros Hrun Hinv.
  pose proof (step_at_most_one_active tx
                (Corroborate label key key_value node_props rel_props meta) i Hinv)
    as Hstep.
  cbn [step] in Hstep. by rewrite Hrun in Hstep.
Qed.

Lemma mark_stale_at_most_one_active labels u tx i :
  at_most_one_active tx i → at_most_one_active (mark_stale labels u tx) i.
Proof. apply (step_at_most_one_active tx (MarkStale labels u) i). Qed.

Lemma match_link_at_most_one_active la ka va lb kb vb rel tx i :
  at_most_one_active tx i →
  at_most_one_active (match_link la ka va lb kb vb rel tx) i.
Proof. by apply at_most_one_active_from_source. Qed.

Lemma match_merge_link_at_most_one_active la ka va lb kb vb rel tx i :
  at_most_one_active tx i →
  at_most_one_active (match_merge_link la ka va lb kb vb rel tx) i.
Proof.
  apply at_most_one_active_from_source. unfold match_merge_link.
  destruct (match_ids tx la ka va); [done|].
  cbn [add_links from_source]. apply from_source_merge_node.
Qed.

Lemma for_each_invariant {A S} (P : S → Prop) (body : S → A → result S)
    (l : list A) :
  (∀ s x s', P s → body s x = Ok s' → P s') →
  ∀ s s', P s → for_each body s l = Ok s' → P s'.
Proof.
  intros Hbody. induction l as [|x l IH]; intros s s' Hs; simpl.
  - by intros [= <-].
  - destruct (body s x) as [s1|e] eqn:Hx; simpl; [|done]. eauto.
Qed.

(** Splitting [x ← m; k] that returned. *)
Lemma bind_Ok {A B} (m : result A) (k : A → result B) (b : B) :
  m ≫= k = Ok b → ∃ a, m = Ok a ∧ k a = Ok b.
Proof. destruct m as [a|e]; simpl; [eauto|done]. Qed.

Tactic Notation "split_bind" hyp(H) "as" ident(a) ident(Ha) :=
  apply bind_Ok in H as (a & Ha & H).

Section PackageInvariant.
Variable str_other : pyobj → string.
Variable i : nat.

Lemma loop_if_any_invariant (body : Graph → pyobj → result Graph) tx xs tx' :
  (∀ s x s', at_most_one_active s i → body s x = Ok s' → at_most_one_active s' i) →
  at_most_one_active tx i → loop_if_any body tx xs = Ok tx' →
  at_most_one_active tx' i.
Proof.
  intros Hbody Hinv. unfold loop_if_any. destruct (truthy xs).
  - intros Hrun. split_bind Hrun as items Hitems.
    by apply (for_each_invariant (λ s, at_most_one_active s i) body items Hbody tx tx').
  - by intros [= <-].
Qed.

Lemma ingest_condition_invariant meta product_name tx condition tx' :
  at_most_one_active tx i →
  ingest_condition str_other meta product_name tx condition = Ok tx' →
  at_most_one_active tx' i.
Proof.
  intros Hinv. unfold ingest_condition.
  destruct (is_none condition); [by intros [= <-]|]. intros Hrun.
  split_bind Hrun as rate Hrate.
  destruct (is_none rate); [by injection Hrun as <-|].
  split_bind Hrun as min_amount Hmin. split_bind Hrun as term_years Hterm.
  split_bind Hrun as node_props Hnp. split_bind Hrun as rel_props Hrp.
  split_bind Hrun as r Hr. destruct r as [w tx1].
  injection Hrun as <-. apply match_link_at_most_one_active.
  by eapply corroborate_at_most_one_active.
Qed.

Lemma ingest_faq_invariant meta product_name tx faq tx' :
  at_most_one_active tx i →
  ingest_faq meta product_name tx faq = Ok tx' →
  at_most_one_active tx' i.
Proof.
  intros Hinv. unfold ingest_faq.
  destruct (is_none faq); [by intros [= <-]|]. intros Hrun.
  split_bind Hrun as question Hq.
  destruct (is_none question); [by injection Hrun as <-|].
  split_bind Hrun as question_value Hqv.
  split_bind Hrun as node_props Hnp. split_bind Hrun as rel_props Hrp.
  split_bind Hrun as key_value Hk.
  split_bind Hrun as r Hr. destruct r as [w tx1].
  injection Hrun as <-. apply match_link_at_most_one_active.
  by eapply corroborate_at_most_one_active.
Qed.

Lemma ingest_employee_invariant meta branch_name tx employee tx' :
  at_most_one_active tx i →
  ingest_employee meta branch_name tx employee = Ok tx' →
  at_most_one_active tx' i.
Proof.
  intros Hinv. unfold ingest_employee.
  destruct (is_none employee); [by intros [= <-]|]. intros Hrun.
  split_bind Hrun as name Hname.
  destruct (is_none name); [by injection Hrun as <-|].
  split_bind Hrun as employee_name Hen.
  split_bind Hrun as node_props Hnp. split_bind Hrun as rel_props Hrp.
  split_bind Hrun as key_value Hk.
  split_bind Hrun as r Hr. destruct r as [w tx1].
  assert (at_most_one_active
            (match_link Employee "name" key_value Branch "name" branch_name
               "WORKS_IN" tx1) i)
    by (apply match_link_at_most_one_active;
        by eapply corroborate_at_most_one_active).
  split_bind Hrun as role_type Hrole. destruct (truthy role_type).
  - split_bind Hrun as role_type_name Hrn. injection Hrun as <-.
    by apply match_merge_link_at_most_one_active.
  - by injection Hrun as <-.
Qed.

(** [if x and x.attr: MATCH ... MERGE ... MERGE] keeps the invariant. *)
Lemma classify_invariant (v : pyobj) (attr : string) la ka va lb kb rel tx tx' :
  at_most_one_active tx i →
  (if truthy v then
     name ← getattr v attr;
     if truthy name then
       key_value ← getattr name "value" ≫= as_key;
       Ok (match_merge_link la ka va lb kb key_value rel tx)
     else Ok tx
   else Ok tx) = Ok tx' →
  at_most_one_active tx' i.
Proof.
  intros Hinv. destruct (truthy v); [|by intros [= <-]]. intros Hrun.
  split_bind Hrun as name Hname.
  destruct (truthy name); [|by injection Hrun as <-].
  split_bind Hrun as key_value Hk. injection Hrun as <-.
  by apply match_merge_link_at_most_one_active.
Qed.

(** A transaction of the product ingestor that returns has kept the
    invariant. *)
Lemma tx_ingest_product_package_invariant tx package tx' :
  at_most_one_active tx i →
  _tx_ingest_product_package str_other tx package = Ok tx' →
  at_most_one_active tx' i.
Proof.
  intros Hinv%(mark_stale_at_most_one_active [Product; Condition; FAQ]
                 (url (metadata package))).
  unfold _tx_ingest_product_package. intros Hrun.
  split_bind Hrun as product Hproduct.
  destruct (negb (truthy product)); [by injection Hrun as <-|].
  split_bind Hrun as name Hname.
  destruct (negb (truthy name)); [by injection Hrun as <-|].
  split_bind Hrun as product_name Hpn.
  split_bind Hrun as node_props Hnp. split_bind Hrun as rel_props Hrp.
  split_bind Hrun as key_value Hk.
  split_bind Hrun as r Hr. destruct r as [w tx1].
  assert (Hinv1 : at_most_one_active tx1 i)
    by by eapply corroborate_at_most_one_active.
  split_bind Hrun as product_type Hpt. split_bind Hrun as tx2 Htx2.
  apply classify_invariant in Htx2; [|done].
  split_bind Hrun as risk_class Hrc. split_bind Hrun as tx3 Htx3.
  apply classify_invariant in Htx3; [|done].
  split_bind Hrun as conditions Hconds. split_bind Hrun as tx4 Htx4.
  assert (Hinv4 : at_most_one_active tx4 i).
  { eapply loop_if_any_invariant; [|exact Htx3|exact Htx4].
    intros s x s'. apply ingest_condition_invariant. }
  split_bind Hrun as faqs Hfaqs.
  eapply loop_if_any_invariant; [|exact Hinv4|exact Hrun].
  intros s x s'. apply ingest_faq_invariant.
Qed.

Lemma tx_ingest_branch_package_invariant tx package tx' :
  at_most_one_active tx i →
  _tx_ingest_branch_package tx package = Ok tx' →
  at_most_one_active tx' i.
Proof.
  intros Hinv%(mark_stale_at_most_one_active [Branch; Employee]
                 (url (metadata package))).
  unfold _tx_ingest_branch_package. intros Hrun.
  split_bind Hrun as branch Hbranch.
  destruct (negb (truthy branch)); [by injection Hrun as <-|].
  split_bind Hrun as name Hname.
  destruct (negb (truthy name)); [by injection Hrun as <-|].
  split_bind Hrun as branch_name Hbn.
  split_bind Hrun as node_props Hnp. split_bind Hrun as rel_props Hrp.
  split_bind Hrun as key_value Hk.
  split_bind Hrun as r Hr. destruct r as [w tx1].
  assert (Hinv1 : at_most_one_active tx1 i)
    by by eapply corroborate_at_most_one_active.
  split_bind Hrun as employees Hemp.
  eapply loop_if_any_invariant; [|exact Hinv1|exact Hrun].
  intros s x s'. apply ingest_employee_invariant.
Qed.

(** Whether the transaction commits or is rolled back, the store a package
    leaves behind has at most one active assertion per entity if the store
    it met had. *)
Lemma ingest_product_package_invariant db package :
  at_most_one_active db i →
  at_most_one_active (ingest_product_package str_other db package).1 i.
Proof.
  intros Hinv. unfold ingest_product_package, execute_write.
  destruct (_tx_ingest_product_package str_other db package) as [db'|e] eqn:Hrun;
    [|done].
  by eapply tx_ingest_product_package_invariant.
Qed.

Lemma ingest_branch_package_invariant db package :
  at_most_one_active db i →
  at_most_one_active (ingest_branch_package db package).1 i.
Proof.
  intros Hinv. unfold ingest_branch_package, execute_write.
  destruct (_tx_ingest_branch_package db package) as [db'|e] eqn:Hrun; [|done].
  by eapply tx_ingest_branch_package_invariant.
Qed.
End PackageInvariant.

(* ===================================================================== *)
(** ** Scenarios of the specification *)
(* ===================================================================== *)

(** Equal timestamps: a trust score of 0.95 beats the active 0.9, a trust
    score of 0.5 does not. *)
Example tie_broken_by_trust :
  fst <$> (match _tx_corroborate_and_ingest sample_store Product "name" "X"
                   {["name" := PStr "X"]} ∅ (sample_meta "B" 10 (95 # 100)) with
           | Ok r => Some r | Raise _ => None end) = Some true ∧
  fst <$> (match _tx_corroborate_and_ingest sample_store Product "name" "X"
                   {["name" := PStr "X"]} ∅ (sample_meta "B" 10 (5 # 10)) with
           | Ok r => Some r | Raise _ => None end) = Some false.
Proof. split; reflexivity. Qed.

(** Staleness: after the second batch the branch (node 0) and employee [X]
    (node 1) are active for [A], employee [Y] (node 3) is not. *)
Example omitted_employee_goes_stale :
  (λ k, is_active <$> from_source after_batch_1 !! k) <$> [(0, "A"); (1, "A"); (3, "A")]
    = [Some true; Some true; Some true] ∧
  (λ k, is_active <$> from_source after_batch_2 !! k) <$> [(0, "A"); (1, "A"); (3, "A")]
    = [Some true; Some true; Some false].
Proof. split; reflexivity. Qed.

(** The product page makes one Condition node, under the composite key,
    and none for the condition without a rate. *)
Example product_page_conditions :
  let db := (ingest_product_package (λ _, "") empty_graph product_page).1 in
  (λ n, n_props n !! "key") <$> filter (λ n, n_label n = Condition) (nodes db)
  = [Some (PStr "Sparbrief_5000_6")].
Proof. reflexivity. Qed.

(* ===================================================================== *)
(** ** More on the corroborator: what a win writes, what no call touches *)
(* ===================================================================== *)

Lemma nodes_merged_lookup label key key_value meta tx i n :
  nodes tx !! i = Some n →
  nodes (merged label key key_value meta tx) !! i = Some n.
Proof.
  intros Hi. unfold merged, merge_node.
  destruct (match_ids _ _ _ _); simpl; [|done].
  by apply lookup_app_l_Some.
Qed.

Lemma is_matched_merged label key key_value meta tx i :
  is_matched tx label key key_value i = true →
  is_matched (merged label key key_value meta tx) label key key_value i = true.
Proof.
  unfold is_matched. destruct (nodes tx !! i) as [n|] eqn:Hi; [|done].
  by rewrite (nodes_merged_lookup label key key_value meta tx i n Hi).
Qed.

Lemma corroborate_won_state tx label key key_value node_props rel_props meta tx' :
  _tx_corroborate_and_ingest tx label key key_value node_props rel_props meta
    = Ok (true, tx') →
  tx' = merge_from_source label key key_value (url meta)
          (stamped rel_props meta true)
          (set_node_and_deactivate label key key_value node_props
             (merged label key key_value meta tx)).
Proof. intros Hrun%corroborate_inv. exact Hrun. Qed.

Lemma corroborate_lost_state tx label key key_value node_props rel_props meta tx' :
  _tx_corroborate_and_ingest tx label key key_value node_props rel_props meta
    = Ok (false, tx') →
  tx' = merge_from_source label key key_value (url meta)
          (stamped rel_props meta false)
          (merged label key key_value meta tx).
Proof. intros Hrun%corroborate_inv. exact Hrun. Qed.

(** What a win writes.  With node properties that carry the key, the
    entity has a node afterwards; each of its nodes holds exactly the new
    properties (without the null ones), its relationship to the incoming
    source holds exactly the stamped assertion properties and is active,
    and every relationship it has to another source is inactive.  The
    source is known and no link has changed. *)
Theorem corroborate_won_effect tx label key key_value node_props rel_props
    meta tx' :
  node_props !! key = Some (PStr key_value) →
  _tx_corroborate_and_ingest tx label key key_value node_props rel_props meta
    = Ok (true, tx') →
  (∃ i, is_matched tx' label key key_value i = true) ∧
  (∀ i, is_matched tx' label key key_value i = true →
        n_props <$> nodes tx' !! i = Some (stored node_props) ∧
        from_source tx' !! (i, url meta)
          = Some (stored (stamped rel_props meta true)) ∧
        ∀ u r, u ≠ url meta → from_source tx' !! (i, u) = Some r →
               is_active r = false) ∧
  is_active (stored (stamped rel_props meta true)) = true ∧
  url meta ∈ sources tx' ∧
  links tx' = links tx.
Proof.
  intros Hkey Hrun. pose proof (corroborate_won_state _ _ _ _ _ _ _ _ Hrun) as ->.
  set (txm := merged label key key_value meta tx).
  assert (Hmatch : ∀ i,
    is_matched (merge_from_source label key key_value (url meta)
                  (stamped rel_props meta true)
                  (set_node_and_deactivate label key key_value node_props txm))
               label key key_value i
    = is_matched txm label key key_value i).
  { intros i. unfold is_matched at 1. rewrite nodes_merge_from_source.
    apply (is_matched_set_node_keyed label key key_value node_props txm i Hkey). }
  split; [|split; [|split; [|split]]].
  - destruct (merge_node_has_match label key key_value (merge_source (url meta) tx))
      as [i Hi]. exists i. by rewrite Hmatch.
  - intros i Hi. rewrite Hmatch in Hi. split; [|split].
    + rewrite nodes_merge_from_source. cbn [nodes set_node_and_deactivate].
      rewrite list_lookup_fmap. unfold is_matched in Hi.
      destruct (nodes txm !! i) as [n|]; [|done]. simpl. by rewrite Hi.
    + unfold txm in *.
      rewrite (won_lookup label key key_value node_props rel_props meta tx
                 (i, url meta) Hkey). cbn [fst snd].
      by rewrite Hi, bool_decide_eq_true_2.
    + intros u r Hu. unfold txm in *.
      rewrite (won_lookup label key key_value node_props rel_props meta tx
                 (i, u) Hkey). cbn [fst snd].
      rewrite Hi, (bool_decide_eq_false_2 (u = url meta)) by done. simpl.
      destruct (from_source tx !! (i, u)) as [r0|]; simpl; [|done].
      destruct (is_active r0) eqn:Ha; intros [= <-]; [|done].
      apply is_active_deactivate.
  - unfold stamped. apply is_active_stored_insert.
  - rewrite sources_merge_from_source. apply url_in_merged.
  - rewrite links_merge_from_source. cbn [links set_node_and_deactivate].
    unfold txm, merged. by rewrite links_merge_node.
Qed.

Lemma corroborate_won_effect_witness :
  n_props <$> nodes sample_won !! 0
    = Some (stored {["name" := PStr "X"; "description" := PStr "new"]}) ∧
  (∀ r, from_source sample_won !! (0, "A") = Some r → is_active r = false).
Proof.
  destruct (corroborate_won_effect sample_store Product "name" "X"
              {["name" := PStr "X"; "description" := PStr "new"]} ∅
              (sample_meta "B" 20 (1 # 10)) sample_won)
    as (_ & Hnode & _); [reflexivity|vm_compute; reflexivity|].
  destruct (Hnode 0) as (Hprops & _ & Hothers); [vm_compute; reflexivity|].
  split; [exact Hprops|]. intros r. apply Hothers. discriminate.
Defined.

(** What no call touches, whatever its outcome: a node that is not one of
    the entity stays as it is, with all its relationships. *)
Theorem corroborate_frame tx label key key_value node_props rel_props meta
    won tx' i n :
  _tx_corroborate_and_ingest tx label key key_value node_props rel_props meta
    = Ok (won, tx') →
  nodes tx !! i = Some n → node_matches label key key_value n = false →
  nodes tx' !! i = Some n ∧
  ∀ u, from_source tx' !! (i, u) = from_source tx !! (i, u).
Proof.
  intros Hrun Hi Hn.
  pose proof (nodes_merged_lookup label key key_value meta tx i n Hi) as Him.
  assert (Hnm : is_matched (merged label key key_value meta tx)
                           label key key_value i = false)
    by (unfold is_matched; by rewrite Him).
  destruct won.
  - pose proof (corroborate_won_state _ _ _ _ _ _ _ _ Hrun) as ->. split.
    + rewrite nodes_merge_from_source. cbn [nodes set_node_and_deactivate].
      rewrite list_lookup_fmap, Him. simpl. by rewrite Hn.
    + intros u. rewrite from_source_merge_from_source. cbn [fst snd].
      destruct (is_matched (set_node_and_deactivate _ _ _ _ _) label key
                  key_value i) eqn:Hs.
      { apply is_matched_set_node in Hs. congruence. }
      rewrite andb_false_r. cbn [andb].
      rewrite from_source_set_node_and_deactivate. cbn [fst snd].
      rewrite Hnm. unfold merged. rewrite from_source_merge_node.
      cbn [from_source merge_source andb].
      by destruct (from_source tx !! (i, u)).
  - pose proof (corroborate_lost_state _ _ _ _ _ _ _ _ Hrun) as ->. split.
    + by rewrite nodes_merge_from_source.
    + intros u. rewrite from_source_merge_from_source. cbn [fst snd].
      rewrite Hnm, andb_false_r. cbn [andb]. unfold merged.
      by rewrite from_source_merge_node.
Qed.

Lemma corroborate_frame_witness :
  nodes stale_won !! 1 = nodes stale_store !! 1 ∧
  from_source stale_won !! (1, "A") = from_source stale_store !! (1, "A").
Proof.
  destruct (corroborate_frame stale_store Product "name" "X"
              {["name" := PStr "X"]} ∅ (sample_meta "B" 20 (1 # 10)) true
              stale_won 1
              {| n_label := Product; n_props := {["name" := PStr "Y"]} |})
    as (Hnode & Hrel);
    [vm_compute; reflexivity|vm_compute; reflexivity|vm_compute; reflexivity|].
  split; [exact Hnode|]. apply Hrel.
Defined.

(* ===================================================================== *)
(** ** Exceptions of the corroborator, and stores on which it has none *)
(* ===================================================================== *)

Lemma has_stamps_spec (r : Props) :
  has_stamps r = true ↔
  (∃ t, r !! "retrieved_at" = Some (PTime t)) ∧
  (∃ q, r !! "trust_score" = Some (PFloat q)).
Proof.
  unfold has_stamps. split.
  - destruct (r !! "retrieved_at") as [[| | | | |t]|]; try done.
    destruct (r !! "trust_score") as [[| | |q| |]|]; try done. eauto.
  - intros [[t ->] [q ->]]. done.
Qed.

Lemma has_stamps_stamped rel_props meta active :
  has_stamps (stored (stamped rel_props meta active)) = true.
Proof.
  unfold has_stamps, stamped. rewrite !stored_lookup.
  rewrite (lookup_insert_ne _ "is_active" "retrieved_at") by done.
  rewrite (lookup_insert_ne _ "trust_score" "retrieved_at") by done.
  rewrite lookup_insert_eq.
  rewrite (lookup_insert_ne _ "is_active" "trust_score") by done.
  by rewrite lookup_insert_eq.
Qed.

Lemma has_stamps_deactivate r : has_stamps (deactivate r) = has_stamps r.
Proof. unfold has_stamps. by rewrite !deactivate_lookup_ne. Qed.

Lemma well_stamped_from_source tx tx' :
  from_source tx' = from_source tx → well_stamped tx → well_stamped tx'.
Proof. unfold well_stamped. by intros ->. Qed.

Lemma mark_stale_well_stamped labels u tx :
  well_stamped tx → well_stamped (mark_stale labels u tx).
Proof.
  unfold well_stamped. rewrite !map_Forall_lookup. intros Hws k r.
  rewrite from_source_mark_stale.
  destruct (from_source tx !! k) as [r0|] eqn:Hk; simpl; [|done].
  intros [= <-]. destruct (_ && _ && _); rewrite ?has_stamps_deactivate; eauto.
Qed.

Lemma corroborate_well_stamped tx label key key_value node_props rel_props
    meta won tx' :
  _tx_corroborate_and_ingest tx label key key_value node_props rel_props meta
    = Ok (won, tx') →
  well_stamped tx → well_stamped tx'.
Proof.
  unfold well_stamped. rewrite !map_Forall_lookup. intros Hrun Hws k r.
  apply corroborate_inv in Hrun. cbn zeta in Hrun. subst tx'.
  rewrite from_source_merge_from_source.
  destruct (_ && _ && bool_decide (k.2 = url meta)).
  { intros [= <-]. apply has_stamps_stamped. }
  destruct won.
  - rewrite from_source_set_node_and_deactivate, from_source_merge_node.
    cbn [from_source merge_source].
    destruct (from_source tx !! k) as [r0|] eqn:Hk; simpl; [|done].
    intros [= <-]. destruct (_ && _); rewrite ?has_stamps_deactivate; eauto.
  - rewrite from_source_merge_node. cbn [from_source merge_source]. eauto.
Qed.

Lemma corroborate_progress tx label key key_value node_props rel_props meta :
  well_stamped tx →
  ∃ won tx',
    _tx_corroborate_and_ingest tx label key key_value node_props rel_props meta
    = Ok (won, tx') ∧
    well_stamped tx'.
Proof.
  intros Hws.
  assert (∃ won tx', _tx_corroborate_and_ingest tx label key key_value
                       node_props rel_props meta = Ok (won, tx'))
    as (won & tx' & Hrun).
  { destruct (query_find_old tx label key key_value (url meta))
      as [|rec rest] eqn:Hq.
    - destruct (corroborate_unopposed tx label key key_value node_props
                  rel_props meta Hq) as [tx' Hrun]. eauto.
    - assert (Hin : rec ∈ query_find_old tx label key key_value (url meta))
        by (rewrite Hq; left).
      apply elem_of_query_find_old in Hin as (i & u & r & (Hr & _) & ->).
      unfold well_stamped in Hws. rewrite map_Forall_lookup in Hws.
      apply Hws, has_stamps_spec in Hr as [[t Ht] [q Htrust]].
      rewrite Ht, Htrust in Hq.
      destruct (corroborate_against tx label key key_value node_props
                  rel_props meta t q rest Hq) as [tx' Hrun]. eauto. }
  exists won, tx'. split; [done|]. by eapply corroborate_well_stamped.
Qed.

(** On a store whose relationships all carry a timestamp and a trust
    score, the corroborator returns, and the store it leaves is of that
    kind again. *)
Theorem corroborate_returns_when_stamped tx label key key_value node_props
    rel_props meta :
  well_stamped tx →
  ∃ won tx',
    _tx_corroborate_and_ingest tx label key key_value node_props rel_props meta
    = Ok (won, tx') ∧
    well_stamped tx'.
Proof. apply corroborate_progress. Qed.

Lemma corroborate_returns_when_stamped_witness :
  ∃ won tx',
    _tx_corroborate_and_ingest sample_store Product "name" "X"
      {["name" := PStr "X"]} ∅ (sample_meta "B" 20 (1 # 10)) = Ok (won, tx') ∧
    well_stamped tx'.
Proof.
  apply (corroborate_returns_when_stamped sample_store). compute_done.
Defined.

(** The exceptions of the corroborator.  Against a record without a
    timestamp the comparison raises [TypeError]; so it does when the
    timestamps are equal and the record has no number as trust score.  With
    unequal timestamps the trust score is not looked at: the call returns
    and the new assertion wins exactly when it is the later one. *)
Theorem corroborate_type_errors tx label key key_value node_props rel_props
    meta old_ts old_trust rest :
  query_find_old tx label key key_value (url meta)
    = (old_ts, old_trust) :: rest →
  ((∀ t, old_ts ≠ Some (PTime t)) →
   _tx_corroborate_and_ingest tx label key key_value node_props rel_props meta
   = Raise TypeError) ∧
  (old_ts = Some (PTime (retrieved_at meta)) →
   old_trust = None ∨ old_trust = Some PNull ∨
   (∃ s, old_trust = Some (PStr s)) ∨ (∃ t, old_trust = Some (PTime t)) →
   _tx_corroborate_and_ingest tx label key key_value node_props rel_props meta
   = Raise TypeError) ∧
  (∀ t0, old_ts = Some (PTime t0) → t0 ≠ retrieved_at meta →
   ∃ tx',
     _tx_corroborate_and_ingest tx label key key_value node_props rel_props meta
     = Ok ((t0 <? retrieved_at meta)%Z, tx')).
Proof.
  intros Hq. unfold _tx_corroborate_and_ingest. rewrite Hq.
  assert (single false ((old_ts, old_trust) :: rest) = Ok (Some (old_ts, old_trust)))
    as -> by by destruct rest.
  cbn [mbind result_bind]. split; [|split].
  - intros Hts. destruct old_ts as [[| | | | |t]|]; try done. by destruct (Hts t).
  - intros -> Htrust. cbn [py_gt_time mbind result_bind].
    rewrite Z.ltb_irrefl. cbn [py_eq_time]. rewrite Z.eqb_refl.
    by destruct Htrust as [->|[->|[[s ->]|[t ->]]]].
  - intros t0 -> Hne. cbn [py_gt_time mbind result_bind].
    destruct (t0 <? retrieved_at meta)%Z; [by eexists|].
    cbn [py_eq_time].
    rewrite (proj2 (Z.eqb_neq (retrieved_at meta) t0)) by done.
    by eexists.
Qed.

Lemma corroborate_type_errors_witness :
  _tx_corroborate_and_ingest unstamped_store Product "name" "X"
    {["name" := PStr "X"]} ∅ (sample_meta "B" 20 (1 # 10)) = Raise TypeError.
Proof.
  destruct (corroborate_type_errors unstamped_store Product "name" "X"
              {["name" := PStr "X"]} ∅ (sample_meta "B" 20 (1 # 10))
              None None []) as [Hts _]; [reflexivity|].
  apply Hts. discriminate.
Defined.

(* ===================================================================== *)
(** ** The staleness check: nothing of the source stays active *)
(* ===================================================================== *)

Lemma has_label_mark_stale labels u labels' tx i :
  has_label (mark_stale labels u tx) labels' i = has_label tx labels' i.
Proof. reflexivity. Qed.

(** After the staleness check no relationship from the source to a node
    of the labels is active, and a second check changes nothing. *)
Theorem mark_stale_settles (labels : list Label) (source_url : string)
    (tx : Graph) :
  (∀ i r, from_source (mark_stale labels source_url tx) !! (i, source_url) = Some r →
          has_label tx labels i = true → is_active r = false) ∧
  mark_stale labels source_url (mark_stale labels source_url tx)
  = mark_stale labels source_url tx.
Proof.
  split.
  - intros i r. rewrite from_source_mark_stale. cbn [fst snd].
    destruct (from_source tx !! (i, source_url)) as [r0|]; simpl; [|done].
    intros [= <-] ->. rewrite bool_decide_eq_true_2 by done.
    destruct (is_active r0) eqn:Ha; simpl; [apply is_active_deactivate|done].
  - apply graph_eq; try done. apply map_eq. intros k.
    rewrite from_source_mark_stale, has_label_mark_stale, from_source_mark_stale.
    destruct (from_source tx !! k) as [r0|]; simpl; [|done]. f_equal.
    destruct (has_label tx labels k.1 && is_active r0 &&
              bool_decide (k.2 = source_url)) eqn:Hc; [|by rewrite Hc].
    by rewrite is_active_deactivate, andb_false_r.
Qed.

Lemma mark_stale_settles_witness :
  is_active <$> from_source stale_store !! (0, "A") = Some true ∧
  ∃ r, from_source (mark_stale [Product; Condition; FAQ] "A" stale_store)
         !! (0, "A") = Some r ∧ is_active r = false.
Proof.
  destruct (mark_stale_settles [Product; Condition; FAQ] "A" stale_store)
    as [Hoff _].
  split; [reflexivity|].
  destruct (from_source (mark_stale [Product; Condition; FAQ] "A" stale_store)
              !! (0, "A")) as [r|] eqn:Hr; [|vm_compute in Hr; discriminate].
  exists r. split; [done|]. apply (Hoff 0 r Hr). reflexivity.
Defined.

(* ===================================================================== *)
(** ** What every statement keeps, the packages keep *)
(* ===================================================================== *)

Section PackagePreserves.
Variable str_other : pyobj → string.
Variable Q : Graph → Prop.
Hypothesis Q_corroborate :
  ∀ tx label key key_value node_props rel_props meta won tx',
    _tx_corroborate_and_ingest tx label key key_value node_props rel_props meta
      = Ok (won, tx') → Q tx → Q tx'.
Hypothesis Q_mark_stale : ∀ labels u tx, Q tx → Q (mark_stale labels u tx).
Hypothesis Q_match_link :
  ∀ la ka va lb kb vb rel tx, Q tx → Q (match_link la ka va lb kb vb rel tx).
Hypothesis Q_match_merge_link :
  ∀ la ka va lb kb vb rel tx,
    Q tx → Q (match_merge_link la ka va lb kb vb rel tx).

Lemma loop_if_any_preserves (body : Graph → pyobj → result Graph) tx xs tx' :
  (∀ s x s', Q s → body s x = Ok s' → Q s') →
  Q tx → loop_if_any body tx xs = Ok tx' → Q tx'.
Proof using All.
  intros Hbody Hq. unfold loop_if_any. destruct (truthy xs).
  - intros Hrun. split_bind Hrun as items Hitems.
    by apply (for_each_invariant Q body items Hbody tx tx').
  - by intros [= <-].
Qed.

Lemma ingest_condition_preserves meta product_name tx condition tx' :
  Q tx → ingest_condition str_other meta product_name tx condition = Ok tx' →
  Q tx'.
Proof using All.
  intros Hq. unfold ingest_condition.
  destruct (is_none condition); [by intros [= <-]|]. intros Hrun.
  split_bind Hrun as rate Hrate.
  destruct (is_none rate); [by injection Hrun as <-|].
  split_bind Hrun as min_amount Hmin. split_bind Hrun as term_years Hterm.
  split_bind Hrun as node_props Hnp. split_bind Hrun as rel_props Hrp.
  split_bind Hrun as r Hr. destruct r as [w tx1].
  injection Hrun as <-. apply Q_match_link. by eapply Q_corroborate.
Qed.

Lemma ingest_faq_preserves meta product_name tx faq tx' :
  Q tx → ingest_faq meta product_name tx faq = Ok tx' → Q tx'.
Proof using All.
  intros Hq. unfold ingest_faq.
  destruct (is_none faq); [by intros [= <-]|]. intros Hrun.
  split_bind Hrun as question Hquestion.
  destruct (is_none question); [by injection Hrun as <-|].
  split_bind Hrun as question_value Hqv.
  split_bind Hrun as node_props Hnp. split_bind Hrun as rel_props Hrp.
  split_bind Hrun as key_value Hk.
  split_bind Hrun as r Hr. destruct r as [w tx1].
  injection Hrun as <-. apply Q_match_link. by eapply Q_corroborate.
Qed.

Lemma ingest_employee_preserves meta branch_name tx employee tx' :
  Q tx → ingest_employee meta branch_name tx employee = Ok tx' → Q tx'.
Proof using All.
  intros Hq. unfold ingest_employee.
  destruct (is_none employee); [by intros [= <-]|]. intros Hrun.
  split_bind Hrun as name Hname.
  destruct (is_none name); [by injection Hrun as <-|].
  split_bind Hrun as employee_name Hen.
  split_bind Hrun as node_props Hnp. split_bind Hrun as rel_props Hrp.
  split_bind Hrun as key_value Hk.
  split_bind Hrun as r Hr. destruct r as [w tx1].
  assert (Q (match_link Employee "name" key_value Branch "name" branch_name
               "WORKS_IN" tx1))
    by (apply Q_match_link; by eapply Q_corroborate).
  split_bind Hrun as role_type Hrole. destruct (truthy role_type).
  - split_bind Hrun as role_type_name Hrn. injection Hrun as <-.
    by apply Q_match_merge_link.
  - by injection Hrun as <-.
Qed.

Lemma classify_preserves (v : pyobj) (attr : string) la ka va lb kb rel tx tx' :
  Q tx →
  (if truthy v then
     name ← getattr v attr;
     if truthy name then
       key_value ← getattr name "value" ≫= as_key;
       Ok (match_merge_link la ka va lb kb key_value rel tx)
     else Ok tx
   else Ok tx) = Ok tx' →
  Q tx'.
Proof using All.
  intros Hq. destruct (truthy v); [|by intros [= <-]]. intros Hrun.
  split_bind Hrun as name Hname.
  destruct (truthy name); [|by injection Hrun as <-].
  split_bind Hrun as key_value Hk. injection Hrun as <-.
  by apply Q_match_merge_link.
Qed.

Lemma tx_ingest_product_package_preserves tx package tx' :
  Q tx → _tx_ingest_product_package str_other tx package = Ok tx' → Q tx'.
Proof using All.
  intros Hq%(Q_mark_stale [Product; Condition; FAQ] (url (metadata package))).
  unfold _tx_ingest_product_package. intros Hrun.
  split_bind Hrun as product Hproduct.
  destruct (negb (truthy product)); [by injection Hrun as <-|].
  split_bind Hrun as name Hname.
  destruct (negb (truthy name)); [by injection Hrun as <-|].
  split_bind Hrun as product_name Hpn.
  split_bind Hrun as node_props Hnp. split_bind Hrun as rel_props Hrp.
  split_bind Hrun as key_value Hk.
  split_bind Hrun as r Hr. destruct r as [w tx1].
  assert (Hq1 : Q tx1) by by eapply Q_corroborate.
  split_bind Hrun as product_type Hpt. split_bind Hrun as tx2 Htx2.
  apply classify_preserves in Htx2; [|done].
  split_bind Hrun as risk_class Hrc. split_bind Hrun as tx3 Htx3.
  apply classify_preserves in Htx3; [|done].
  split_bind Hrun as conditions Hconds. split_bind Hrun as tx4 Htx4.
  assert (Hq4 : Q tx4).
  { eapply loop_if_any_preserves; [|exact Htx3|exact Htx4].
    intros s x s'. apply ingest_condition_preserves. }
  split_bind Hrun as faqs Hfaqs.
  eapply loop_if_any_preserves; [|exact Hq4|exact Hrun].
  intros s x s'. apply ingest_faq_preserves.
Qed.

Lemma tx_ingest_branch_package_preserves tx package tx' :
  Q tx → _tx_ingest_branch_package tx package = Ok tx' → Q tx'.
Proof using All.
  intros Hq%(Q_mark_stale [Branch; Employee] (url (metadata package))).
  unfold _tx_ingest_branch_package. intros Hrun.
  split_bind Hrun as branch Hbranch.
  destruct (negb (truthy branch)); [by injection Hrun as <-|].
  split_bind Hrun as name Hname.
  destruct (negb (truthy name)); [by injection Hrun as <-|].
  split_bind Hrun as branch_name Hbn.
  split_bind Hrun as node_props Hnp. split_bind Hrun as rel_props Hrp.
  split_bind Hrun as key_value Hk.
  split_bind Hrun as r Hr. destruct r as [w tx1].
  assert (Hq1 : Q tx1) by by eapply Q_corroborate.
  split_bind Hrun as employees Hemp.
  eapply loop_if_any_preserves; [|exact Hq1|exact Hrun].
  intros s x s'. apply ingest_employee_preserves.
Qed.

Lemma ingest_product_package_preserves db package :
  Q db → Q (ingest_product_package str_other db package).1.
Proof using All.
  intros Hq. unfold ingest_product_package, execute_write.
  destruct (_tx_ingest_product_package str_other db package) as [db'|e] eqn:Hrun;
    [|done].
  by eapply tx_ingest_product_package_preserves.
Qed.

Lemma ingest_branch_package_preserves db package :
  Q db → Q (ingest_branch_package db package).1.
Proof using All.
  intros Hq. unfold ingest_branch_package, execute_write.
  destruct (_tx_ingest_branch_package db package) as [db'|e] eqn:Hrun; [|done].
  by eapply tx_ingest_branch_package_preserves.
Qed.

Lemma ingest_fake_data_preserves db : Q db → Q (ingest_fake_data db).
Proof using All.
  intros Hq. unfold ingest_fake_data.
  destruct (_ ≫= _) as [[node_props rel_props]|e]; [|done].
  pose proof (Q_mark_stale [Condition] fake_url db Hq) as Hq1.
  destruct (_tx_corroborate_and_ingest _ _ _ _ _ _ _) as [[w db2]|e] eqn:Hrun;
    [|done].
  apply Q_match_link. by eapply Q_corroborate.
Qed.
End PackagePreserves.

(* ===================================================================== *)
(** ** Ingestion deletes nothing *)
(* ===================================================================== *)

Lemma grows_refl tx : grows tx tx.
Proof. unfold grows. split; [eauto|]. done. Qed.

Lemma grows_trans tx1 tx2 tx3 : grows tx1 tx2 → grows tx2 tx3 → grows tx1 tx3.
Proof.
  intros (Hn1 & Hs1 & Hr1 & Hl1) (Hn2 & Hs2 & Hr2 & Hl2).
  split; [|split; [|split]].
  - intros i n Hi. destruct (Hn1 i n Hi) as (n' & Hi' & Hlab).
    destruct (Hn2 i n' Hi') as (n'' & Hi'' & Hlab'). exists n''.
    split; [done|congruence].
  - set_solver.
  - eauto.
  - set_solver.
Qed.

Lemma grows_mark_stale labels u tx : grows tx (mark_stale labels u tx).
Proof.
  split; [eauto|]. split; [done|]. split; [|done].
  intros k [r Hr]. rewrite from_source_mark_stale, Hr. by eexists.
Qed.

Lemma grows_merge_node label key key_value tx :
  grows tx (merge_node label key key_value tx).
Proof.
  unfold merge_node. destruct (match_ids _ _ _ _); [|apply grows_refl].
  split; [|done]. intros i n Hi. exists n. split; [|done]. simpl.
  by apply lookup_app_l_Some.
Qed.

Lemma grows_merge_source u tx : grows tx (merge_source u tx).
Proof. split; [eauto|]. split; [|done]. simpl. set_solver. Qed.

Lemma grows_set_node_and_deactivate label key key_value node_props tx :
  grows tx (set_node_and_deactivate label key key_value node_props tx).
Proof.
  split; [|split; [done|split; [|done]]].
  - intros i n Hi. cbn [nodes set_node_and_deactivate].
    rewrite list_lookup_fmap, Hi. simpl. eexists. split; [done|].
    by destruct (node_matches label key key_value n).
  - intros k [r Hr]. rewrite from_source_set_node_and_deactivate, Hr. by eexists.
Qed.

Lemma grows_merge_from_source label key key_value u rel_props tx :
  grows tx (merge_from_source label key key_value u rel_props tx).
Proof.
  split; [|split; [|split]].
  - rewrite nodes_merge_from_source. eauto.
  - by rewrite sources_merge_from_source.
  - intros k Hk. rewrite from_source_merge_from_source.
    by destruct (_ && _ && _).
  - by rewrite links_merge_from_source.
Qed.

Lemma grows_add_links rel froms tos tx : grows tx (add_links rel froms tos tx).
Proof. split; [eauto|]. split; [done|]. split; [done|]. simpl. set_solver. Qed.

Lemma grows_match_merge_link la ka va lb kb vb rel tx :
  grows tx (match_merge_link la ka va lb kb vb rel tx).
Proof.
  unfold match_merge_link. destruct (match_ids tx la ka va); [apply grows_refl|].
  eapply grows_trans; [apply grows_merge_node|apply grows_add_links].
Qed.

Lemma grows_corroborate tx label key key_value node_props rel_props meta won tx' :
  _tx_corroborate_and_ingest tx label key key_value node_props rel_props meta
    = Ok (won, tx') →
  grows tx tx'.
Proof.
  intros Hrun%corroborate_inv. cbn zeta in Hrun. subst tx'.
  assert (grows tx (merge_node label key key_value (merge_source (url meta) tx)))
    by (eapply grows_trans; [apply grows_merge_source|apply grows_merge_node]).
  eapply grows_trans; [|apply grows_merge_from_source].
  destruct won; [|done].
  eapply grows_trans; [done|apply grows_set_node_and_deactivate].
Qed.

(** Ingestion deletes nothing.  Whatever a package holds and whether its
    transaction commits or is rolled back, every node of the store is
    still there afterwards under its label, and so is every source, every
    [FROM_SOURCE] relationship and every other relationship; the same holds
    for the fake condition. *)
Theorem ingestion_deletes_nothing (str_other : pyobj → string) (db : Graph)
    (package : ExtractionPackage) :
  grows db (ingest_product_package str_other db package).1 ∧
  grows db (ingest_branch_package db package).1 ∧
  grows db (ingest_fake_data db).
Proof.
  assert (Hc : ∀ tx label key key_value node_props rel_props meta won tx',
    _tx_corroborate_and_ingest tx label key key_value node_props rel_props meta
      = Ok (won, tx') → grows db tx → grows db tx')
    by (intros; eapply grows_trans; [done|by eapply grows_corroborate]).
  assert (Hm : ∀ labels u tx, grows db tx → grows db (mark_stale labels u tx))
    by (intros; eapply grows_trans; [done|apply grows_mark_stale]).
  assert (Hl : ∀ la ka va lb kb vb rel tx,
    grows db tx → grows db (match_link la ka va lb kb vb rel tx))
    by (intros; eapply grows_trans; [done|apply grows_add_links]).
  assert (Hml : ∀ la ka va lb kb vb rel tx,
    grows db tx → grows db (match_merge_link la ka va lb kb vb rel tx))
    by (intros; eapply grows_trans; [done|apply grows_match_merge_link]).
  split; [|split].
  - apply (ingest_product_package_preserves str_other (grows db) Hc Hm Hl Hml).
    apply grows_refl.
  - apply (ingest_branch_package_preserves str_other (grows db) Hc Hm Hl Hml).
    apply grows_refl.
  - apply (ingest_fake_data_preserves str_other (grows db) Hc Hm Hl Hml).
    apply grows_refl.
Qed.

(* ===================================================================== *)
(** ** Packages of the schema's shape are ingested without exception *)
(* ===================================================================== *)

Lemma from_source_match_merge_link la ka va lb kb vb rel tx :
  from_source (match_merge_link la ka va lb kb vb rel tx) = from_source tx.
Proof.
  unfold match_merge_link. destruct (match_ids tx la ka va); [done|].
  cbn [add_links from_source]. apply from_source_merge_node.
Qed.

Lemma for_each_returns {A S} (P : A → Prop) (Inv : S → Prop)
    (body : S → A → result S) (l : list A) :
  (∀ s x, Inv s → P x → ∃ s', body s x = Ok s' ∧ Inv s') →
  ∀ s, Inv s → Forall P l → ∃ s', for_each body s l = Ok s' ∧ Inv s'.
Proof.
  intros Hbody s Hs Hl. revert s Hs.
  induction Hl as [|x l Hx _ IH]; intros s Hs; simpl; [eauto|].
  destruct (Hbody s x Hs Hx) as (s1 & -> & Hs1). simpl. by apply IH.
Qed.

Lemma get_node_props_model fields :
  get_node_props (OModel fields) = Ok (foldl node_prop_step ∅ fields).
Proof. reflexivity. Qed.

Lemma get_rel_props_model fields :
  get_rel_props (OModel fields) = Ok (foldl rel_prop_step ∅ fields).
Proof. reflexivity. Qed.

Section PackageReturns.
Variable str_other : pyobj → string.

Lemma loop_if_any_returns (P : pyobj → Prop)
    (body : Graph → pyobj → result Graph) tx xs :
  (∀ s x, well_stamped s → P x → ∃ s', body s x = Ok s' ∧ well_stamped s') →
  optional_list P xs → well_stamped tx →
  ∃ tx', loop_if_any body tx xs = Ok tx' ∧ well_stamped tx'.
Proof.
  intros Hbody [->|(items & -> & Hitems)] Hws; [by exists tx|].
  unfold loop_if_any. destruct items as [|x items]; [by exists tx|].
  cbn [truthy iter mbind result_bind].
  by apply (for_each_returns P well_stamped).
Qed.

Lemma ingest_condition_returns meta product_name tx condition :
  typed_condition condition → well_stamped tx →
  ∃ tx', ingest_condition str_other meta product_name tx condition = Ok tx' ∧
         well_stamped tx'.
Proof.
  intros [->|(type & min_amount & max_amount & term_years & rate & ->)] Hws;
    [by exists tx|].
  unfold ingest_condition.
  change (is_none (ConditionModel _ _ _ _ _)) with false. cbv iota.
  change (getattr (ConditionModel type min_amount max_amount term_years rate)
            "interest_rate") with (Ok rate).
  change (getattr (ConditionModel type min_amount max_amount term_years rate)
            "min_amount") with (Ok min_amount).
  change (getattr (ConditionModel type min_amount max_amount term_years rate)
            "term_years") with (Ok term_years).
  cbn [mbind result_bind]. destruct (is_none rate); [by exists tx|].
  unfold ConditionModel. rewrite get_node_props_model, get_rel_props_model.
  cbn [mbind result_bind].
  match goal with
  | |- context [_tx_corroborate_and_ingest tx ?l ?k ?v ?np ?rp ?m] =>
      destruct (corroborate_progress tx l k v np rp m Hws)
        as (won & tx1 & -> & Hws1)
  end.
  cbn [mbind result_bind]. eexists. split; [done|].
  by apply (well_stamped_from_source tx1).
Qed.

Lemma ingest_faq_returns meta product_name tx faq :
  typed_faq claim_or_none faq → well_stamped tx →
  ∃ tx', ingest_faq meta product_name tx faq = Ok tx' ∧ well_stamped tx'.
Proof.
  intros [->|(question & answer & -> & Hq)] Hws; [by exists tx|].
  unfold ingest_faq.
  change (is_none (FAQModel _ _)) with false. cbv iota.
  change (getattr (FAQModel question answer) "question") with (Ok question).
  cbn [mbind result_bind].
  destruct Hq as [->|(s & e & ->)]; [by exists tx|].
  cbn [is_none]. cbv iota.
  change (getattr (OFact {| value := Some s; evidence := e |}) "value")
    with (Ok (OAtom (PStr s))).
  unfold FAQModel. rewrite get_node_props_model, get_rel_props_model.
  cbn [mbind result_bind as_key].
  match goal with
  | |- context [_tx_corroborate_and_ingest tx ?l ?k ?v ?np ?rp ?m] =>
      destruct (corroborate_progress tx l k v np rp m Hws)
        as (won & tx1 & -> & Hws1)
  end.
  cbn [mbind result_bind]. eexists. split; [done|].
  by apply (well_stamped_from_source tx1).
Qed.

Lemma ingest_employee_returns meta branch_name tx employee :
  typed_employee claim_or_none employee → well_stamped tx →
  ∃ tx', ingest_employee meta branch_name tx employee = Ok tx' ∧
         well_stamped tx'.
Proof.
  intros [->|(name & email & phone & role & -> & Hn)] Hws; [by exists tx|].
  unfold ingest_employee.
  change (is_none (EmployeeModel _ _ _ _)) with false. cbv iota.
  change (getattr (EmployeeModel name email phone (OEnum role)) "name")
    with (Ok name).
  change (getattr (EmployeeModel name email phone (OEnum role)) "role_type")
    with (Ok (OEnum role)).
  cbn [mbind result_bind].
  destruct Hn as [->|(s & e & ->)]; [by exists tx|].
  cbn [is_none]. cbv iota.
  change (getattr (OFact {| value := Some s; evidence := e |}) "value")
    with (Ok (OAtom (PStr s))).
  unfold EmployeeModel. rewrite get_node_props_model, get_rel_props_model.
  cbn [mbind result_bind as_key].
  match goal with
  | |- context [_tx_corroborate_and_ingest tx ?l ?k ?v ?np ?rp ?m] =>
      destruct (corroborate_progress tx l k v np rp m Hws)
        as (won & tx1 & -> & Hws1)
  end.
  cbn [mbind result_bind]. destruct (truthy (OEnum role)).
  - change (getattr (OEnum role) "value") with (Ok (OAtom (PStr role))).
    cbn [mbind result_bind as_key]. eexists. split; [done|].
    apply (well_stamped_from_source tx1); [|done].
    by rewrite from_source_match_merge_link.
  - eexists. split; [done|]. by apply (well_stamped_from_source tx1).
Qed.

(** [if x and x.attr: ...] on a model with an enum attribute. *)
Lemma classify_returns (v : pyobj) (attr tag : string) la ka va lb kb rel tx :
  truthy v = true → getattr v attr = Ok (OEnum tag) → well_stamped tx →
  ∃ tx',
    (if truthy v then
       name ← getattr v attr;
       if truthy name then
         key_value ← getattr name "value" ≫= as_key;
         Ok (match_merge_link la ka va lb kb key_value rel tx)
       else Ok tx
     else Ok tx) = Ok tx' ∧ well_stamped tx'.
Proof.
  intros -> -> Hws. cbn [mbind result_bind]. destruct (truthy (OEnum tag)).
  - change (getattr (OEnum tag) "value") with (Ok (OAtom (PStr tag))).
    cbn [mbind result_bind as_key]. eexists. split; [done|].
    apply (well_stamped_from_source tx); [|done].
    apply from_source_match_merge_link.
  - by exists tx.
Qed.

Lemma tx_ingest_product_package_returns tx package :
  typed_product_data claim_or_none (data package) → well_stamped tx →
  ∃ tx', _tx_ingest_product_package str_other tx package = Ok tx' ∧
         well_stamped tx'.
Proof.
  intros (name & description & type_tag & risk_tag & conditions & faqs &
          Hd & Hname & Hconds & Hfaqs) Hws.
  apply (mark_stale_well_stamped [Product; Condition; FAQ]
           (url (metadata package))) in Hws.
  unfold _tx_ingest_product_package. rewrite Hd.
  rewrite !getattr_KnowledgeGraphData_product,
          !getattr_KnowledgeGraphData_product_type,
          !getattr_KnowledgeGraphData_risk_class,
          !getattr_KnowledgeGraphData_conditions,
          !getattr_KnowledgeGraphData_faqs.
  cbn [mbind result_bind].
  change (truthy (ProductModel name description)) with true. cbn [negb].
  change (getattr (ProductModel name description) "name") with (Ok name).
  cbn [mbind result_bind].
  destruct Hname as [->|(s & e & ->)]; [by eexists|].
  cbn [truthy negb].
  change (getattr (OFact {| value := Some s; evidence := e |}) "value")
    with (Ok (OAtom (PStr s))).
  unfold ProductModel at 1 2. rewrite get_node_props_model, get_rel_props_model.
  cbn [mbind result_bind as_key].
  match goal with
  | |- context [_tx_corroborate_and_ingest ?t ?l ?k ?v ?np ?rp ?m] =>
      destruct (corroborate_progress t l k v np rp m Hws)
        as (won & tx1 & -> & Hws1)
  end.
  cbn [mbind result_bind].
  match goal with
  | |- context [mbind _ (if truthy (ProductTypeModel _) then _ else _)] =>
      edestruct (classify_returns (ProductTypeModel (OEnum type_tag)) "name"
                   type_tag Product "name" s ProductType "name"
                   "HAS_PRODUCT_TYPE" tx1) as (tx2 & -> & Hws2);
        [reflexivity|reflexivity|done|]
  end.
  cbn [mbind result_bind].
  edestruct (classify_returns (RiskClassModel (OEnum risk_tag)) "risk_class"
               risk_tag Product "name" s RiskClass "risk_class"
               "HAS_RISK_CLASS" tx2) as (tx3 & -> & Hws3);
    [reflexivity|reflexivity|done|].
  cbn [mbind result_bind].
  destruct (loop_if_any_returns typed_condition
              (ingest_condition str_other (metadata package) s) tx3 conditions)
    as (tx4 & -> & Hws4); [|done|done|].
  { intros s0 x Hs0 Hx. by apply ingest_condition_returns. }
  cbn [mbind result_bind].
  apply (loop_if_any_returns (typed_faq claim_or_none)); [|done|done].
  intros s0 x Hs0 Hx. by apply ingest_faq_returns.
Qed.

Lemma tx_ingest_branch_package_returns tx package :
  typed_branch_data claim_or_none (data package) → well_stamped tx →
  ∃ tx', _tx_ingest_branch_package tx package = Ok tx' ∧ well_stamped tx'.
Proof.
  intros (name & address & employees & Hd & Hname & Hemps) Hws.
  apply (mark_stale_well_stamped [Branch; Employee]
           (url (metadata package))) in Hws.
  unfold _tx_ingest_branch_package. rewrite Hd.
  change (getattr (BranchData (BranchModel name address employees)) "branch")
    with (Ok (BranchModel name address employees)).
  cbn [mbind result_bind].
  change (truthy (BranchModel name address employees)) with true. cbn [negb].
  change (getattr (BranchModel name address employees) "name") with (Ok name).
  change (getattr (BranchModel name address employees) "employees")
    with (Ok employees).
  cbn [mbind result_bind].
  destruct Hname as [->|(s & e & ->)]; [by eexists|].
  cbn [truthy negb].
  change (getattr (OFact {| value := Some s; evidence := e |}) "value")
    with (Ok (OAtom (PStr s))).
  unfold BranchModel at 1 2. rewrite get_node_props_model, get_rel_props_model.
  cbn [mbind result_bind as_key].
  match goal with
  | |- context [_tx_corroborate_and_ingest ?t ?l ?k ?v ?np ?rp ?m] =>
      destruct (corroborate_progress t l k v np rp m Hws)
        as (won & tx1 & -> & Hws1)
  end.
  cbn [mbind result_bind].
  apply (loop_if_any_returns (typed_employee claim_or_none)); [|done|done].
  intros s0 x Hs0 Hx. by apply ingest_employee_returns.
Qed.
End PackageReturns.

(* ===================================================================== *)
(** ** More on the grounder: the questions it asks, and what survives *)
(* ===================================================================== *)

Lemma questions_flat_map {A} (h : A → list ProvableFact) (l : list A) :
  question_of <$> filter usable (flat_map h l)
  = flat_map (λ x, question_of <$> filter usable (h x)) l.
Proof.
  induction l as [|x l IH]; simpl; [done|].
  by rewrite filter_app, fmap_app, IH.
Qed.

Lemma map_st_relates {A B S} (R : A → B → Prop) (f : A → S → B * S)
    (l : list A) :
  Forall (λ x, ∀ s, R x (f x s).1) l →
  ∀ s, Forall2 R l (map_st f l s).1.
Proof.
  induction 1 as [|x l Hx _ IH]; intros s; simpl; [constructor|].
  specialize (Hx s). destruct (f x s) as [y s1]. specialize (IH s1).
  destruct (map_st f l s1) as [ys s2]. by constructor.
Qed.

Lemma map_st_fixed {A S} (f : A → S → A * S) (l : list A) :
  Forall (λ x, ∀ s, (f x s).1 = x) l → ∀ s, (map_st f l s).1 = l.
Proof.
  induction 1 as [|x l Hx _ IH]; intros s; simpl; [done|].
  specialize (Hx s). destruct (f x s) as [y s1]. specialize (IH s1).
  destruct (map_st f l s1) as [ys s2]. simpl in *. congruence.
Qed.

Section GrounderLog.
Context {World : Type}.
Variable ask : World → string → string → bool * World.

Lemma map_st_asked {A B} (q : A → list (string * string))
    (f : A → GState World → B * GState World) (l : list A) :
  Forall (λ x, ∀ g, asked (f x g).2 = asked g ++ q x) l →
  ∀ g, asked (map_st f l g).2 = asked g ++ flat_map q l.
Proof.
  induction 1 as [|x l Hx _ IH]; intros g; simpl; [by rewrite app_nil_r|].
  specialize (Hx g). destruct (f x g) as [y g1]. specialize (IH g1).
  destruct (map_st f l g1) as [ys g2]. simpl in *.
  by rewrite IH, Hx, app_assoc.
Qed.

Lemma ground_field_asked v :
  ∀ g, asked (ground_field ask v g).2 = asked g ++ questions_of v.
Proof.
  induction v as [a|tag|f|fields IH|items IH] using pyobj_tree_ind; intros g.
  - unfold questions_of. simpl. by rewrite app_nil_r.
  - unfold questions_of. simpl. by rewrite app_nil_r.
  - unfold questions_of. cbn [walked_facts ground_field].
    destruct (decide (usable f)) as [Hu|Hu].
    + rewrite filter_cons_True, filter_nil by done.
      destruct Hu as [-> ->]. cbn [orb]. unfold is_fact_grounded.
      destruct (ask (world g) _ _) as [b w]. by destruct b.
    + rewrite filter_cons_False, filter_nil by done.
      assert (falsy_str (value f) || falsy_str (evidence f) = true) as ->.
      { unfold usable in Hu. destruct (falsy_str (value f)); [done|].
        destruct (falsy_str (evidence f)); [done|]. by destruct Hu. }
      simpl. by rewrite app_nil_r.
  - cbn [ground_field]. unfold questions_of. cbn [walked_facts].
    rewrite questions_flat_map.
    pose proof (map_st_asked (λ kv : string * pyobj, questions_of kv.2)
      (λ kv g, let '(v', g') := ground_field ask kv.2 g in ((kv.1, v'), g'))
      fields) as Hloop.
    match type of Hloop with ?A → _ => assert (HF : A) end.
    { eapply Forall_impl; [exact IH|]. intros [k v] Hv g0. simpl in *.
      rewrite <- Hv. by destruct (ground_field ask v g0). }
    specialize (Hloop HF g). unfold questions_of in Hloop. rewrite <- Hloop.
    by destruct (map_st _ fields g).
  - cbn [ground_field]. unfold questions_of. cbn [walked_facts].
    rewrite questions_flat_map.
    pose proof (map_st_asked
      (λ item : pyobj, question_of <$> filter usable
                         (match item with
                          | OModel _ => walked_facts item
                          | _ => []
                          end))
      (λ item g, match item with
                 | OModel _ => ground_field ask item g
                 | _ => (item, g)
                 end)
      items) as Hloop.
    match type of Hloop with ?A → _ => assert (HF : A) end.
    { eapply Forall_impl; [exact IH|]. intros item Hitem g0.
      destruct item; simpl; rewrite ?app_nil_r; try done. apply Hitem. }
    specialize (Hloop HF g). rewrite <- Hloop.
    by destruct (map_st _ items g).
Qed.

(** The oracle is asked once for every usable claim the pass comes by, in
    the order of the fields, and for nothing else.  The answers have no
    part in it: a claim the oracle rejects is asked about all the same,
    and so are the claims after it. *)
Theorem grounding_asks_each_usable_claim_once (package : ExtractionPackage)
    (g : GState World) :
  (∃ fields, data package = OModel fields) →
  asked (ground_package ask package g).2
  = asked g ++ questions_of (data package).
Proof.
  intros [fields Hd]. unfold ground_package, _ground_model_recursive.
  rewrite Hd. rewrite <- ground_field_asked.
  by destruct (ground_field ask (OModel fields) g).
Qed.
End GrounderLog.

Lemma grounding_asks_each_usable_claim_once_witness :
  asked (ground_package yes_oracle product_page {| world := (); asked := [] |}).2
  = [] ++ questions_of (data product_page).
Proof.
  apply (grounding_asks_each_usable_claim_once yes_oracle product_page).
  eexists. reflexivity.
Defined.

Section PureOracle.
Context {World : Type}.
Variable verify : string → string → bool.

#[local] Abbreviation approved := (approved verify).

Lemma Forall_flat_map_Forall2 {A B C} (R : A → B → Prop) (P : C → Prop)
    (h : B → list C) (l : list A) (l' : list B) :
  Forall2 R l l' → (∀ x y, R x y → Forall P (h y)) →
  Forall P (flat_map h l').
Proof.
  intros HR Hh. induction HR as [|x y l l' Hxy _ IH]; simpl; [constructor|].
  apply Forall_app. split; [by eapply Hh|done].
Qed.

Lemma ground_field_survivors (v : pyobj) :
  ∀ g : GState World,
    Forall approved (walked_facts (ground_field (pure_oracle verify) v g).1).
Proof.
  induction v as [a|tag|f|fields IH|items IH] using pyobj_tree_ind; intros g.
  - constructor.
  - constructor.
  - cbn [ground_field].
    destruct (falsy_str (value f)) eqn:Hv; [constructor|].
    destruct (falsy_str (evidence f)) eqn:He; [constructor|].
    cbn [orb]. unfold is_fact_grounded, pure_oracle.
    destruct (verify _ _) eqn:Hok; [|constructor].
    repeat constructor; done.
  - cbn [ground_field].
    pose proof (map_st_relates
      (λ (_ kv' : string * pyobj), Forall approved (walked_facts kv'.2))
      (λ (kv : string * pyobj) (g : GState World),
         let '(v', g') := ground_field (pure_oracle verify) kv.2 g in
         ((kv.1, v'), g'))
      fields) as Hloop.
    match type of Hloop with ?A → _ => assert (HF : A) end.
    { eapply Forall_impl; [exact IH|]. intros [k v] Hv g0. simpl in *.
      specialize (Hv g0). by destruct (ground_field _ v g0). }
    specialize (Hloop HF g). destruct (map_st _ fields g) as [fields' g'].
    cbn [fst walked_facts] in *.
    eapply Forall_flat_map_Forall2; [exact Hloop|]. by intros x y Hy.
  - cbn [ground_field].
    pose proof (map_st_relates
      (λ (_ item' : pyobj),
         Forall approved (match item' with
                          | OModel _ => walked_facts item'
                          | _ => []
                          end))
      (λ (item : pyobj) (g : GState World),
         match item with
         | OModel _ => ground_field (pure_oracle verify) item g
         | _ => (item, g)
         end)
      items) as Hloop.
    match type of Hloop with ?A → _ => assert (HF : A) end.
    { eapply Forall_impl; [exact IH|]. intros item Hitem g0.
      destruct item; cbn [fst]; try constructor.
      specialize (Hitem g0). cbn [ground_field] in *.
      by destruct (map_st _ fields g0). }
    specialize (Hloop HF g). destruct (map_st _ items g) as [items' g'].
    cbn [fst walked_facts] in *.
    eapply Forall_flat_map_Forall2; [exact Hloop|]. by intros x y Hy.
Qed.

Lemma Forall_flat_map_inv {A C} (P : C → Prop) (h : A → list C) (l : list A) :
  Forall P (flat_map h l) → Forall (λ x, Forall P (h x)) l.
Proof.
  induction l as [|x l IH]; simpl; [constructor|].
  intros [Hx Hl]%Forall_app. constructor; auto.
Qed.

Lemma ground_field_approved_fixed (v : pyobj) :
  Forall approved (walked_facts v) →
  ∀ g : GState World, (ground_field (pure_oracle verify) v g).1 = v.
Proof.
  induction v as [a|tag|f|fields IH|items IH] using pyobj_tree_ind;
    intros Hv g.
  - done.
  - done.
  - cbn [walked_facts] in Hv. apply Forall_cons in Hv as [[[Hval Hev] Hok] _].
    cbn [ground_field]. rewrite Hval, Hev. cbn [orb].
    unfold is_fact_grounded, pure_oracle. unfold question_of in Hok.
    simpl in Hok. by rewrite Hok.
  - cbn [ground_field walked_facts] in *. apply Forall_flat_map_inv in Hv.
    pose proof (map_st_fixed
      (λ (kv : string * pyobj) (g : GState World),
         let '(v', g') := ground_field (pure_oracle verify) kv.2 g in
         ((kv.1, v'), g'))
      fields) as Hloop.
    match type of Hloop with ?A → _ => assert (HF : A) end.
    { rewrite Forall_forall in IH, Hv. apply Forall_forall.
      intros [k v] Hin g0. simpl.
      pose proof (IH (k, v) Hin (Hv (k, v) Hin) g0) as Hfix. simpl in Hfix.
      destruct (ground_field _ v g0). simpl in *. by rewrite Hfix. }
    specialize (Hloop HF g). destruct (map_st _ fields g). simpl in *.
    by rewrite Hloop.
  - cbn [ground_field walked_facts] in *. apply Forall_flat_map_inv in Hv.
    pose proof (map_st_fixed
      (λ (item : pyobj) (g : GState World),
         match item with
         | OModel _ => ground_field (pure_oracle verify) item g
         | _ => (item, g)
         end)
      items) as Hloop.
    match type of Hloop with ?A → _ => assert (HF : A) end.
    { rewrite Forall_forall in IH, Hv. apply Forall_forall.
      intros item Hin g0. destruct item; try done.
      apply (IH _ Hin (Hv _ Hin) g0). }
    specialize (Hloop HF g). destruct (map_st _ items g). simpl in *.
    by rewrite Hloop.
Qed.

(** With an oracle whose answer depends on the question alone: every
    claim that is left after a grounding pass is usable and approved, and
    a second pass over the grounded tree returns it as it is. *)
Theorem grounding_is_idempotent (fields : list (string * pyobj))
    (g g' : GState World) :
  let grounded :=
    (_ground_model_recursive (pure_oracle verify) (OModel fields) g).1 in
  Forall approved (walked_facts grounded) ∧
  (_ground_model_recursive (pure_oracle verify) grounded g').1 = grounded.
Proof.
  intros grounded. subst grounded. unfold _ground_model_recursive at 1 3.
  pose proof (ground_field_survivors (OModel fields) g) as Hs.
  split; [done|].
  pose proof (ground_field_approved_fixed _ Hs g') as Hfix.
  unfold _ground_model_recursive.
  destruct ((ground_field (pure_oracle verify) (OModel fields) g).1); done.
Qed.

(** A tree whose claims are all usable and approved passes the grounder
    unchanged. *)
Theorem grounding_keeps_approved_tree (fields : list (string * pyobj))
    (g : GState World) :
  Forall approved (walked_facts (OModel fields)) →
  (_ground_model_recursive (pure_oracle verify) (OModel fields) g).1
  = OModel fields.
Proof. intros Hv. by apply ground_field_approved_fixed. Qed.
End PureOracle.

Lemma grounding_keeps_approved_tree_witness :
  (_ground_model_recursive (pure_oracle (λ _ _, true))
     (OModel [("name", sample_fact "X"); ("description", ONone)])
     {| world := (); asked := [] |}).1
  = OModel [("name", sample_fact "X"); ("description", ONone)].
Proof.
  apply (grounding_keeps_approved_tree (λ _ _, true)
           [("name", sample_fact "X"); ("description", ONone)]).
  repeat constructor.
Defined.

(* ===================================================================== *)
(** ** Grounding keeps the shape of the schema *)
(* ===================================================================== *)

Section GrounderShape.
Context {World : Type}.
Variable ask : World → string → string → bool * World.

#[local] Abbreviation ground_item :=
  (λ (item : pyobj) (g : GState World),
     match item with
     | OModel _ => ground_field ask item g
     | _ => (item, g)
     end).

Lemma ground_claim_or_none v (g : GState World) :
  fact_or_none v → claim_or_none (ground_field ask v g).1.
Proof.
  intros [->|[f ->]]; [by left|]. cbn [ground_field].
  destruct (falsy_str (value f)) eqn:Hv; [by left|].
  destruct (falsy_str (evidence f)) eqn:He; [by left|]. cbn [orb].
  destruct (is_fact_grounded ask _ _ g) as [[] g']; [|by left].
  right. destruct f as [[s|] e]; [|done]. by exists s, e.
Qed.

Lemma ground_item_typed_condition c (g : GState World) :
  typed_condition c → typed_condition (ground_item c g).1.
Proof.
  intros [->|(v1 & v2 & v3 & v4 & v5 & ->)]; [by left|]. right.
  unfold ConditionModel. cbn [ground_field map_st fst snd].
  destruct (ground_field ask v1 g) as [w1 g1].
  destruct (ground_field ask v2 g1) as [w2 g2].
  destruct (ground_field ask v3 g2) as [w3 g3].
  destruct (ground_field ask v4 g3) as [w4 g4].
  destruct (ground_field ask v5 g4) as [w5 g5].
  by exists w1, w2, w3, w4, w5.
Qed.

Lemma ground_item_typed_faq faq (g : GState World) :
  typed_faq fact_or_none faq → typed_faq claim_or_none (ground_item faq g).1.
Proof.
  intros [->|(question & answer & -> & Hq)]; [by left|]. right.
  unfold FAQModel. cbn [ground_field map_st fst snd].
  pose proof (ground_claim_or_none question g Hq) as Hq'.
  destruct (ground_field ask question g) as [w1 g1].
  destruct (ground_field ask answer g1) as [w2 g2].
  by exists w1, w2.
Qed.

Lemma ground_item_typed_employee employee (g : GState World) :
  typed_employee fact_or_none employee →
  typed_employee claim_or_none (ground_item employee g).1.
Proof.
  intros [->|(name & email & phone & role & -> & Hn)]; [by left|]. right.
  unfold EmployeeModel. cbn [ground_field map_st fst snd].
  pose proof (ground_claim_or_none name g Hn) as Hn'.
  destruct (ground_field ask name g) as [w1 g1].
  destruct (ground_field ask email g1) as [w2 g2].
  destruct (ground_field ask phone g2) as [w3 g3].
  by exists w1, w2, w3, role.
Qed.

Lemma Forall2_transfer {A B} (P : A → Prop) (P' : B → Prop) (l : list A)
    (l' : list B) :
  Forall2 (λ x y, P x → P' y) l l' → Forall P l → Forall P' l'.
Proof.
  induction 1 as [|x y l l' Hxy _ IH]; [constructor|].
  intros [Hx Hl]%Forall_cons. constructor; auto.
Qed.

Lemma ground_optional_list (P P' : pyobj → Prop) v (g : GState World) :
  (∀ x g0, P x → P' (ground_item x g0).1) →
  optional_list P v → optional_list P' (ground_field ask v g).1.
Proof.
  intros Hitem [->|(items & -> & Hitems)]; [by left|]. right.
  cbn [ground_field].
  pose proof (map_st_relates (λ x y : pyobj, P x → P' y) ground_item items)
    as Hloop.
  match type of Hloop with ?A → _ => assert (HF : A) end.
  { apply Forall_forall. intros x _ g0. apply Hitem. }
  specialize (Hloop HF g). destruct (map_st _ items g) as [items' g'].
  exists items'. split; [done|]. by eapply Forall2_transfer.
Qed.

Lemma ground_typed_product_data d (g : GState World) :
  typed_product_data fact_or_none d →
  typed_product_data claim_or_none (_ground_model_recursive ask d g).1.
Proof.
  intros (name & description & type_tag & risk_tag & conditions & faqs &
          -> & Hname & Hconds & Hfaqs).
  unfold KnowledgeGraphData, ProductModel, ProductTypeModel, RiskClassModel.
  cbn [_ground_model_recursive ground_field map_st fst snd].
  pose proof (ground_claim_or_none name g Hname) as Hname'.
  destruct (ground_field ask name g) as [w1 g1].
  destruct (ground_field ask description g1) as [w2 g2].
  pose proof (ground_optional_list typed_condition typed_condition conditions g2
                ground_item_typed_condition Hconds) as Hconds'.
  destruct (ground_field ask conditions g2) as [w3 g3].
  pose proof (ground_optional_list (typed_faq fact_or_none)
                (typed_faq claim_or_none) faqs g3
                ground_item_typed_faq Hfaqs) as Hfaqs'.
  destruct (ground_field ask faqs g3) as [w4 g4].
  by exists w1, w2, type_tag, risk_tag, w3, w4.
Qed.

Lemma ground_typed_branch_data d (g : GState World) :
  typed_branch_data fact_or_none d →
  typed_branch_data claim_or_none (_ground_model_recursive ask d g).1.
Proof.
  intros (name & address & employees & -> & Hname & Hemps).
  unfold BranchData, BranchModel.
  cbn [_ground_model_recursive ground_field map_st fst snd].
  pose proof (ground_claim_or_none name g Hname) as Hname'.
  destruct (ground_field ask name g) as [w1 g1].
  destruct (ground_field ask address g1) as [w2 g2].
  pose proof (ground_optional_list (typed_employee fact_or_none)
                (typed_employee claim_or_none) employees g2
                ground_item_typed_employee Hemps) as Hemps'.
  destruct (ground_field ask employees g2) as [w3 g3].
  by exists w1, w2, w3.
Qed.
End GrounderShape.

(* ===================================================================== *)
(** ** Grounded packages are ingested without exception *)
(* ===================================================================== *)

Section GroundThenIngest.
Context {World : Type}.
Variable ask : World → string → string → bool * World.
Variable str_other : pyobj → string.

Lemma data_ground_package package (g : GState World) :
  data (ground_package ask package g).1
  = (_ground_model_recursive ask (data package) g).1.
Proof.
  unfold ground_package. by destruct (_ground_model_recursive ask _ g).
Qed.

Lemma ground_then_ingest_product db package (g : GState World) :
  well_stamped db → typed_product_data fact_or_none (data package) →
  ∃ db', ingest_product_package str_other db (ground_package ask package g).1
         = (db', None) ∧ well_stamped db'.
Proof.
  intros Hws Hd. unfold ingest_product_package, execute_write.
  destruct (tx_ingest_product_package_returns str_other db
              (ground_package ask package g).1) as (db' & -> & Hws'); [|done|].
  - rewrite data_ground_package. by apply ground_typed_product_data.
  - by exists db'.
Qed.

Lemma ground_then_ingest_branch db package (g : GState World) :
  well_stamped db → typed_branch_data fact_or_none (data package) →
  ∃ db', ingest_branch_package db (ground_package ask package g).1
         = (db', None) ∧ well_stamped db'.
Proof.
  intros Hws Hd. unfold ingest_branch_package, execute_write.
  destruct (tx_ingest_branch_package_returns db
              (ground_package ask package g).1) as (db' & -> & Hws'); [|done|].
  - rewrite data_ground_package. by apply ground_typed_branch_data.
  - by exists db'.
Qed.

(** A package whose tree has the shape of its schema, once grounded, is
    ingested without an exception on a store whose relationships all
    carry their stamps: the transaction commits, and the store is of that
    kind again.  This holds for product and for branch packages, whatever
    the oracle answered. *)
Theorem grounded_package_is_ingested db package (g : GState World) :
  well_stamped db →
  (typed_product_data fact_or_none (data package) →
   ∃ db', ingest_product_package str_other db (ground_package ask package g).1
          = (db', None) ∧ well_stamped db') ∧
  (typed_branch_data fact_or_none (data package) →
   ∃ db', ingest_branch_package db (ground_package ask package g).1
          = (db', None) ∧ well_stamped db').
Proof.
  intros Hws. split; intros Hd.
  - by apply ground_then_ingest_product.
  - by apply ground_then_ingest_branch.
Qed.
End GroundThenIngest.

Lemma grounded_package_is_ingested_witness :
  ∃ db', ingest_branch_package after_batch_1
           (ground_package yes_oracle (branch_batch 20 [sample_employee "X"])
              {| world := (); asked := [] |}).1
         = (db', None) ∧ well_stamped db'.
Proof.
  destruct (grounded_package_is_ingested yes_oracle (λ _, "") after_batch_1
              (branch_batch 20 [sample_employee "X"])
              {| world := (); asked := [] |}) as [_ Hbranch]; [compute_done|].
  apply Hbranch.
  exists (sample_fact "Soltau"), ONone, (OList [sample_employee "X"]).
  split; [reflexivity|]. split; [right; by eexists|].
  right. eexists. split; [reflexivity|]. constructor; [|constructor].
  right. exists (sample_fact "X"), ONone, ONone, "Advisor".
  split; [reflexivity|]. right. by eexists.
Defined.

(* ===================================================================== *)
(** ** The whole run *)
(* ===================================================================== *)

Lemma at_most_one_active_empty i : at_most_one_active empty_graph i.
Proof.
  unfold at_most_one_active, active_edges. simpl.
  rewrite map_to_list_empty. simpl. lia.
Qed.

Lemma well_stamped_empty : well_stamped empty_graph.
Proof. unfold well_stamped. simpl. apply map_Forall_empty. Qed.

Lemma from_source_create_inferred_relationships db :
  from_source (create_inferred_relationships db) = from_source db.
Proof. reflexivity. Qed.

(** The store is sound: one active assertion per entity at most, and all
    relationships stamped. *)
Lemma sound_ingest_product str_other db package :
  (∀ i, at_most_one_active db i) ∧ well_stamped db →
  (∀ i, at_most_one_active (ingest_product_package str_other db package).1 i) ∧
  well_stamped (ingest_product_package str_other db package).1.
Proof.
  intros [Hone Hws]. split.
  - intros i.
    apply (ingest_product_package_preserves str_other (λ tx, at_most_one_active tx i));
      [| | | |done].
    + intros. by eapply corroborate_at_most_one_active.
    + intros. by apply mark_stale_at_most_one_active.
    + intros. by apply match_link_at_most_one_active.
    + intros. by apply match_merge_link_at_most_one_active.
  - apply (ingest_product_package_preserves str_other well_stamped); [| | | |done].
    + intros. by eapply corroborate_well_stamped.
    + intros. by apply mark_stale_well_stamped.
    + intros ? ? ? ? ? ? ? tx ?. by apply (well_stamped_from_source tx).
    + intros ? ? ? ? ? ? ? tx ?. apply (well_stamped_from_source tx); [|done].
      apply from_source_match_merge_link.
Qed.

Lemma sound_ingest_branch db package :
  (∀ i, at_most_one_active db i) ∧ well_stamped db →
  (∀ i, at_most_one_active (ingest_branch_package db package).1 i) ∧
  well_stamped (ingest_branch_package db package).1.
Proof.
  intros [Hone Hws]. split.
  - intros i.
    apply (ingest_branch_package_preserves (λ _, "") (λ tx, at_most_one_active tx i));
      [| | | |done].
    + intros. by eapply corroborate_at_most_one_active.
    + intros. by apply mark_stale_at_most_one_active.
    + intros. by apply match_link_at_most_one_active.
    + intros. by apply match_merge_link_at_most_one_active.
  - apply (ingest_branch_package_preserves (λ _, "") well_stamped); [| | | |done].
    + intros. by eapply corroborate_well_stamped.
    + intros. by apply mark_stale_well_stamped.
    + intros ? ? ? ? ? ? ? tx ?. by apply (well_stamped_from_source tx).
    + intros ? ? ? ? ? ? ? tx ?. apply (well_stamped_from_source tx); [|done].
      apply from_source_match_merge_link.
Qed.

Lemma sound_ingest_fake_data db :
  (∀ i, at_most_one_active db i) ∧ well_stamped db →
  (∀ i, at_most_one_active (ingest_fake_data db) i) ∧
  well_stamped (ingest_fake_data db).
Proof.
  intros [Hone Hws]. split.
  - intros i.
    apply (ingest_fake_data_preserves (λ _, "") (λ tx, at_most_one_active tx i));
      [| | | |done].
    + intros. by eapply corroborate_at_most_one_active.
    + intros. by apply mark_stale_at_most_one_active.
    + intros. by apply match_link_at_most_one_active.
    + intros. by apply match_merge_link_at_most_one_active.
  - apply (ingest_fake_data_preserves (λ _, "") well_stamped); [| | | |done].
    + intros. by eapply corroborate_well_stamped.
    + intros. by apply mark_stale_well_stamped.
    + intros ? ? ? ? ? ? ? tx ?. by apply (well_stamped_from_source tx).
    + intros ? ? ? ? ? ? ? tx ?. apply (well_stamped_from_source tx); [|done].
      apply from_source_match_merge_link.
Qed.

Section RunFacts.
Context {World : Type}.
Variable ask : World → string → string → bool * World.
Variable get_webpage_content : World → string → option string * World.
Variable extract_structured_data : World → string → Schema → option pyobj * World.
Variable now : World → Z * World.
Variable str_other : pyobj → string.

#[local] Abbreviation process :=
  (process_url ask get_webpage_content extract_structured_data now).

Lemma process_url_preserves (Q : Graph → Prop) schema ingest page_url db
    (g : GState World) :
  (∀ db package, Q db → Q (ingest db package).1) →
  Q db → Q (process schema ingest page_url db g).1.1.
Proof.
  intros Hingest Hq. unfold process_url.
  destruct (in_world _ g) as [[text|] g1]; [|done].
  destruct (bool_decide (text = "")); [done|].
  destruct (in_world _ g1) as [[llm_data|] g2]; [|done].
  destruct (truthy llm_data); [|done].
  destruct (in_world now g2) as [retrieved g3].
  destruct (ground_package ask _ g3) as [package g4]. simpl. by apply Hingest.
Qed.

Lemma for_urls_preserves (Q : Graph → Prop) turn urls db (g : GState World) :
  (∀ page_url db g, Q db → Q (turn page_url db g).1.1) →
  Q db → Q (for_urls turn urls db g).1.1.
Proof.
  intros Hturn. revert db g. induction urls as [|page_url urls IH];
    intros db g Hq; simpl; [done|].
  specialize (Hturn page_url db g Hq).
  destruct (turn page_url db g) as [[db1 [e|]] g1]; simpl in *; [done|].
  by apply IH.
Qed.

(** Whatever the pages hold, whatever extractor and oracle answer, and
    whether or not an exception ends the run early: the store a run of
    [run_ingestion] leaves has at most one active assertion per entity, and
    all its relationships carry a timestamp and a trust score. *)
Theorem run_ingestion_leaves_sound_store (db : Graph) (g : GState World) :
  let db' :=
    (run_ingestion ask get_webpage_content extract_structured_data now
       str_other db g).1.1 in
  (∀ i, at_most_one_active db' i) ∧ well_stamped db'.
Proof.
  intros db'. subst db'. unfold run_ingestion, clear_database.
  set (Q := λ tx, (∀ i, at_most_one_active tx i) ∧ well_stamped tx).
  assert (Q0 : Q empty_graph)
    by (split; [apply at_most_one_active_empty|apply well_stamped_empty]).
  pose proof (for_urls_preserves Q
    (process KnowledgeGraphDataSchema (ingest_product_package str_other))
    TARGET_URLS empty_graph g) as H1.
  destruct (for_urls _ TARGET_URLS empty_graph g) as [[db1 e1] g1].
  assert (Q1 : Q db1).
  { apply H1; [|done]. intros page_url db0 g0.
    apply (process_url_preserves Q). intros db2 package.
    apply sound_ingest_product. }
  destruct e1 as [e|]; [done|].
  pose proof (sound_ingest_fake_data db1 Q1) as Q2.
  pose proof (for_urls_preserves Q
    (process BranchDataSchema ingest_branch_package)
    FILIAL_URLS (ingest_fake_data db1) g1) as H3.
  destruct (for_urls _ FILIAL_URLS (ingest_fake_data db1) g1) as [[db3 e3] g3].
  assert (Q3 : Q db3).
  { apply H3; [|done]. intros page_url db0 g0.
    apply (process_url_preserves Q). intros db2 package.
    apply sound_ingest_branch. }
  destruct e3 as [e|]; [done|]. simpl. destruct Q3 as [Hone Hws].
  split; [|done]. intros i.
  by apply (at_most_one_active_from_source db3).
Qed.



End RunFacts.


(* ===================================================================== *)
(** ** Inference *)
(* ===================================================================== *)

Lemma has_active_assertion_spec db i :
  has_active_assertion db i = true ↔ actively_asserted db i.
Proof.
  unfold has_active_assertion, actively_asserted.
  rewrite bool_decide_eq_true, Exists_exists. split.
  - intros ([[j u] r] & Hin & Hj & Ha). simpl in *. subst j.
    apply elem_of_map_to_list in Hin. eauto.
  - intros (u & r & Hr & Ha). exists (i, u, r).
    split; [by apply elem_of_map_to_list|done].
Qed.

Lemma linked_to_spec db i rel label key key_value :
  linked_to db i rel label key key_value = true ↔
  ∃ k, (i, rel, k) ∈ links db ∧ is_matched db label key key_value k = true.
Proof.
  unfold linked_to. rewrite bool_decide_eq_true, Exists_exists. split.
  - intros ([[j rel'] k] & Hin & Hj & Hrel & Hm). simpl in *. subst.
    apply elem_of_elements in Hin. eauto.
  - intros (k & Hin & Hm). exists (i, rel, k).
    split; [by apply elem_of_elements|done].
Qed.

Lemma elem_of_active_of_kind db label rel kind kind_name i :
  i ∈ active_of_kind db label rel kind kind_name ↔
  of_kind db label rel kind kind_name i.
Proof.
  unfold active_of_kind, of_kind.
  rewrite list_elem_of_filter, elem_of_seq, Is_true_true, !andb_true_iff,
    has_active_assertion_spec, linked_to_spec.
  split; [tauto|]. intros (Hl & Ha & Hk). split; [done|].
  unfold node_has_label in Hl. destruct (nodes db !! i) eqn:Hi; [|done].
  apply lookup_lt_Some in Hi. lia.
Qed.

Lemma elem_of_links_add_links rel froms tos tx i rel' j :
  (i, rel', j) ∈ links (add_links rel froms tos tx) ↔
  (i, rel', j) ∈ links tx ∨ (rel' = rel ∧ i ∈ froms ∧ j ∈ tos).
Proof.
  unfold add_links. cbn [links].
  rewrite elem_of_union, elem_of_list_to_set, list_elem_of_fmap.
  apply or_iff_compat_l. split.
  - intros ([a b] & [= -> -> ->] & Hin).
    apply list_elem_of_In, in_prod_iff in Hin. rewrite <- !list_elem_of_In in Hin.
    tauto.
  - intros (-> & Hi & Hj). exists (i, j). split; [done|].
    apply list_elem_of_In, in_prod_iff. by rewrite <- !list_elem_of_In.
Qed.

Lemma elem_of_links_delete_links rel db l :
  l ∈ links (delete_links rel db) ↔ l ∈ links db ∧ l.1.2 ≠ rel.
Proof. unfold delete_links. cbn [links]. rewrite elem_of_filter. tauto. Qed.

(** The classification a query reads is not among the relationships the
    deletion removes. *)
Lemma of_kind_links_ext db db' label rel kind kind_name i :
  nodes db' = nodes db → from_source db' = from_source db →
  (∀ k, (i, rel, k) ∈ links db' ↔ (i, rel, k) ∈ links db) →
  of_kind db' label rel kind kind_name i ↔ of_kind db label rel kind kind_name i.
Proof.
  intros Hn Hf Hl.
  unfold of_kind, node_has_label, actively_asserted, is_matched.
  rewrite Hn, Hf. setoid_rewrite Hl. done.
Qed.

Lemma links_create_inferred_relationships db i rel j :
  (i, rel, j) ∈ links (create_inferred_relationships db) ↔
  (rel ≠ "ADVISES_ON" ∧ (i, rel, j) ∈ links db) ∨
  (rel = "ADVISES_ON" ∧
   of_kind db Employee "HAS_ROLE_TYPE" RoleType "Advisor" i ∧
   of_kind db Product "HAS_PRODUCT_TYPE" ProductType "InterestProduct" j).
Proof.
  unfold create_inferred_relationships. cbn zeta.
  rewrite elem_of_links_add_links, elem_of_links_delete_links,
    !elem_of_active_of_kind. cbn [fst snd].
  rewrite (of_kind_links_ext db (delete_links "ADVISES_ON" db) Employee);
    [|done|done|].
  2:{ intros k. rewrite elem_of_links_delete_links. cbn [fst snd].
      split; [tauto|]. intros H. split; [done|]. discriminate. }
  rewrite (of_kind_links_ext db (delete_links "ADVISES_ON" db) Product);
    [|done|done|].
  2:{ intros k. rewrite elem_of_links_delete_links. cbn [fst snd].
      split; [tauto|]. intros H. split; [done|]. discriminate. }
  tauto.
Qed.

(** Inference rebuilds [ADVISES_ON] from scratch.  Afterwards an
    [ADVISES_ON] relationship joins exactly the actively asserted employees
    classified as advisor to the actively asserted products classified as
    interest product, whatever [ADVISES_ON] relationships the store held
    before; every relationship of another type is as it was, and so are the
    nodes, the sources and the assertions. *)
Theorem inference_exact (db : Graph) :
  nodes (create_inferred_relationships db) = nodes db ∧
  sources (create_inferred_relationships db) = sources db ∧
  from_source (create_inferred_relationships db) = from_source db ∧
  ∀ i rel j,
    (i, rel, j) ∈ links (create_inferred_relationships db) ↔
    (rel ≠ "ADVISES_ON" ∧ (i, rel, j) ∈ links db) ∨
    (rel = "ADVISES_ON" ∧
     of_kind db Employee "HAS_ROLE_TYPE" RoleType "Advisor" i ∧
     of_kind db Product "HAS_PRODUCT_TYPE" ProductType "InterestProduct" j).
Proof.
  split; [done|]. split; [done|]. split; [done|].
  apply links_create_inferred_relationships.
Qed.

(** Inference is idempotent: run on its own result, it leaves the store as
    it is. *)
Theorem inference_idempotent (db : Graph) :
  create_inferred_relationships (create_inferred_relationships db)
  = create_inferred_relationships db.
Proof.
  apply graph_eq; try done.
  apply set_eq. intros [[i rel] j].
  rewrite (links_create_inferred_relationships (create_inferred_relationships db)).
  rewrite !(of_kind_links_ext db (create_inferred_relationships db));
    try done.
  - rewrite !links_create_inferred_relationships. 
    destruct (decide (rel = "ADVISES_ON")); tauto.
  - intros k. rewrite links_create_inferred_relationships.
    split; [|by left]. intros [[_ H]|[H _]]; [done|discriminate].
  - intros k. rewrite links_create_inferred_relationships.
    split; [|by left]. intros [[_ H]|[H _]]; [done|discriminate].
Qed.

(* ===================================================================== *)
(** ** Trust scores *)
(* ===================================================================== *)

Lemma no_url_under_both_domains (url : string) :
  String.prefix "https://www.vblh.de/" url = true →
  String.prefix "https://intern.vblh.de/" url = false.
Proof.
  assert (Hcons : ∀ a s1 b s2,
    String.prefix (String a s1) (String b s2)
    = if Ascii.ascii_dec a b then String.prefix s1 s2 else false) by done.
  intros H.
  do 8 (destruct url as [|c url]; [done|]; rewrite Hcons in H |- *;
        destruct (Ascii.ascii_dec _ c) as [<-|]; [|done]).
  destruct url as [|c url]; [done|]. rewrite Hcons in H |- *.
  repeat match goal with
         | H : context [Ascii.ascii_dec ?a ?b] |- _ =>
             destruct (Ascii.ascii_dec a b); try done; subst
         | |- context [Ascii.ascii_dec ?a ?b] =>
             destruct (Ascii.ascii_dec a b); try done; subst
         end.
Qed.

(** The score of a url does not hang on the order in which the table of
    trusted domains is walked: no url starts with two of its domains. *)
Theorem get_trust_score_order_free (table : list (string * Q)) (url : string) :
  table ≡ₚ SOURCE_TRUST_SCORES →
  get_trust_score_from table url = get_trust_score url.
Proof.
  intros Hp. symmetry in Hp.
  apply Permutation_length_2_inv in Hp as [->| ->]; [done|].
  unfold get_trust_score, SOURCE_TRUST_SCORES. cbn [get_trust_score_from].
  destruct (String.prefix "https://www.vblh.de/" url) eqn:Hw; [|done].
  by rewrite (no_url_under_both_domains url Hw).
Qed.

Lemma get_trust_score_order_free_witness :
  get_trust_score_from
    [("https://intern.vblh.de/", 95 # 100)%Q; ("https://www.vblh.de/", 9 # 10)%Q]
    fake_url
  = get_trust_score fake_url.
Proof. apply get_trust_score_order_free. apply perm_swap. Defined.

(* ===================================================================== *)
(** ** Relationship properties *)
(* ===================================================================== *)

#[local] Arguments rel_prop_step : simpl never.

Lemma length_append (a b : string) :
  String.length (a +:+ b) = String.length a + String.length b.
Proof. induction a as [|c a IH]; simpl; [done|]. by rewrite IH. Qed.

Lemma append_inj_r (s a b : string) : a +:+ s = b +:+ s → a = b.
Proof.
  revert b. induction a as [|c a IH]; intros [|c' b] H; simpl in H.
  - done.
  - apply (f_equal String.length) in H.
    rewrite !length_append in H. simpl in H. lia.
  - apply (f_equal String.length) in H.
    rewrite !length_append in H. simpl in H. lia.
  - injection H as -> H. f_equal. by apply IH.
Qed.

(** No evidence key is one of the three stamps. *)
Lemma evidence_key_not_stamp (k : string) :
  k +:+ "_evidence" ≠ "retrieved_at" ∧
  k +:+ "_evidence" ≠ "trust_score" ∧
  k +:+ "_evidence" ≠ "is_active".
Proof.
  repeat split; intros H;
    repeat (destruct k as [|? k]; simpl in H; [discriminate H|];
            injection H as _ H);
    destruct k; discriminate H.
Qed.

Lemma rel_prop_step_lookup (props : Props) (k : string) (v : pyobj) key :
  rel_prop_step props (k, v) !! key =
    match v with
    | OFact {| value := _; evidence := Some e |} =>
        if decide (key = k +:+ "_evidence") then Some (PStr e)
        else props !! key
    | _ => props !! key
    end.
Proof.
  unfold rel_prop_step. destruct v as [| |[? [e|]]| |]; try done.
  cbn [evidence]. destruct (decide _) as [->|Hne].
  - apply lookup_insert_eq.
  - by apply lookup_insert_ne.
Qed.

Lemma rel_props_fold_notin (fields : list (string * pyobj)) (props : Props) key :
  (∀ k, k ∈ fields.*1 → key ≠ k +:+ "_evidence") →
  foldl rel_prop_step props fields !! key = props !! key.
Proof.
  revert props. induction fields as [|[k v] fields IH]; intros props Hk; [done|].
  cbn [foldl]. rewrite IH.
  - rewrite rel_prop_step_lookup.
    destruct v as [| |[? [e|]]| |]; try done.
    destruct (decide _) as [->|]; [|done].
    destruct (Hk k); [|done]. cbn. left.
  - intros k' Hk'. apply Hk. cbn. by right.
Qed.

Lemma rel_props_fold_in (fields : list (string * pyobj)) (props : Props) k f e :
  NoDup fields.*1 → (k, OFact f) ∈ fields → evidence f = Some e →
  foldl rel_prop_step props fields !! (k +:+ "_evidence") = Some (PStr e).
Proof.
  revert props. induction fields as [|[k' v'] fields IH];
    intros props Hnd Hin He.
  - by apply elem_of_nil in Hin.
  - cbn in Hnd. apply NoDup_cons in Hnd as [Hk' Hnd]. cbn [foldl].
    apply elem_of_cons in Hin as [[= <- <-]|Hin]; [|by apply IH].
    rewrite rel_props_fold_notin.
    + rewrite rel_prop_step_lookup. destruct f as [? ev]. cbn in He. subst ev.
      by rewrite decide_True.
    + intros k'' Hk'' Heq%append_inj_r. by subst k''.
Qed.

Lemma rel_props_fold_inv (fields : list (string * pyobj)) (props : Props) key v :
  foldl rel_prop_step props fields !! key = Some v →
  props !! key = Some v ∨
  ∃ k f e, (k, OFact f) ∈ fields ∧ evidence f = Some e ∧
           key = k +:+ "_evidence" ∧ v = PStr e.
Proof.
  revert props. induction fields as [|[k' v'] fields IH]; intros props;
    [by left|].
  cbn [foldl]. intros [H|(k & f & e & Hin & He & -> & ->)]%IH.
  - rewrite rel_prop_step_lookup in H.
    destruct v' as [| |[val [e|]]| |]; try by left.
    destruct (decide _) as [->|]; [|by left].
    injection H as <-. right.
    exists k', {| value := val; evidence := Some e |}, e.
    split; [left|done].
  - right. exists k, f, e. split; [by right|done].
Qed.

(** The relationship properties of a model (with distinct field names)
    hold the evidence of every claim that has one, under the field's name
    followed by [_evidence], and nothing else.  The three stamps the
    corroborator adds never take the place of an evidence entry. *)
Theorem get_rel_props_projection (fields : list (string * pyobj)) :
  NoDup fields.*1 →
  ∃ props,
    get_rel_props (OModel fields) = Ok props ∧
    (∀ k f e, (k, OFact f) ∈ fields → evidence f = Some e →
              props !! (k +:+ "_evidence") = Some (PStr e)) ∧
    (∀ key v, props !! key = Some v →
              ∃ k f e, (k, OFact f) ∈ fields ∧ evidence f = Some e ∧
                       key = k +:+ "_evidence" ∧ v = PStr e) ∧
    (∀ meta active k,
       stamped props meta active !! (k +:+ "_evidence")
       = props !! (k +:+ "_evidence")).
Proof.
  intros Hnd. eexists. split; [reflexivity|]. split; [|split].
  - intros k f e Hin He. by apply (rel_props_fold_in fields ∅ k f e).
  - intros key v [H|H]%rel_props_fold_inv; [|done].
    by rewrite lookup_empty in H.
  - intros meta active k. unfold stamped.
    destruct (evidence_key_not_stamp k) as (Ht & Hs & Ha).
    by rewrite !lookup_insert_ne.
Qed.

Lemma get_rel_props_projection_witness :
  ∃ props,
    get_rel_props nulled_condition = Ok props ∧
    props !! "type_evidence" = Some (PStr "x") ∧
    props !! "interest_rate_evidence" = None.
Proof.
  destruct (get_rel_props_projection
              [("type", OFact {| value := Some "Savings Bond"; evidence := Some "x" |});
               ("min_amount", OAtom (PInt 5000));
               ("max_amount", OAtom (PInt 49999));
               ("term_years", OAtom (PInt 6));
               ("interest_rate", ONone)])
    as (props & Hp & Hfact & Honly & _).
  - compute_done.
  - exists props. split; [exact Hp|]. split.
    + apply (Hfact "type" {| value := Some "Savings Bond"; evidence := Some "x" |});
        [|reflexivity].
      apply list_elem_of_In. simpl. auto.
    + injection Hp as <-. reflexivity.
Defined.

(* ===================================================================== *)
(** ** Entities without a name *)
(* ===================================================================== *)

Section NamelessEntities.
Context {World : Type}.
Variable ask : World → string → string → bool * World.
Variable str_other : pyobj → string.

Lemma grounded_product_name (g : GState World) meta name description
    product_type risk_class conditions faqs :
  ∃ product,
    getattr (data (ground_package ask
                     {| metadata := meta;
                        data := KnowledgeGraphData (ProductModel name description)
                                  product_type risk_class conditions faqs |}
                     g).1) "product" = Ok product ∧
    truthy product = true ∧
    getattr product "name" = Ok (ground_field ask name g).1.
Proof.
  unfold ground_package, KnowledgeGraphData, ProductModel.
  cbn [data metadata _ground_model_recursive ground_field map_st fst snd].
  destruct (ground_field ask name g) as [n g1].
  destruct (ground_field ask description g1) as [d g2].
  destruct (ground_field ask product_type g2) as [pt g3].
  destruct (ground_field ask risk_class g3) as [rc g4].
  destruct (ground_field ask conditions g4) as [cs g5].
  destruct (ground_field ask faqs g5) as [fs g6].
  eexists. split; [reflexivity|]. split; reflexivity.
Qed.

Lemma grounded_branch_name (g : GState World) meta name address employees :
  ∃ branch,
    getattr (data (ground_package ask
                     {| metadata := meta;
                        data := BranchData (BranchModel name address employees) |}
                     g).1) "branch" = Ok branch ∧
    truthy branch = true ∧
    getattr branch "name" = Ok (ground_field ask name g).1.
Proof.
  unfold ground_package, BranchData, BranchModel.
  cbn [data metadata _ground_model_recursive ground_field map_st fst snd].
  destruct (ground_field ask name g) as [n g1].
  destruct (ground_field ask address g1) as [a g2].
  destruct (ground_field ask employees g2) as [es g3].
  eexists. split; [reflexivity|]. split; reflexivity.
Qed.

Lemma metadata_ground_package package (g : GState World) :
  metadata (ground_package ask package g).1 = metadata package.
Proof.
  unfold ground_package. by destruct (_ground_model_recursive ask _ g).
Qed.

(** When grounding removes the name claim of a package's top entity, be it
    for want of evidence or on the oracle's word, nothing of the page is
    ingested, whatever else it holds: the committed store is the one the
    staleness check of the page's source leaves. *)
Theorem rejected_name_only_sweeps (g : GState World) (db : Graph)
    (meta : ProvenanceModel) (f : ProvableFact) :
  (ground_field ask (OFact f) g).1 = ONone →
  (∀ description product_type risk_class conditions faqs,
     ingest_product_package str_other db
       (ground_package ask
          {| metadata := meta;
             data := KnowledgeGraphData (ProductModel (OFact f) description)
                       product_type risk_class conditions faqs |} g).1
     = (mark_stale [Product; Condition; FAQ] (url meta) db, None)) ∧
  (∀ address employees,
     ingest_branch_package db
       (ground_package ask
          {| metadata := meta;
             data := BranchData (BranchModel (OFact f) address employees) |} g).1
     = (mark_stale [Branch; Employee] (url meta) db, None)).
Proof.
  intros Hname. split.
  - intros description product_type risk_class conditions faqs.
    destruct (grounded_product_name g meta (OFact f) description product_type
                risk_class conditions faqs) as (product & Hp & Ht & Hn).
    unfold ingest_product_package, execute_write, _tx_ingest_product_package.
    rewrite metadata_ground_package, Hp. cbn [mbind result_bind metadata].
    rewrite Ht. cbn [negb]. rewrite Hn, Hname. reflexivity.
  - intros address employees.
    destruct (grounded_branch_name g meta (OFact f) address employees)
      as (branch & Hb & Ht & Hn).
    unfold ingest_branch_package, execute_write, _tx_ingest_branch_package.
    rewrite metadata_ground_package, Hb. cbn [mbind result_bind metadata].
    rewrite Ht. cbn [negb]. rewrite Hn, Hname. reflexivity.
Qed.

Lemma ingest_employee_skips meta branch_name tx employee :
  employee = ONone ∨ getattr employee "name" = Ok ONone →
  ingest_employee meta branch_name tx employee = Ok tx.
Proof.
  unfold ingest_employee. intros [->|Hname]; [done|].
  rewrite Hname. simpl. by destruct (is_none employee).
Qed.

Lemma ingest_faq_skips meta product_name tx faq :
  faq = ONone ∨ getattr faq "question" = Ok ONone →
  ingest_faq meta product_name tx faq = Ok tx.
Proof.
  unfold ingest_faq. intros [->|Hq]; [done|].
  rewrite Hq. simpl. by destruct (is_none faq).
Qed.

(** An employee that is [None], or whose [name] is [None] (as grounding
    leaves it when the claim is removed), is passed over by the loop: the
    branch package is ingested as if the employee were not in the list. *)
Theorem skipped_employee_not_ingested (meta : ProvenanceModel)
    (branch_name : string) (employee : pyobj) :
  employee = ONone ∨ getattr employee "name" = Ok ONone →
  (∀ tx, ingest_employee meta branch_name tx employee = Ok tx) ∧
  (∀ tx name address before after,
     _tx_ingest_branch_package tx
       {| metadata := meta;
          data := BranchData (BranchModel name address
                                (OList (before ++ employee :: after))) |}
     = _tx_ingest_branch_package tx
         {| metadata := meta;
            data := BranchData (BranchModel name address
                                  (OList (before ++ after))) |}).
Proof.
  intros Hskip. split; [intros tx; by apply ingest_employee_skips|].
  intros tx name address before after.
  assert (Hname : ∀ es, getattr (BranchModel name address es) "name" = Ok name)
    by done.
  assert (Hes : ∀ es, getattr (BranchModel name address es) "employees" = Ok es)
    by done.
  assert (Hnp : ∀ es, get_node_props (BranchModel name address (OList es))
                      = get_node_props (BranchModel name address (OList [])))
    by done.
  assert (Hrp : ∀ es, get_rel_props (BranchModel name address (OList es))
                      = get_rel_props (BranchModel name address (OList [])))
    by done.
  unfold _tx_ingest_branch_package. cbn [data metadata].
  change (getattr (BranchData ?b) "branch") with (Ok b).
  cbn [mbind result_bind]. rewrite !Hname, !Hes.
  rewrite (Hnp (before ++ employee :: after)), (Hnp (before ++ after)),
    (Hrp (before ++ employee :: after)), (Hrp (before ++ after)).
  cbn [mbind result_bind].
  change (truthy (BranchModel name address ?es)) with true. cbn [negb].
  destruct (negb (truthy name)); [done|].
  do 4 (apply bind_ext; intros ?).
  apply bind_ext; intros [won tx1].
  rewrite loop_if_any_skip; [done|].
  intros tx'. by apply ingest_employee_skips.
Qed.

(** A FAQ that is [None], or whose [question] is [None], is passed over
    in the same way by the product ingestor. *)
Theorem skipped_faq_not_ingested (meta : ProvenanceModel)
    (product_name : string) (faq : pyobj) :
  faq = ONone ∨ getattr faq "question" = Ok ONone →
  (∀ tx, ingest_faq meta product_name tx faq = Ok tx) ∧
  (∀ tx product product_type risk_class conditions before after,
     _tx_ingest_product_package str_other tx
       {| metadata := meta;
          data := KnowledgeGraphData product product_type risk_class
                    conditions (OList (before ++ faq :: after)) |}
     = _tx_ingest_product_package str_other tx
         {| metadata := meta;
            data := KnowledgeGraphData product product_type risk_class
                      conditions (OList (before ++ after)) |}).
Proof.
  intros Hskip. split; [intros tx; by apply ingest_faq_skips|].
  intros tx product product_type risk_class conditions before after.
  unfold _tx_ingest_product_package. cbn [data metadata].
  rewrite !getattr_KnowledgeGraphData_product,
          !getattr_KnowledgeGraphData_product_type,
          !getattr_KnowledgeGraphData_risk_class,
          !getattr_KnowledgeGraphData_conditions,
          !getattr_KnowledgeGraphData_faqs.
  cbn [mbind result_bind].
  destruct (negb (truthy product)); [done|].
  apply bind_ext; intros name.
  destruct (negb (truthy name)); [done|].
  do 4 (apply bind_ext; intros ?).
  apply bind_ext; intros [? tx0].
  do 2 (apply bind_ext; intros ?).
  apply bind_ext; intros tx3.
  rewrite loop_if_any_skip; [done|].
  intros tx'. by apply ingest_faq_skips.
Qed.
End NamelessEntities.

Lemma rejected_name_only_sweeps_witness :
  ingest_branch_package after_batch_1
    (ground_package (λ (w : unit) (_ _ : string), (false, w))
       (branch_batch 20 [sample_employee "X"])
       {| world := (); asked := [] |}).1
  = (mark_stale [Branch; Employee] "A" after_batch_1, None).
Proof.
  destruct (rejected_name_only_sweeps (λ (w : unit) (_ _ : string), (false, w))
              (λ _, "") {| world := (); asked := [] |} after_batch_1
              (sample_meta "A" 20 (9 # 10))
              {| value := Some "Soltau"; evidence := Some "... Soltau ..." |})
    as [_ Hbranch]; [reflexivity|].
  apply (Hbranch ONone (OList [sample_employee "X"])).
Defined.

Lemma skipped_employee_not_ingested_witness :
  ingest_employee (sample_meta "A" 20 (9 # 10)) "Soltau" after_batch_1
    (ground_field yes_oracle
       (EmployeeModel (OFact unsupported_rate) ONone ONone (OEnum "Advisor"))
       {| world := (); asked := [] |}).1
  = Ok after_batch_1.
Proof.
  destruct (skipped_employee_not_ingested (sample_meta "A" 20 (9 # 10)) "Soltau"
              (ground_field yes_oracle
                 (EmployeeModel (OFact unsupported_rate) ONone ONone
                    (OEnum "Advisor"))
                 {| world := (); asked := [] |}).1) as [Hturn _].
  - right. reflexivity.
  - apply Hturn.
Defined.

Lemma skipped_faq_not_ingested_witness :
  ingest_faq (sample_meta "A" 20 (9 # 10)) "X" sample_store
    (ground_field yes_oracle
       (FAQModel (OFact unsupported_rate) (sample_fact "yes"))
       {| world := (); asked := [] |}).1
  = Ok sample_store.
Proof.
  destruct (skipped_faq_not_ingested (λ _, "") (sample_meta "A" 20 (9 # 10)) "X"
              (ground_field yes_oracle
                 (FAQModel (OFact unsupported_rate) (sample_fact "yes"))
                 {| world := (); asked := [] |}).1) as [Hturn _].
  - right. reflexivity.
  - apply Hturn.
Defined.

(* ===================================================================== *)
(** ** A package supersedes what its source said before *)
(* ===================================================================== *)

Lemma as_key_inv (v : pyobj) (s : string) : as_key v = Ok s → v = OAtom (PStr s).
Proof. destruct v as [[]| | | |]; simpl; try done. by intros [= ->]. Qed.

Lemma stamped_stamps rel_props meta active :
  stored (stamped rel_props meta active) !! "retrieved_at"
  = Some (PTime (retrieved_at meta)) ∧
  stored (stamped rel_props meta active) !! "trust_score"
  = Some (PFloat (trust_score meta)).
Proof.
  rewrite !stored_lookup. unfold stamped.
  rewrite lookup_insert_ne, lookup_insert_ne, lookup_insert_eq by done.
  by rewrite lookup_insert_ne, lookup_insert_eq by done.
Qed.

(** A node the entity pattern does not match after the corroborator's
    [MERGE] and [SET] was in the store before, as it is. *)
Lemma unmatched_merged_is_old tx label key key_value i n :
  nodes (merge_node label key key_value tx) !! i = Some n →
  node_matches label key key_value n = false →
  nodes tx !! i = Some n.
Proof.
  unfold merge_node. destruct (match_ids tx label key key_value); [|done].
  cbn [nodes]. intros [Hi|[_ Hi]]%lookup_app_Some Hm; [done|].
  apply list_lookup_singleton_Some in Hi as [_ <-].
  unfold node_matches in Hm. cbn in Hm.
  rewrite lookup_singleton_eq in Hm.
  by rewrite !bool_decide_eq_true_2 in Hm.
Qed.

Lemma unmatched_written_is_old tx label key key_value node_props (w : bool) i n :
  node_props !! key = Some (PStr key_value) →
  nodes (if w then set_node_and_deactivate label key key_value node_props
                     (merge_node label key key_value tx)
         else merge_node label key key_value tx) !! i = Some n →
  node_matches label key key_value n = false →
  nodes tx !! i = Some n.
Proof.
  intros Hkey. destruct w; [|apply unmatched_merged_is_old].
  cbn [nodes set_node_and_deactivate]. rewrite list_lookup_fmap.
  destruct (nodes (merge_node label key key_value tx) !! i) as [n0|] eqn:Hi;
    [|done].
  cbn. destruct (node_matches label key key_value n0) eqn:Hm0.
  - intros [= <-]. unfold node_matches in *. cbn.
    rewrite stored_lookup, Hkey.
    apply andb_true_iff in Hm0 as [-> _]. cbn.
    by rewrite bool_decide_eq_true_2.
  - intros [= <-] _. by apply (unmatched_merged_is_old tx label key key_value).
Qed.

Section Renewal.
Variable labels : list Label.
Variable meta : ProvenanceModel.

Lemma renewed_mark_stale tx : renewed labels meta (mark_stale labels (url meta) tx).
Proof.
  intros i r. rewrite from_source_mark_stale. cbn [fst snd].
  destruct (from_source tx !! (i, url meta)) as [r0|]; [|done]. cbn.
  intros [= <-] Ha Hl. rewrite has_label_mark_stale in Hl.
  rewrite Hl, bool_decide_eq_true_2 in Ha by done.
  destruct (is_active r0) eqn:Ha0; cbn in Ha.
  - by rewrite is_active_deactivate in Ha.
  - congruence.
Qed.

Lemma renewed_corroborate tx label key key_value node_props rel_props won tx' :
  node_props !! key = Some (PStr key_value) →
  _tx_corroborate_and_ingest tx label key key_value node_props rel_props meta
    = Ok (won, tx') →
  renewed labels meta tx → renewed labels meta tx'.
Proof.
  intros Hkey Hrun Hq. apply corroborate_inv in Hrun. cbn zeta in Hrun.
  subst tx'. intros i r. rewrite from_source_merge_from_source. cbn [fst snd].
  unfold has_label. rewrite nodes_merge_from_source.
  set (txw := if won then _ else _).
  destruct (bool_decide (url meta ∈ sources txw) &&
            is_matched txw label key key_value i &&
            bool_decide (url meta = url meta)) eqn:Hc.
  { intros [= <-] _ _. apply stamped_stamps. }
  intros Hr Ha Hl.
  assert (Hsrc : bool_decide (url meta ∈ sources txw) = true).
  { apply bool_decide_eq_true_2. unfold txw.
    destruct won; cbn [sources set_node_and_deactivate];
      rewrite sources_merge_node; cbn; set_solver. }
  rewrite Hsrc, bool_decide_eq_true_2, andb_true_r in Hc by done.
  cbn [andb] in Hc. unfold is_matched in Hc.
  destruct (nodes txw !! i) as [n|] eqn:Hn; [|done].
  pose proof (unmatched_written_is_old (merge_source (url meta) tx) label key
                key_value node_props won i n Hkey Hn Hc) as Hold.
  cbn [nodes merge_source] in Hold.
  apply (Hq i r); [|done|by unfold has_label; rewrite Hold].
  unfold txw in Hr. destruct won.
  - rewrite from_source_set_node_and_deactivate, from_source_merge_node in Hr.
    cbn [from_source merge_source fst] in Hr.
    destruct (from_source tx !! (i, url meta)) as [r0|]; [|done].
    cbn in Hr. injection Hr as <-.
    destruct (_ && is_active r0); [|done].
    by rewrite is_active_deactivate in Ha.
  - by rewrite from_source_merge_node in Hr.
Qed.

Lemma renewed_match_link la ka va lb kb vb rel tx :
  renewed labels meta tx →
  renewed labels meta (match_link la ka va lb kb vb rel tx).
Proof. intros Hq. exact Hq. Qed.

Lemma renewed_match_merge_link la ka va lb kb vb rel tx :
  lb ∉ labels →
  renewed labels meta tx →
  renewed labels meta (match_merge_link la ka va lb kb vb rel tx).
Proof.
  intros Hlb Hq. unfold match_merge_link.
  destruct (match_ids tx la ka va) as [|a froms]; [done|].
  intros i r. unfold has_label. cbn [add_links from_source nodes].
  rewrite from_source_merge_node. intros Hr Ha Hl.
  apply (Hq i r); [done|done|]. unfold has_label.
  destruct (nodes (merge_node lb kb vb tx) !! i) as [n|] eqn:Hn; [|done].
  unfold merge_node in Hn. destruct (match_ids tx lb kb vb); [|by rewrite Hn].
  cbn [nodes] in Hn. apply lookup_app_Some in Hn as [Hn|[_ Hn]];
    [by rewrite Hn|].
  apply list_lookup_singleton_Some in Hn as [_ <-]. cbn in Hl.
  by rewrite bool_decide_eq_false_2 in Hl.
Qed.

Variable str_other : pyobj → string.
Hypothesis kinds_apart :
  (ProductType ∉ labels) ∧ (RiskClass ∉ labels) ∧ (RoleType ∉ labels).

Lemma ingest_condition_renews product_name tx condition tx' :
  renewed labels meta tx →
  ingest_condition str_other meta product_name tx condition = Ok tx' →
  renewed labels meta tx'.
Proof.
  intros Hq. unfold ingest_condition.
  destruct (is_none condition); [by intros [= <-]|]. intros Hrun.
  split_bind Hrun as rate Hrate.
  destruct (is_none rate); [by injection Hrun as <-|].
  split_bind Hrun as min_amount Hmin. split_bind Hrun as term_years Hterm.
  split_bind Hrun as node_props Hnp. split_bind Hrun as rel_props Hrp.
  split_bind Hrun as r Hr. destruct r as [w tx1].
  injection Hrun as <-. apply renewed_match_link.
  eapply renewed_corroborate; [|exact Hr|done]. apply lookup_insert_eq.
Qed.

Lemma ingest_faq_renews product_name tx faq tx' :
  renewed labels meta tx →
  ingest_faq meta product_name tx faq = Ok tx' →
  renewed labels meta tx'.
Proof.
  intros Hq. unfold ingest_faq.
  destruct (is_none faq); [by intros [= <-]|]. intros Hrun.
  split_bind Hrun as question Hquestion.
  destruct (is_none question); [by injection Hrun as <-|].
  split_bind Hrun as question_value Hqv.
  split_bind Hrun as node_props Hnp. split_bind Hrun as rel_props Hrp.
  split_bind Hrun as key_value Hk.
  split_bind Hrun as r Hr. destruct r as [w tx1].
  injection Hrun as <-. apply renewed_match_link.
  eapply renewed_corroborate; [|exact Hr|done].
  apply as_key_inv in Hk as ->. apply lookup_insert_eq.
Qed.

Lemma ingest_employee_renews branch_name tx employee tx' :
  renewed labels meta tx →
  ingest_employee meta branch_name tx employee = Ok tx' →
  renewed labels meta tx'.
Proof using labels meta kinds_apart.
  intros Hq. unfold ingest_employee.
  destruct (is_none employee); [by intros [= <-]|]. intros Hrun.
  split_bind Hrun as name Hname.
  destruct (is_none name); [by injection Hrun as <-|].
  split_bind Hrun as employee_name Hen.
  split_bind Hrun as node_props Hnp. split_bind Hrun as rel_props Hrp.
  split_bind Hrun as key_value Hk.
  split_bind Hrun as r Hr. destruct r as [w tx1].
  assert (renewed labels meta
            (match_link Employee "name" key_value Branch "name" branch_name
               "WORKS_IN" tx1)).
  { apply renewed_match_link.
    eapply renewed_corroborate; [|exact Hr|done].
    apply as_key_inv in Hk as ->. apply lookup_insert_eq. }
  split_bind Hrun as role_type Hrole. destruct (truthy role_type).
  - split_bind Hrun as role_type_name Hrn. injection Hrun as <-.
    apply renewed_match_merge_link; [|done]. apply kinds_apart.
  - by injection Hrun as <-.
Qed.

Lemma classify_renews (v : pyobj) (attr : string) la ka va lb kb rel tx tx' :
  lb ∉ labels →
  renewed labels meta tx →
  (if truthy v then
     name ← getattr v attr;
     if truthy name then
       key_value ← getattr name "value" ≫= as_key;
       Ok (match_merge_link la ka va lb kb key_value rel tx)
     else Ok tx
   else Ok tx) = Ok tx' →
  renewed labels meta tx'.
Proof.
  intros Hlb Hq. destruct (truthy v); [|by intros [= <-]]. intros Hrun.
  split_bind Hrun as name Hname.
  destruct (truthy name); [|by injection Hrun as <-].
  split_bind Hrun as key_value Hk. injection Hrun as <-.
  by apply renewed_match_merge_link.
Qed.

Lemma loop_if_any_renews (body : Graph → pyobj → result Graph) tx xs tx' :
  (∀ s x s', renewed labels meta s → body s x = Ok s' → renewed labels meta s') →
  renewed labels meta tx → loop_if_any body tx xs = Ok tx' →
  renewed labels meta tx'.
Proof.
  intros Hbody Hq. unfold loop_if_any. destruct (truthy xs).
  - intros Hrun. split_bind Hrun as items Hitems.
    by apply (for_each_invariant (renewed labels meta) body items Hbody tx tx').
  - by intros [= <-].
Qed.
End Renewal.

Lemma tx_ingest_product_package_renews str_other tx package tx' :
  _tx_ingest_product_package str_other tx package = Ok tx' →
  renewed [Product; Condition; FAQ] (metadata package) tx'.
Proof.
  set (labels := [Product; Condition; FAQ]). set (meta := metadata package).
  assert (Hkinds : (ProductType ∉ labels) ∧ (RiskClass ∉ labels) ∧
                   (RoleType ∉ labels))
    by (unfold labels; repeat split; compute_done).
  pose proof (renewed_mark_stale labels meta tx) as Hq.
  unfold _tx_ingest_product_package. fold meta. fold labels. intros Hrun.
  split_bind Hrun as product Hproduct.
  destruct (negb (truthy product)); [by injection Hrun as <-|].
  split_bind Hrun as name Hname.
  destruct (negb (truthy name)); [by injection Hrun as <-|].
  split_bind Hrun as product_name Hpn.
  split_bind Hrun as node_props Hnp. split_bind Hrun as rel_props Hrp.
  split_bind Hrun as key_value Hk.
  split_bind Hrun as r Hr. destruct r as [w tx1].
  assert (Hq1 : renewed labels meta tx1).
  { eapply renewed_corroborate; [|exact Hr|done].
    apply as_key_inv in Hk as ->. apply lookup_insert_eq. }
  split_bind Hrun as product_type Hpt. split_bind Hrun as tx2 Htx2.
  apply (classify_renews labels meta) in Htx2; [|apply Hkinds|done].
  split_bind Hrun as risk_class Hrc. split_bind Hrun as tx3 Htx3.
  apply (classify_renews labels meta) in Htx3; [|apply Hkinds|done].
  split_bind Hrun as conditions Hconds. split_bind Hrun as tx4 Htx4.
  assert (Hq4 : renewed labels meta tx4).
  { eapply loop_if_any_renews; [|exact Htx3|exact Htx4].
    intros s x s'. apply ingest_condition_renews. }
  split_bind Hrun as faqs Hfaqs.
  eapply loop_if_any_renews; [|exact Hq4|exact Hrun].
  intros s x s'. apply ingest_faq_renews.
Qed.

Lemma tx_ingest_branch_package_renews tx package tx' :
  _tx_ingest_branch_package tx package = Ok tx' →
  renewed [Branch; Employee] (metadata package) tx'.
Proof.
  set (labels := [Branch; Employee]). set (meta := metadata package).
  assert (Hkinds : (ProductType ∉ labels) ∧ (RiskClass ∉ labels) ∧
                   (RoleType ∉ labels))
    by (unfold labels; repeat split; compute_done).
  pose proof (renewed_mark_stale labels meta tx) as Hq.
  unfold _tx_ingest_branch_package. fold meta. fold labels. intros Hrun.
  split_bind Hrun as branch Hbranch.
  destruct (negb (truthy branch)); [by injection Hrun as <-|].
  split_bind Hrun as name Hname.
  destruct (negb (truthy name)); [by injection Hrun as <-|].
  split_bind Hrun as branch_name Hbn.
  split_bind Hrun as node_props Hnp. split_bind Hrun as rel_props Hrp.
  split_bind Hrun as key_value Hk.
  split_bind Hrun as r Hr. destruct r as [w tx1].
  assert (Hq1 : renewed labels meta tx1).
  { eapply renewed_corroborate; [|exact Hr|done].
    apply as_key_inv in Hk as ->. apply lookup_insert_eq. }
  split_bind Hrun as employees Hemp.
  eapply loop_if_any_renews; [|exact Hq1|exact Hrun].
  intros s x s'. by apply ingest_employee_renews.
Qed.

(** A committed package supersedes what its source said before.  After a
    product package is committed, every active assertion of the package's
    source on a [Product], [Condition] or [FAQ] node carries the package's
    timestamp and trust score: whatever the source asserted earlier and the
    package does not repeat is inactive.  The same holds for a branch
    package on [Branch] and [Employee] nodes. *)
Theorem package_supersedes_its_source (str_other : pyobj → string)
    (db : Graph) (package : ExtractionPackage) (db' : Graph) :
  (ingest_product_package str_other db package = (db', None) →
   ∀ i r, from_source db' !! (i, url (metadata package)) = Some r →
          is_active r = true →
          has_label db' [Product; Condition; FAQ] i = true →
          r !! "retrieved_at" = Some (PTime (retrieved_at (metadata package))) ∧
          r !! "trust_score" = Some (PFloat (trust_score (metadata package)))) ∧
  (ingest_branch_package db package = (db', None) →
   ∀ i r, from_source db' !! (i, url (metadata package)) = Some r →
          is_active r = true →
          has_label db' [Branch; Employee] i = true →
          r !! "retrieved_at" = Some (PTime (retrieved_at (metadata package))) ∧
          r !! "trust_score" = Some (PFloat (trust_score (metadata package)))).
Proof.
  split.
  - unfold ingest_product_package, execute_write.
    destruct (_tx_ingest_product_package str_other db package) as [tx'|e] eqn:Hrun;
      [|done].
    intros [= <-]. by apply (tx_ingest_product_package_renews str_other db).
  - unfold ingest_branch_package, execute_write.
    destruct (_tx_ingest_branch_package db package) as [tx'|e] eqn:Hrun; [|done].
    intros [= <-]. by apply (tx_ingest_branch_package_renews db).
Qed.

Lemma package_supersedes_its_source_witness :
  ingest_branch_package after_batch_1 (branch_batch 20 [sample_employee "X"])
  = (after_batch_2, None) ∧
  ∀ i r, from_source after_batch_2 !! (i, "A") = Some r →
         is_active r = true →
         has_label after_batch_2 [Branch; Employee] i = true →
         r !! "retrieved_at" = Some (PTime 20) ∧
         r !! "trust_score" = Some (PFloat (9 # 10)).
Proof.
  destruct (package_supersedes_its_source (λ _, "") after_batch_1
              (branch_batch 20 [sample_employee "X"]) after_batch_2)
    as [_ Hbranch].
  assert (Hrun : ingest_branch_package after_batch_1
                   (branch_batch 20 [sample_employee "X"])
                 = (after_batch_2, None)) by (vm_compute; reflexivity).
  split; [exact Hrun|]. exact (Hbranch Hrun).
Defined.

(** Ingestion keeps the store sound.  From a store with at most one active
    assertion per entity node and with every assertion stamped, a product
    package, a branch package and the fake condition each leave a store of
    that kind, whether the transaction commits or is rolled back. *)
Theorem package_ingestion_keeps_store_sound (str_other : pyobj → string)
    (db : Graph) (package : ExtractionPackage) :
  (∀ i, at_most_one_active db i) ∧ well_stamped db →
  ((∀ i, at_most_one_active (ingest_product_package str_other db package).1 i) ∧
   well_stamped (ingest_product_package str_other db package).1) ∧
  ((∀ i, at_most_one_active (ingest_branch_package db package).1 i) ∧
   well_stamped (ingest_branch_package db package).1) ∧
  ((∀ i, at_most_one_active (ingest_fake_data db) i) ∧
   well_stamped (ingest_fake_data db)).
Proof.
  intros Hdb. split; [|split].
  - by apply sound_ingest_product.
  - by apply sound_ingest_branch.
  - by apply sound_ingest_fake_data.
Qed.

Lemma package_ingestion_keeps_store_sound_witness :
  (∀ i, at_most_one_active (ingest_fake_data empty_graph) i) ∧
  well_stamped (ingest_fake_data empty_graph).
Proof.
  apply (package_ingestion_keeps_store_sound (λ _, "") empty_graph product_page).
  split.
  - intros i. vm_compute. lia.
  - apply map_Forall_empty.
Defined.

(* ===================================================================== *)
(** ** An employee the page no longer names *)
(* ===================================================================== *)

Lemma for_each_Forall {A S} (Q : S → Prop) (P : A → Prop)
    (body : S → A → result S) (l : list A) :
  (∀ s x s', P x → Q s → body s x = Ok s' → Q s') →
  Forall P l → ∀ s s', Q s → for_each body s l = Ok s' → Q s'.
Proof.
  intros Hbody HP. induction HP as [|x l Hx HP IH]; intros s s' Hs; simpl.
  - by intros [= <-].
  - destruct (body s x) as [s1|e] eqn:Hrun; simpl; [|done]. eauto.
Qed.

Lemma iter_inv (xs : pyobj) (items : list pyobj) :
  iter xs = Ok items → xs = OList items.
Proof. destruct xs; simpl; try done. by intros [= ->]. Qed.

Section Omitted.
Variable i : nat.
Variable n : Node.

Lemma silent_mark_stale labels u tx :
  nodes tx !! i = Some n → n_label n ∈ labels →
  (∀ u' r, from_source tx !! (i, u') = Some r → is_active r = true → u' = u) →
  silent (mark_stale labels u tx) i n.
Proof.
  intros Hn Hl Honly. split; [done|]. intros u' r.
  rewrite from_source_mark_stale. cbn [fst snd].
  destruct (from_source tx !! (i, u')) as [r0|] eqn:Hr0; [|done]. cbn.
  intros [= <-]. destruct (is_active r0) eqn:Ha; [|by rewrite andb_false_r].
  unfold has_label. rewrite Hn, (Honly u' r0 Hr0 Ha).
  rewrite !bool_decide_eq_true_2 by done. cbn. apply is_active_deactivate.
Qed.

Lemma silent_corroborate tx label key key_value node_props rel_props meta
    won tx' :
  node_matches label key key_value n = false →
  _tx_corroborate_and_ingest tx label key key_value node_props rel_props meta
    = Ok (won, tx') →
  silent tx i n → silent tx' i n.
Proof.
  intros Hm Hrun [Hn Hoff]. apply corroborate_inv in Hrun. cbn zeta in Hrun.
  subst tx'.
  pose proof (nodes_merged_lookup label key key_value meta tx i n Hn) as Hnm.
  unfold merged in Hnm.
  set (txm := merge_node label key key_value (merge_source (url meta) tx)) in *.
  set (txw := if won then _ else _).
  assert (Hnw : nodes txw !! i = Some n).
  { unfold txw. destruct won; [|done].
    cbn [nodes set_node_and_deactivate]. rewrite list_lookup_fmap, Hnm. cbn.
    by rewrite Hm. }
  assert (Hmw : is_matched txw label key key_value i = false)
    by (unfold is_matched; by rewrite Hnw).
  split; [by rewrite nodes_merge_from_source|].
  intros u r. rewrite from_source_merge_from_source. cbn [fst snd].
  rewrite Hmw, andb_false_r. cbn [andb]. unfold txw. destruct won.
  - rewrite from_source_set_node_and_deactivate. unfold txm.
    rewrite from_source_merge_node. cbn [from_source merge_source fst].
    destruct (from_source tx !! (i, u)) as [r0|] eqn:Hr0; [|done]. cbn.
    intros [= <-]. rewrite (Hoff u r0 Hr0), andb_false_r. by apply (Hoff u).
  - unfold txm. rewrite from_source_merge_node. apply Hoff.
Qed.

Lemma silent_match_link la ka va lb kb vb rel tx :
  silent tx i n → silent (match_link la ka va lb kb vb rel tx) i n.
Proof. intros Hq. exact Hq. Qed.

Lemma silent_match_merge_link la ka va lb kb vb rel tx :
  silent tx i n → silent (match_merge_link la ka va lb kb vb rel tx) i n.
Proof.
  intros [Hn Hoff]. unfold match_merge_link.
  destruct (match_ids tx la ka va) as [|a froms]; [done|]. split.
  - cbn [nodes add_links]. unfold merge_node.
    destruct (match_ids tx lb kb vb); [|done]. cbn [nodes].
    by apply lookup_app_l_Some.
  - intros u r. cbn [from_source add_links]. rewrite from_source_merge_node.
    apply Hoff.
Qed.

Lemma not_named_unmatched label (v : string) :
  n_props n !! "name" ≠ Some (PStr v) →
  node_matches label "name" v n = false.
Proof.
  intros Hne. unfold node_matches.
  destruct (n_props n !! "name") as [[|s| | | |]|]; try apply andb_false_r.
  rewrite (bool_decide_eq_false_2 (s = v)); [apply andb_false_r|].
  by intros ->.
Qed.

Lemma ingest_employee_silent meta branch_name tx employee tx' :
  (∀ v, names employee v → n_props n !! "name" ≠ Some (PStr v)) →
  silent tx i n →
  ingest_employee meta branch_name tx employee = Ok tx' →
  silent tx' i n.
Proof.
  intros Hnot Hq. unfold ingest_employee.
  destruct (is_none employee); [by intros [= <-]|]. intros Hrun.
  split_bind Hrun as name Hname.
  destruct (is_none name); [by injection Hrun as <-|].
  split_bind Hrun as employee_name Hen.
  split_bind Hrun as node_props Hnp. split_bind Hrun as rel_props Hrp.
  split_bind Hrun as key_value Hk.
  split_bind Hrun as r Hr. destruct r as [w tx1].
  apply as_key_inv in Hk as ->.
  assert (silent (match_link Employee "name" key_value Branch "name"
                    branch_name "WORKS_IN" tx1) i n).
  { apply silent_match_link.
    eapply silent_corroborate; [|exact Hr|done].
    apply not_named_unmatched, Hnot. by exists name. }
  split_bind Hrun as role_type Hrole. destruct (truthy role_type).
  - split_bind Hrun as role_type_name Hrn. injection Hrun as <-.
    by apply silent_match_merge_link.
  - by injection Hrun as <-.
Qed.

Lemma tx_ingest_branch_package_silent tx meta name address employees tx' :
  _tx_ingest_branch_package tx
    {| metadata := meta;
       data := BranchData (BranchModel name address employees) |} = Ok tx' →
  nodes tx !! i = Some n → n_label n = Employee →
  (∀ u r, from_source tx !! (i, u) = Some r → is_active r = true →
          u = url meta) →
  (∀ es e v, employees = OList es → e ∈ es → names e v →
             n_props n !! "name" ≠ Some (PStr v)) →
  silent tx' i n.
Proof.
  intros Hrun Hn Hl Honly Hnot.
  assert (Hq : silent (mark_stale [Branch; Employee] (url meta) tx) i n).
  { apply silent_mark_stale; [done| |done]. rewrite Hl. set_solver. }
  unfold _tx_ingest_branch_package in Hrun. cbn [data metadata] in Hrun.
  split_bind Hrun as branch Hbranch.
  change (getattr _ _) with (Ok (BranchModel name address employees)) in Hbranch.
  injection Hbranch as <-.
  destruct (negb (truthy _)); [by injection Hrun as <-|].
  split_bind Hrun as name' Hname.
  destruct (negb (truthy name')); [by injection Hrun as <-|].
  split_bind Hrun as branch_name Hbn.
  split_bind Hrun as node_props Hnp. split_bind Hrun as rel_props Hrp.
  split_bind Hrun as key_value Hk.
  split_bind Hrun as r Hr. destruct r as [w tx1].
  assert (Hq1 : silent tx1 i n).
  { eapply silent_corroborate; [|exact Hr|done].
    unfold node_matches. rewrite Hl. by rewrite bool_decide_eq_false_2. }
  split_bind Hrun as employees' Hemp.
  change (getattr _ _) with (Ok employees) in Hemp. injection Hemp as <-.
  unfold loop_if_any in Hrun.
  destruct (truthy employees); [|by injection Hrun as <-].
  split_bind Hrun as items Hitems. apply iter_inv in Hitems.
  eapply (for_each_Forall (λ s, silent s i n)
            (λ e, ∀ v, names e v → n_props n !! "name" ≠ Some (PStr v)));
    [|  |exact Hq1|exact Hrun].
  - intros s x s' Hx Hs. by apply ingest_employee_silent.
  - apply Forall_forall. intros e He v. by apply (Hnot items).
Qed.
End Omitted.

(** An employee the page no longer names stops advising.  Take an employee
    node whose active assertions all come from the source of a branch
    package, and a package that names no employee as the node is named.
    Once the package is committed the node is as it was but has no active
    assertion left, and after inference no [ADVISES_ON] relationship leaves
    it. *)
Theorem omitted_employee_stops_advising (db : Graph) (meta : ProvenanceModel)
    (name address employees : pyobj) (db' : Graph) (i : nat) (n : Node) :
  ingest_branch_package db
    {| metadata := meta;
       data := BranchData (BranchModel name address employees) |}
  = (db', None) →
  nodes db !! i = Some n → n_label n = Employee →
  (∀ u r, from_source db !! (i, u) = Some r → is_active r = true →
          u = url meta) →
  (∀ es e v, employees = OList es → e ∈ es → names e v →
             n_props n !! "name" ≠ Some (PStr v)) →
  nodes db' !! i = Some n ∧
  (∀ u r, from_source db' !! (i, u) = Some r → is_active r = false) ∧
  (∀ j, (i, "ADVISES_ON", j) ∉ links (create_inferred_relationships db')).
Proof.
  unfold ingest_branch_package, execute_write.
  destruct (_tx_ingest_branch_package db _) as [tx'|e] eqn:Hrun; [|done].
  intros [= <-] Hn Hl Honly Hnot.
  destruct (tx_ingest_branch_package_silent i n db meta name address employees
              tx' Hrun Hn Hl Honly Hnot) as [Hn' Hoff].
  split; [done|]. split; [done|].
  intros j [[Hrel _]|(_ & (_ & (u & r & Hr & Ha) & _) & _)]%
    links_create_inferred_relationships; [done|].
  rewrite (Hoff u r Hr) in Ha. done.
Qed.

Lemma omitted_employee_stops_advising_witness :
  (∀ u r, from_source after_batch_2 !! (3, u) = Some r → is_active r = false) ∧
  (∀ j, (3, "ADVISES_ON", j) ∉ links (create_inferred_relationships after_batch_2)).
Proof.
  apply (omitted_employee_stops_advising after_batch_1
           (sample_meta "A" 20 (9 # 10)) (sample_fact "Soltau") ONone
           (OList [sample_employee "X"]) after_batch_2 3
           {| n_label := Employee;
              n_props := {["name" := PStr "Y"; "role_type" := PStr "Advisor"]} |}).
  - vm_compute. reflexivity.
  - vm_compute. reflexivity.
  - reflexivity.
  - intros u r Hr Ha.
    assert (HF : map_Forall (λ k r, k.1 = 3 → is_active r = true → k.2 = "A")
                   (from_source after_batch_1)) by compute_done.
    by apply (map_Forall_lookup_1 _ _ _ _ HF Hr).
  - intros es e v [= <-] He (nm & Hnm & Hv).
    apply list_elem_of_singleton in He as ->.
    injection Hnm as <-. injection Hv as <-. done.
Defined.
